(** * RenderCore_OptixRTX_B: the host side of the wavefront path tracer

    A shallow embedding of [lib/RenderCore_OptixRTX_B/rendercore.cpp]
    (lighthouse2).  The host code is a sequence of assignments to the members
    of [RenderCore], calls into the OptiX context and CUDA kernel dispatches.
    Members become the fields of a record, the body of every method becomes a
    computation in a small state monad that also records the device calls it
    issues (in program order) and that can get stuck on undefined behaviour
    (a null buffer pointer, a vector indexed outside its range).

    The CUDA/OptiX kernels, the buffer classes and [CoreMesh] live in other
    files; what the host code needs from them is collected in the record
    [Kernels]. *)

From Stdlib Require Import ZArith Lia String.
From Stdlib Require Import Floats.SpecFloat.
From stdpp Require Import base list strings.

Open Scope Z_scope.

(** ** Machine integers and floats *)

(** Arithmetic on [uint]: the result is reduced modulo 2^32.  The class
    declaration (rendercore.h) is not among the sources, so the integer
    members take the width of the [uint] values the methods copy into and
    out of them ([const uint spp], [uint pathCount]). *)
Definition uint (z : Z) : Z := z mod 2 ^ 32.

(** The [int] an unsigned 32-bit value converts to (two's complement). *)
Definition int_of_uint (z : Z) : Z := if z <? 2 ^ 31 then z else z - 2 ^ 32.

(** [(size_t)i] for an [int] [i], as in the comparison of an index with
    [vector::size()]. *)
Definition size_t_of_int (i : Z) : Z := i mod 2 ^ 64.

(** [float] values; the operator [!=] is IEEE inequality. *)
Definition float : Type := spec_float.
Definition float_ne (a b : float) : bool := negb (SFeqb a b).

(** A 4x4 matrix, sixteen floats. *)
Definition mat4 : Type := list float.

Definition f32_one : float := S754_finite false 8388608 (-23).
Definition f32_zero : float := S754_zero false.

Definition mat4_Identity : mat4 :=
  [ f32_one; f32_zero; f32_zero; f32_zero;
    f32_zero; f32_one; f32_zero; f32_zero;
    f32_zero; f32_zero; f32_one; f32_zero;
    f32_zero; f32_zero; f32_zero; f32_one ].

(** [v[i]] on a [std::vector] with a signed index: outside the range the
    access is undefined, which [None] stands for. *)
Definition vec_at {A : Type} (v : list A) (i : Z) : option A :=
  if (0 <=? i) then v !! Z.to_nat i else None.

(** ** Data *)

(** The enumeration is declared in a header outside the sources; [Restart] is
    the value the code tests for. *)
Inductive Convergence : Type := Continue | Restart.

(** The part of [Counters] the host reads. *)
Record Counters : Type := mkCounters {
  extensionRays : Z;
  shadowRays : Z;
  totalExtensionRays : Z;
  probedInstid : Z;
  probedTriid : Z;
  probedDist : float
}.

Record CoreInstanceDesc : Type := mkDesc {
  triangles : Z;          (* device pointer of the mesh's triangle buffer *)
  invTransform : mat4
}.

(** An OptiX transform node: the matrix and the inverse handed to
    [setMatrix], which [getMatrix] returns. *)
Record Transform : Type := mkTransform {
  t_matrix : mat4;
  t_inverse : mat4
}.

Record CoreInstance : Type := mkInstance {
  mesh : Z;                          (* index into [meshes] *)
  transform : option Transform;      (* [None] is the null handle *)
  geometryInstance : option (Z * Z)  (* mesh bound at creation, "instanceIndex" *)
}.

Definition new_CoreInstance : CoreInstance :=
  {| mesh := 0; transform := None; geometryInstance := None |}.

Record GLTexture : Type := mkTexture { width : Z; height : Z }.

(** The counters and ray statistics of [coreStats]; the timings are wall
    clock readings and are left out. *)
Record CoreStats : Type := mkStats {
  st_totalExtensionRays : Z;
  st_totalShadowRays : Z;
  st_primaryRayCount : Z;
  st_bounce1RayCount : Z;
  st_deepRayCount : Z;
  st_totalRays : Z;
  st_probedInstid : Z;
  st_probedTriid : Z;
  st_probedDist : float
}.

Record RenderSettings : Type := mkVars {
  geometryEpsilon : float;
  clampValue : float
}.

(** Field updates. *)
Definition set_mesh x (i : CoreInstance) : CoreInstance :=
  {| mesh := x; transform := transform i; geometryInstance := geometryInstance i |}.
Definition set_transform x (i : CoreInstance) : CoreInstance :=
  {| mesh := mesh i; transform := x; geometryInstance := geometryInstance i |}.
Definition set_geometryInstance x (i : CoreInstance) : CoreInstance :=
  {| mesh := mesh i; transform := transform i; geometryInstance := x |}.

Definition set_geometryEpsilon x (r : RenderSettings) : RenderSettings :=
  {| geometryEpsilon := x; clampValue := clampValue r |}.
Definition set_clampValue x (r : RenderSettings) : RenderSettings :=
  {| geometryEpsilon := geometryEpsilon r; clampValue := x |}.

(** The result of running a method: it returns, or it runs into undefined
    behaviour. *)
Inductive outcome (A : Type) : Type :=
| Done (a : A)
| Undefined.
Arguments Done {A} a.
Arguments Undefined {A}.

Inductive BufferId : Type :=
  ConnectionBuffer | Accumulator | HitBuffer | PathStateBuffer | InstDescBuffer.

Section Core.

(** Types declared in headers that are not part of the sources. *)
Context {CoreMesh : Type}.      (* a mesh: triangle buffer, OptiX geometry *)
Context {Geometry : Type}.      (* the arguments of CoreMesh::SetGeometry *)
Context {ViewPyramid : Type}.   (* camera position and screen plane *)
Context {Scratch : Type}.       (* device memory the host never reads:
                                   path states, hits, connections, surface *)

(** Variables of the OptiX context the host sets. *)
Record OptixContext : Type := mkCtx {
  ctx_scrsize : Z * Z * Z;
  ctx_view : option ViewPyramid;   (* posLensSize, right, up, p1 *)
  ctx_pass : Z;
  ctx_phase : Z;
  ctx_geometryEpsilon : option float
}.

(** Device memory. *)
Record Device : Type := mkDevice {
  accData : list Z;                                (* accumulator, as words *)
  counterData : Counters;                          (* counterBuffer, device copy *)
  instDescData : list (option CoreInstanceDesc);   (* instDescBuffer, device copy *)
  dev_geometryEpsilon : option float;
  dev_clampValue : float;
  scratch : Scratch
}.

(** The arguments of one [shade] dispatch. *)
Record ShadeArgs : Type := mkShade {
  sa_pathCount : Z;
  sa_stride : Z;
  sa_R0 : Z;
  sa_pass : Z;
  sa_probePixelIdx : Z;
  sa_pathLength : Z;
  sa_w : Z;
  sa_h : Z;
  sa_view : ViewPyramid
}.

(** The members of [RenderCore] the methods below read or write. *)
Record RenderCore : Type := mkCore {
  scrwidth : Z;
  scrheight : Z;
  scrspp : Z;
  maxPixels : Z;
  currentSPP : Z;
  samplesTaken : Z;
  camRNGseed : Z;
  probePos : Z * Z;
  renderTarget : option GLTexture;
  (* element counts of the four screen buffers; [None] is a null pointer *)
  connectionBuffer : option Z;
  accumulator : option Z;
  hitBuffer : option Z;
  pathStateBuffer : option Z;
  (* size and host copy of the descriptor buffer *)
  instDescBuffer : option (Z * list (option CoreInstanceDesc));
  counterHost : Counters;            (* counterBuffer, host copy *)
  meshes : list CoreMesh;
  instances : list CoreInstance;
  instancesDirty : bool;
  topLevelDirty : bool;
  vars : RenderSettings;
  coreStats : CoreStats;
  context : OptixContext;
  device : Device
}.

(** Calls that reach the device or the allocator, in program order. *)
Inductive Event : Type :=
| EvDelete (b : BufferId)
| EvNew (b : BufferId) (size : Z)
| EvClear (b : BufferId)
| EvCopyToDevice (b : BufferId)
| EvCopyToHost (c : Counters)
| EvInitCountersForExtend (pathCount : Z)
| EvInitCountersSubsequent
| EvLaunch (phase size : Z)
| EvShade (a : ShadeArgs)
| EvFinalize (w h spp : Z).

(** Kernel dispatches, as opposed to allocation and copies. *)
Definition is_dispatch (e : Event) : bool :=
  match e with
  | EvInitCountersForExtend _ | EvInitCountersSubsequent
  | EvLaunch _ _ | EvShade _ | EvFinalize _ _ _ => true
  | _ => false
  end.

(** What the host code uses from the other translation units. *)
Record Kernels : Type := mkKernels {
  MAXPATHLENGTH : Z;
  (* CoreMesh *)
  new_CoreMesh : CoreMesh;
  CoreMesh_SetGeometry : Geometry -> CoreMesh -> CoreMesh;
  triangles_DevPtr : CoreMesh -> Z;
  (* the value of [inverted] after the statement [inverted.Inverted()] *)
  mat4_Inverted : mat4 -> mat4;
  (* RandomUInt( seed ): the number drawn and the seed left behind *)
  RandomUInt : Z -> Z * Z;
  (* contents of freshly allocated device memory of [n] words *)
  uninitialised : Z -> list Z;
  (* kernels *)
  k_InitCountersForExtend : Z -> Device -> Device;
  k_InitCountersSubsequent : Device -> Device;
  k_launch : OptixContext -> list CoreMesh -> list CoreInstance -> Z -> Device -> Device;
  k_shade : ShadeArgs -> Device -> Device;
  k_finalizeRender : Z -> Z -> Z -> float -> float -> Device -> Device
}.

Variable K : Kernels.

(** Field updates. *)
Definition set_ctx_scrsize x (c : OptixContext) : OptixContext :=
  {| ctx_scrsize := x; ctx_view := ctx_view c; ctx_pass := ctx_pass c;
     ctx_phase := ctx_phase c; ctx_geometryEpsilon := ctx_geometryEpsilon c |}.
Definition set_ctx_view x (c : OptixContext) : OptixContext :=
  {| ctx_scrsize := ctx_scrsize c; ctx_view := x; ctx_pass := ctx_pass c;
     ctx_phase := ctx_phase c; ctx_geometryEpsilon := ctx_geometryEpsilon c |}.
Definition set_ctx_pass x (c : OptixContext) : OptixContext :=
  {| ctx_scrsize := ctx_scrsize c; ctx_view := ctx_view c; ctx_pass := x;
     ctx_phase := ctx_phase c; ctx_geometryEpsilon := ctx_geometryEpsilon c |}.
Definition set_ctx_phase x (c : OptixContext) : OptixContext :=
  {| ctx_scrsize := ctx_scrsize c; ctx_view := ctx_view c; ctx_pass := ctx_pass c;
     ctx_phase := x; ctx_geometryEpsilon := ctx_geometryEpsilon c |}.
Definition set_ctx_geometryEpsilon x (c : OptixContext) : OptixContext :=
  {| ctx_scrsize := ctx_scrsize c; ctx_view := ctx_view c; ctx_pass := ctx_pass c;
     ctx_phase := ctx_phase c; ctx_geometryEpsilon := x |}.

Definition set_accData x (d : Device) : Device :=
  {| accData := x; counterData := counterData d; instDescData := instDescData d;
     dev_geometryEpsilon := dev_geometryEpsilon d; dev_clampValue := dev_clampValue d;
     scratch := scratch d |}.
Definition set_counterData x (d : Device) : Device :=
  {| accData := accData d; counterData := x; instDescData := instDescData d;
     dev_geometryEpsilon := dev_geometryEpsilon d; dev_clampValue := dev_clampValue d;
     scratch := scratch d |}.
Definition set_instDescData x (d : Device) : Device :=
  {| accData := accData d; counterData := counterData d; instDescData := x;
     dev_geometryEpsilon := dev_geometryEpsilon d; dev_clampValue := dev_clampValue d;
     scratch := scratch d |}.
Definition set_dev_geometryEpsilon x (d : Device) : Device :=
  {| accData := accData d; counterData := counterData d; instDescData := instDescData d;
     dev_geometryEpsilon := x; dev_clampValue := dev_clampValue d; scratch := scratch d |}.
Definition set_dev_clampValue x (d : Device) : Device :=
  {| accData := accData d; counterData := counterData d; instDescData := instDescData d;
     dev_geometryEpsilon := dev_geometryEpsilon d; dev_clampValue := x;
     scratch := scratch d |}.
Definition set_scratch x (d : Device) : Device :=
  {| accData := accData d; counterData := counterData d; instDescData := instDescData d;
     dev_geometryEpsilon := dev_geometryEpsilon d; dev_clampValue := dev_clampValue d;
     scratch := x |}.

Definition set_st_totalExtensionRays x (t : CoreStats) : CoreStats :=
  {| st_totalExtensionRays := x; st_totalShadowRays := st_totalShadowRays t;
     st_primaryRayCount := st_primaryRayCount t; st_bounce1RayCount := st_bounce1RayCount t;
     st_deepRayCount := st_deepRayCount t; st_totalRays := st_totalRays t;
     st_probedInstid := st_probedInstid t; st_probedTriid := st_probedTriid t;
     st_probedDist := st_probedDist t |}.
Definition set_st_totalShadowRays x (t : CoreStats) : CoreStats :=
  {| st_totalExtensionRays := st_totalExtensionRays t; st_totalShadowRays := x;
     st_primaryRayCount := st_primaryRayCount t; st_bounce1RayCount := st_bounce1RayCount t;
     st_deepRayCount := st_deepRayCount t; st_totalRays := st_totalRays t;
     st_probedInstid := st_probedInstid t; st_probedTriid := st_probedTriid t;
     st_probedDist := st_probedDist t |}.
Definition set_st_primaryRayCount x (t : CoreStats) : CoreStats :=
  {| st_totalExtensionRays := st_totalExtensionRays t;
     st_totalShadowRays := st_totalShadowRays t; st_primaryRayCount := x;
     st_bounce1RayCount := st_bounce1RayCount t; st_deepRayCount := st_deepRayCount t;
     st_totalRays := st_totalRays t; st_probedInstid := st_probedInstid t;
     st_probedTriid := st_probedTriid t; st_probedDist := st_probedDist t |}.
Definition set_st_bounce1RayCount x (t : CoreStats) : CoreStats :=
  {| st_totalExtensionRays := st_totalExtensionRays t;
     st_totalShadowRays := st_totalShadowRays t; st_primaryRayCount := st_primaryRayCount t;
     st_bounce1RayCount := x; st_deepRayCount := st_deepRayCount t;
     st_totalRays := st_totalRays t; st_probedInstid := st_probedInstid t;
     st_probedTriid := st_probedTriid t; st_probedDist := st_probedDist t |}.
Definition set_st_deepRayCount x (t : CoreStats) : CoreStats :=
  {| st_totalExtensionRays := st_totalExtensionRays t;
     st_totalShadowRays := st_totalShadowRays t; st_primaryRayCount := st_primaryRayCount t;
     st_bounce1RayCount := st_bounce1RayCount t; st_deepRayCount := x;
     st_totalRays := st_totalRays t; st_probedInstid := st_probedInstid t;
     st_probedTriid := st_probedTriid t; st_probedDist := st_probedDist t |}.
Definition set_st_totalRays x (t : CoreStats) : CoreStats :=
  {| st_totalExtensionRays := st_totalExtensionRays t;
     st_totalShadowRays := st_totalShadowRays t; st_primaryRayCount := st_primaryRayCount t;
     st_bounce1RayCount := st_bounce1RayCount t; st_deepRayCount := st_deepRayCount t;
     st_totalRays := x; st_probedInstid := st_probedInstid t;
     st_probedTriid := st_probedTriid t; st_probedDist := st_probedDist t |}.
Definition set_st_probedInstid x (t : CoreStats) : CoreStats :=
  {| st_totalExtensionRays := st_totalExtensionRays t;
     st_totalShadowRays := st_totalShadowRays t; st_primaryRayCount := st_primaryRayCount t;
     st_bounce1RayCount := st_bounce1RayCount t; st_deepRayCount := st_deepRayCount t;
     st_totalRays := st_totalRays t; st_probedInstid := x; st_probedTriid := st_probedTriid t;
     st_probedDist := st_probedDist t |}.
Definition set_st_probedTriid x (t : CoreStats) : CoreStats :=
  {| st_totalExtensionRays := st_totalExtensionRays t;
     st_totalShadowRays := st_totalShadowRays t; st_primaryRayCount := st_primaryRayCount t;
     st_bounce1RayCount := st_bounce1RayCount t; st_deepRayCount := st_deepRayCount t;
     st_totalRays := st_totalRays t; st_probedInstid := st_probedInstid t; st_probedTriid := x;
     st_probedDist := st_probedDist t |}.
Definition set_st_probedDist x (t : CoreStats) : CoreStats :=
  {| st_totalExtensionRays := st_totalExtensionRays t;
     st_totalShadowRays := st_totalShadowRays t; st_primaryRayCount := st_primaryRayCount t;
     st_bounce1RayCount := st_bounce1RayCount t; st_deepRayCount := st_deepRayCount t;
     st_totalRays := st_totalRays t; st_probedInstid := st_probedInstid t;
     st_probedTriid := st_probedTriid t; st_probedDist := x |}.

Definition set_scrwidth x (s : RenderCore) : RenderCore :=
  {| scrwidth := x; scrheight := scrheight s; scrspp := scrspp s; maxPixels := maxPixels s;
     currentSPP := currentSPP s; samplesTaken := samplesTaken s; camRNGseed := camRNGseed s;
     probePos := probePos s; renderTarget := renderTarget s;
     connectionBuffer := connectionBuffer s; accumulator := accumulator s;
     hitBuffer := hitBuffer s; pathStateBuffer := pathStateBuffer s;
     instDescBuffer := instDescBuffer s; counterHost := counterHost s; meshes := meshes s;
     instances := instances s; instancesDirty := instancesDirty s;
     topLevelDirty := topLevelDirty s; vars := vars s; coreStats := coreStats s;
     context := context s; device := device s |}.
Definition set_scrheight x (s : RenderCore) : RenderCore :=
  {| scrwidth := scrwidth s; scrheight := x; scrspp := scrspp s; maxPixels := maxPixels s;
     currentSPP := currentSPP s; samplesTaken := samplesTaken s; camRNGseed := camRNGseed s;
     probePos := probePos s; renderTarget := renderTarget s;
     connectionBuffer := connectionBuffer s; accumulator := accumulator s;
     hitBuffer := hitBuffer s; pathStateBuffer := pathStateBuffer s;
     instDescBuffer := instDescBuffer s; counterHost := counterHost s; meshes := meshes s;
     instances := instances s; instancesDirty := instancesDirty s;
     topLevelDirty := topLevelDirty s; vars := vars s; coreStats := coreStats s;
     context := context s; device := device s |}.
Definition set_scrspp x (s : RenderCore) : RenderCore :=
  {| scrwidth := scrwidth s; scrheight := scrheight s; scrspp := x; maxPixels := maxPixels s;
     currentSPP := currentSPP s; samplesTaken := samplesTaken s; camRNGseed := camRNGseed s;
     probePos := probePos s; renderTarget := renderTarget s;
     connectionBuffer := connectionBuffer s; accumulator := accumulator s;
     hitBuffer := hitBuffer s; pathStateBuffer := pathStateBuffer s;
     instDescBuffer := instDescBuffer s; counterHost := counterHost s; meshes := meshes s;
     instances := instances s; instancesDirty := instancesDirty s;
     topLevelDirty := topLevelDirty s; vars := vars s; coreStats := coreStats s;
     context := context s; device := device s |}.
Definition set_maxPixels x (s : RenderCore) : RenderCore :=
  {| scrwidth := scrwidth s; scrheight := scrheight s; scrspp := scrspp s; maxPixels := x;
     currentSPP := currentSPP s; samplesTaken := samplesTaken s; camRNGseed := camRNGseed s;
     probePos := probePos s; renderTarget := renderTarget s;
     connectionBuffer := connectionBuffer s; accumulator := accumulator s;
     hitBuffer := hitBuffer s; pathStateBuffer := pathStateBuffer s;
     instDescBuffer := instDescBuffer s; counterHost := counterHost s; meshes := meshes s;
     instances := instances s; instancesDirty := instancesDirty s;
     topLevelDirty := topLevelDirty s; vars := vars s; coreStats := coreStats s;
     context := context s; device := device s |}.
Definition set_currentSPP x (s : RenderCore) : RenderCore :=
  {| scrwidth := scrwidth s; scrheight := scrheight s; scrspp := scrspp s;
     maxPixels := maxPixels s; currentSPP := x; samplesTaken := samplesTaken s;
     camRNGseed := camRNGseed s; probePos := probePos s; renderTarget := renderTarget s;
     connectionBuffer := connectionBuffer s; accumulator := accumulator s;
     hitBuffer := hitBuffer s; pathStateBuffer := pathStateBuffer s;
     instDescBuffer := instDescBuffer s; counterHost := counterHost s; meshes := meshes s;
     instances := instances s; instancesDirty := instancesDirty s;
     topLevelDirty := topLevelDirty s; vars := vars s; coreStats := coreStats s;
     context := context s; device := device s |}.
Definition set_samplesTaken x (s : RenderCore) : RenderCore :=
  {| scrwidth := scrwidth s; scrheight := scrheight s; scrspp := scrspp s;
     maxPixels := maxPixels s; currentSPP := currentSPP s; samplesTaken := x;
     camRNGseed := camRNGseed s; probePos := probePos s; renderTarget := renderTarget s;
     connectionBuffer := connectionBuffer s; accumulator := accumulator s;
     hitBuffer := hitBuffer s; pathStateBuffer := pathStateBuffer s;
     instDescBuffer := instDescBuffer s; counterHost := counterHost s; meshes := meshes s;
     instances := instances s; instancesDirty := instancesDirty s;
     topLevelDirty := topLevelDirty s; vars := vars s; coreStats := coreStats s;
     context := context s; device := device s |}.
Definition set_camRNGseed x (s : RenderCore) : RenderCore :=
  {| scrwidth := scrwidth s; scrheight := scrheight s; scrspp := scrspp s;
     maxPixels := maxPixels s; currentSPP := currentSPP s; samplesTaken := samplesTaken s;
     camRNGseed := x; probePos := probePos s; renderTarget := renderTarget s;
     connectionBuffer := connectionBuffer s; accumulator := accumulator s;
     hitBuffer := hitBuffer s; pathStateBuffer := pathStateBuffer s;
     instDescBuffer := instDescBuffer s; counterHost := counterHost s; meshes := meshes s;
     instances := instances s; instancesDirty := instancesDirty s;
     topLevelDirty := topLevelDirty s; vars := vars s; coreStats := coreStats s;
     context := context s; device := device s |}.
Definition set_probePos x (s : RenderCore) : RenderCore :=
  {| scrwidth := scrwidth s; scrheight := scrheight s; scrspp := scrspp s;
     maxPixels := maxPixels s; currentSPP := currentSPP s; samplesTaken := samplesTaken s;
     camRNGseed := camRNGseed s; probePos := x; renderTarget := renderTarget s;
     connectionBuffer := connectionBuffer s; accumulator := accumulator s;
     hitBuffer := hitBuffer s; pathStateBuffer := pathStateBuffer s;
     instDescBuffer := instDescBuffer s; counterHost := counterHost s; meshes := meshes s;
     instances := instances s; instancesDirty := instancesDirty s;
     topLevelDirty := topLevelDirty s; vars := vars s; coreStats := coreStats s;
     context := context s; device := device s |}.
Definition set_renderTarget x (s : RenderCore) : RenderCore :=
  {| scrwidth := scrwidth s; scrheight := scrheight s; scrspp := scrspp s;
     maxPixels := maxPixels s; currentSPP := currentSPP s; samplesTaken := samplesTaken s;
     camRNGseed := camRNGseed s; probePos := probePos s; renderTarget := x;
     connectionBuffer := connectionBuffer s; accumulator := accumulator s;
     hitBuffer := hitBuffer s; pathStateBuffer := pathStateBuffer s;
     instDescBuffer := instDescBuffer s; counterHost := counterHost s; meshes := meshes s;
     instances := instances s; instancesDirty := instancesDirty s;
     topLevelDirty := topLevelDirty s; vars := vars s; coreStats := coreStats s;
     context := context s; device := device s |}.
Definition set_connectionBuffer x (s : RenderCore) : RenderCore :=
  {| scrwidth := scrwidth s; scrheight := scrheight s; scrspp := scrspp s;
     maxPixels := maxPixels s; currentSPP := currentSPP s; samplesTaken := samplesTaken s;
     camRNGseed := camRNGseed s; probePos := probePos s; renderTarget := renderTarget s;
     connectionBuffer := x; accumulator := accumulator s; hitBuffer := hitBuffer s;
     pathStateBuffer := pathStateBuffer s; instDescBuffer := instDescBuffer s;
     counterHost := counterHost s; meshes := meshes s; instances := instances s;
     instancesDirty := instancesDirty s; topLevelDirty := topLevelDirty s; vars := vars s;
     coreStats := coreStats s; context := context s; device := device s |}.
Definition set_accumulator x (s : RenderCore) : RenderCore :=
  {| scrwidth := scrwidth s; scrheight := scrheight s; scrspp := scrspp s;
     maxPixels := maxPixels s; currentSPP := currentSPP s; samplesTaken := samplesTaken s;
     camRNGseed := camRNGseed s; probePos := probePos s; renderTarget := renderTarget s;
     connectionBuffer := connectionBuffer s; accumulator := x; hitBuffer := hitBuffer s;
     pathStateBuffer := pathStateBuffer s; instDescBuffer := instDescBuffer s;
     counterHost := counterHost s; meshes := meshes s; instances := instances s;
     instancesDirty := instancesDirty s; topLevelDirty := topLevelDirty s; vars := vars s;
     coreStats := coreStats s; context := context s; device := device s |}.
Definition set_hitBuffer x (s : RenderCore) : RenderCore :=
  {| scrwidth := scrwidth s; scrheight := scrheight s; scrspp := scrspp s;
     maxPixels := maxPixels s; currentSPP := currentSPP s; samplesTaken := samplesTaken s;
     camRNGseed := camRNGseed s; probePos := probePos s; renderTarget := renderTarget s;
     connectionBuffer := connectionBuffer s; accumulator := accumulator s; hitBuffer := x;
     pathStateBuffer := pathStateBuffer s; instDescBuffer := instDescBuffer s;
     counterHost := counterHost s; meshes := meshes s; instances := instances s;
     instancesDirty := instancesDirty s; topLevelDirty := topLevelDirty s; vars := vars s;
     coreStats := coreStats s; context := context s; device := device s |}.
Definition set_pathStateBuffer x (s : RenderCore) : RenderCore :=
  {| scrwidth := scrwidth s; scrheight := scrheight s; scrspp := scrspp s;
     maxPixels := maxPixels s; currentSPP := currentSPP s; samplesTaken := samplesTaken s;
     camRNGseed := camRNGseed s; probePos := probePos s; renderTarget := renderTarget s;
     connectionBuffer := connectionBuffer s; accumulator := accumulator s;
     hitBuffer := hitBuffer s; pathStateBuffer := x; instDescBuffer := instDescBuffer s;
     counterHost := counterHost s; meshes := meshes s; instances := instances s;
     instancesDirty := instancesDirty s; topLevelDirty := topLevelDirty s; vars := vars s;
     coreStats := coreStats s; context := context s; device := device s |}.
Definition set_instDescBuffer x (s : RenderCore) : RenderCore :=
  {| scrwidth := scrwidth s; scrheight := scrheight s; scrspp := scrspp s;
     maxPixels := maxPixels s; currentSPP := currentSPP s; samplesTaken := samplesTaken s;
     camRNGseed := camRNGseed s; probePos := probePos s; renderTarget := renderTarget s;
     connectionBuffer := connectionBuffer s; accumulator := accumulator s;
     hitBuffer := hitBuffer s; pathStateBuffer := pathStateBuffer s; instDescBuffer := x;
     counterHost := counterHost s; meshes := meshes s; instances := instances s;
     instancesDirty := instancesDirty s; topLevelDirty := topLevelDirty s; vars := vars s;
     coreStats := coreStats s; context := context s; device := device s |}.
Definition set_counterHost x (s : RenderCore) : RenderCore :=
  {| scrwidth := scrwidth s; scrheight := scrheight s; scrspp := scrspp s;
     maxPixels := maxPixels s; currentSPP := currentSPP s; samplesTaken := samplesTaken s;
     camRNGseed := camRNGseed s; probePos := probePos s; renderTarget := renderTarget s;
     connectionBuffer := connectionBuffer s; accumulator := accumulator s;
     hitBuffer := hitBuffer s; pathStateBuffer := pathStateBuffer s;
     instDescBuffer := instDescBuffer s; counterHost := x; meshes := meshes s;
     instances := instances s; instancesDirty := instancesDirty s;
     topLevelDirty := topLevelDirty s; vars := vars s; coreStats := coreStats s;
     context := context s; device := device s |}.
Definition set_meshes x (s : RenderCore) : RenderCore :=
  {| scrwidth := scrwidth s; scrheight := scrheight s; scrspp := scrspp s;
     maxPixels := maxPixels s; currentSPP := currentSPP s; samplesTaken := samplesTaken s;
     camRNGseed := camRNGseed s; probePos := probePos s; renderTarget := renderTarget s;
     connectionBuffer := connectionBuffer s; accumulator := accumulator s;
     hitBuffer := hitBuffer s; pathStateBuffer := pathStateBuffer s;
     instDescBuffer := instDescBuffer s; counterHost := counterHost s; meshes := x;
     instances := instances s; instancesDirty := instancesDirty s;
     topLevelDirty := topLevelDirty s; vars := vars s; coreStats := coreStats s;
     context := context s; device := device s |}.
Definition set_instances x (s : RenderCore) : RenderCore :=
  {| scrwidth := scrwidth s; scrheight := scrheight s; scrspp := scrspp s;
     maxPixels := maxPixels s; currentSPP := currentSPP s; samplesTaken := samplesTaken s;
     camRNGseed := camRNGseed s; probePos := probePos s; renderTarget := renderTarget s;
     connectionBuffer := connectionBuffer s; accumulator := accumulator s;
     hitBuffer := hitBuffer s; pathStateBuffer := pathStateBuffer s;
     instDescBuffer := instDescBuffer s; counterHost := counterHost s; meshes := meshes s;
     instances := x; instancesDirty := instancesDirty s; topLevelDirty := topLevelDirty s;
     vars := vars s; coreStats := coreStats s; context := context s; device := device s |}.
Definition set_instancesDirty x (s : RenderCore) : RenderCore :=
  {| scrwidth := scrwidth s; scrheight := scrheight s; scrspp := scrspp s;
     maxPixels := maxPixels s; currentSPP := currentSPP s; samplesTaken := samplesTaken s;
     camRNGseed := camRNGseed s; probePos := probePos s; renderTarget := renderTarget s;
     connectionBuffer := connectionBuffer s; accumulator := accumulator s;
     hitBuffer := hitBuffer s; pathStateBuffer := pathStateBuffer s;
     instDescBuffer := instDescBuffer s; counterHost := counterHost s; meshes := meshes s;
     instances := instances s; instancesDirty := x; topLevelDirty := topLevelDirty s;
     vars := vars s; coreStats := coreStats s; context := context s; device := device s |}.
Definition set_topLevelDirty x (s : RenderCore) : RenderCore :=
  {| scrwidth := scrwidth s; scrheight := scrheight s; scrspp := scrspp s;
     maxPixels := maxPixels s; currentSPP := currentSPP s; samplesTaken := samplesTaken s;
     camRNGseed := camRNGseed s; probePos := probePos s; renderTarget := renderTarget s;
     connectionBuffer := connectionBuffer s; accumulator := accumulator s;
     hitBuffer := hitBuffer s; pathStateBuffer := pathStateBuffer s;
     instDescBuffer := instDescBuffer s; counterHost := counterHost s; meshes := meshes s;
     instances := instances s; instancesDirty := instancesDirty s; topLevelDirty := x;
     vars := vars s; coreStats := coreStats s; context := context s; device := device s |}.
Definition set_vars x (s : RenderCore) : RenderCore :=
  {| scrwidth := scrwidth s; scrheight := scrheight s; scrspp := scrspp s;
     maxPixels := maxPixels s; currentSPP := currentSPP s; samplesTaken := samplesTaken s;
     camRNGseed := camRNGseed s; probePos := probePos s; renderTarget := renderTarget s;
     connectionBuffer := connectionBuffer s; accumulator := accumulator s;
     hitBuffer := hitBuffer s; pathStateBuffer := pathStateBuffer s;
     instDescBuffer := instDescBuffer s; counterHost := counterHost s; meshes := meshes s;
     instances := instances s; instancesDirty := instancesDirty s;
     topLevelDirty := topLevelDirty s; vars := x; coreStats := coreStats s;
     context := context s; device := device s |}.
Definition set_coreStats x (s : RenderCore) : RenderCore :=
  {| scrwidth := scrwidth s; scrheight := scrheight s; scrspp := scrspp s;
     maxPixels := maxPixels s; currentSPP := currentSPP s; samplesTaken := samplesTaken s;
     camRNGseed := camRNGseed s; probePos := probePos s; renderTarget := renderTarget s;
     connectionBuffer := connectionBuffer s; accumulator := accumulator s;
     hitBuffer := hitBuffer s; pathStateBuffer := pathStateBuffer s;
     instDescBuffer := instDescBuffer s; counterHost := counterHost s; meshes := meshes s;
     instances := instances s; instancesDirty := instancesDirty s;
     topLevelDirty := topLevelDirty s; vars := vars s; coreStats := x; context := context s;
     device := device s |}.
Definition set_context x (s : RenderCore) : RenderCore :=
  {| scrwidth := scrwidth s; scrheight := scrheight s; scrspp := scrspp s;
     maxPixels := maxPixels s; currentSPP := currentSPP s; samplesTaken := samplesTaken s;
     camRNGseed := camRNGseed s; probePos := probePos s; renderTarget := renderTarget s;
     connectionBuffer := connectionBuffer s; accumulator := accumulator s;
     hitBuffer := hitBuffer s; pathStateBuffer := pathStateBuffer s;
     instDescBuffer := instDescBuffer s; counterHost := counterHost s; meshes := meshes s;
     instances := instances s; instancesDirty := instancesDirty s;
     topLevelDirty := topLevelDirty s; vars := vars s; coreStats := coreStats s; context := x;
     device := device s |}.
Definition set_device x (s : RenderCore) : RenderCore :=
  {| scrwidth := scrwidth s; scrheight := scrheight s; scrspp := scrspp s;
     maxPixels := maxPixels s; currentSPP := currentSPP s; samplesTaken := samplesTaken s;
     camRNGseed := camRNGseed s; probePos := probePos s; renderTarget := renderTarget s;
     connectionBuffer := connectionBuffer s; accumulator := accumulator s;
     hitBuffer := hitBuffer s; pathStateBuffer := pathStateBuffer s;
     instDescBuffer := instDescBuffer s; counterHost := counterHost s; meshes := meshes s;
     instances := instances s; instancesDirty := instancesDirty s;
     topLevelDirty := topLevelDirty s; vars := vars s; coreStats := coreStats s;
     context := context s; device := x |}.

(** ** The monad of the method bodies *)

Definition M (A : Type) : Type :=
  RenderCore -> outcome (A * RenderCore * list Event).

Definition ret {A : Type} (a : A) : M A := fun s => Done (a, s, []).

Definition bind {A B : Type} (m : M A) (f : A -> M B) : M B :=
  fun s =>
    match m s with
    | Done (a, s1, l1) =>
        match f a s1 with
        | Done (b, s2, l2) => Done (b, s2, l1 ++ l2)
        | Undefined => Undefined
        end
    | Undefined => Undefined
    end.

(** The object the method runs on. *)
Definition this : M RenderCore := fun s => Done (s, s, []).
Definition modify (f : RenderCore -> RenderCore) : M unit :=
  fun s => Done (tt, f s, []).
Definition emit (e : Event) : M unit := fun s => Done (tt, s, [e]).
Definition undefined {A : Type} : M A := fun _ => Undefined.
Definition when (b : bool) (m : M unit) : M unit := if b then m else ret tt.

(** Dereferencing a pointer or indexing a vector. *)
Definition deref {A : Type} (p : option A) : M A :=
  match p with Some a => ret a | None => undefined end.

#[global] Instance M_ret : MRet M := @ret.
#[global] Instance M_bind : MBind M := fun A B f m => bind m f.

Definition update_device (f : Device -> Device) : M unit :=
  modify (fun s => set_device (f (device s)) s).
Definition update_context (f : OptixContext -> OptixContext) : M unit :=
  modify (fun s => set_context (f (context s)) s).
Definition update_stats (f : CoreStats -> CoreStats) : M unit :=
  modify (fun s => set_coreStats (f (coreStats s)) s).

(** [instances[idx]->...]: the element is read, changed and stored back. *)
Definition update_instance (idx : Z) (f : CoreInstance -> CoreInstance) : M unit :=
  s ← this;
  i ← deref (vec_at (instances s) idx);
  modify (set_instances (<[Z.to_nat idx := f i]> (instances s))).

(** ** RenderCore::SetProbePos *)
Definition SetProbePos (pos : Z * Z) : M unit := modify (set_probePos pos).

(** [accumulator->Clear( ON_DEVICE )]: the device memory of the buffer is set
    to zero. *)
Definition accumulator_Clear : M unit :=
  s ← this;
  n ← deref (accumulator s);
  emit (EvClear Accumulator);;
  update_device (set_accData (replicate (Z.to_nat (4 * n)) 0)).

(** ** RenderCore::SetTarget *)

(** The test of line 180. *)
Definition needs_reallocate (s : RenderCore) (spp : Z) : bool :=
  (uint (scrwidth s * scrheight s) >? maxPixels s) || negb (spp =? currentSPP s).

(** Lines 192-199: the four screen buffers are deleted and allocated anew. *)
Definition reallocate_buffers : M unit :=
  emit (EvDelete ConnectionBuffer);;
  emit (EvDelete Accumulator);;
  emit (EvDelete HitBuffer);;
  emit (EvDelete PathStateBuffer);;
  s ← this;
  let n_conn := uint (maxPixels s * scrspp s * 3 * MAXPATHLENGTH K) in
  let n_acc := uint (maxPixels s * 2) in
  let n_hit := uint (maxPixels s * scrspp s) in
  let n_path := uint (maxPixels s * scrspp s * 3) in
  emit (EvNew ConnectionBuffer n_conn);;
  modify (set_connectionBuffer (Some n_conn));;
  emit (EvNew Accumulator n_acc);;
  modify (set_accumulator (Some n_acc));;
  update_device (set_accData (uninitialised K (4 * n_acc)));;
  emit (EvNew HitBuffer n_hit);;
  modify (set_hitBuffer (Some n_hit));;
  emit (EvNew PathStateBuffer n_path);;
  modify (set_pathStateBuffer (Some n_path)).

Definition SetTarget (target : GLTexture) (spp : Z) : M unit :=
  modify (set_scrwidth (width target));;
  modify (set_scrheight (height target));;
  modify (set_scrspp spp);;
  modify (set_renderTarget (Some target));;
  s ← this;
  let reallocate := needs_reallocate s spp in
  when reallocate (
    modify (fun s => set_maxPixels (uint (scrwidth s * scrheight s)) s);;
    modify (fun s => set_maxPixels (uint (maxPixels s + Z.shiftr (maxPixels s) 4)) s);;
    modify (set_currentSPP spp));;
  s ← this;
  update_context (set_ctx_scrsize (scrwidth s, scrheight s, scrspp s));;
  when reallocate reallocate_buffers;;
  accumulator_Clear;;
  modify (set_samplesTaken 0).

(** ** RenderCore::SetGeometry *)
Definition SetGeometry (meshIdx : Z) (g : Geometry) : M unit :=
  s ← this;
  when (size_t_of_int meshIdx >=? Z.of_nat (length (meshes s)))
    (modify (set_meshes (meshes s ++ [new_CoreMesh K])));;
  s ← this;
  m ← deref (vec_at (meshes s) meshIdx);
  modify (set_meshes (<[Z.to_nat meshIdx := CoreMesh_SetGeometry K g m]> (meshes s))).

(** ** RenderCore::SetInstance *)
Definition SetInstance (instanceIdx meshIdx : Z) (matrix : mat4) : M unit :=
  s ← this;
  when (size_t_of_int instanceIdx >=? Z.of_nat (length (instances s))) (
    modify (set_instances (instances s ++ [new_CoreInstance]));;
    (* create a geometry instance for the mesh, in a geometry group *)
    s ← this;
    _ ← deref (vec_at (meshes s) meshIdx);
    update_instance instanceIdx (set_geometryInstance (Some (meshIdx, instanceIdx)));;
    (* set a transform for the geometry group *)
    update_instance instanceIdx
      (set_transform (Some (mkTransform mat4_Identity mat4_Identity))));;
  (* update the matrices for the transform *)
  let inverted := mat4_Inverted K matrix in
  update_instance instanceIdx (fun i =>
    match transform i with
    | Some _ => set_transform (Some (mkTransform matrix inverted)) i
    | None => i
    end);;
  update_instance instanceIdx (set_mesh meshIdx);;
  (* mark the toplevel as dirty *)
  modify (set_topLevelDirty true).

(** ** RenderCore::Setting *)
Definition Setting (name : string) (value : float) : M unit :=
  if String.eqb name "epsilon" then
    s ← this;
    when (float_ne (geometryEpsilon (vars s)) value) (
      modify (fun s => set_vars (set_geometryEpsilon value (vars s)) s);;
      update_device (set_dev_geometryEpsilon (Some value));;
      update_context (set_ctx_geometryEpsilon (Some value)))
  else if String.eqb name "clampValue" then
    s ← this;
    when (float_ne (clampValue (vars s)) value) (
      modify (fun s => set_vars (set_clampValue value (vars s)) s);;
      update_device (set_dev_clampValue value))
  else ret tt.

(** ** RenderCore::Render *)

(** Lines 446-451: clean the accumulator, if requested. *)
Definition Render_reset (converge : Convergence) : M unit :=
  match converge with
  | Restart =>
      accumulator_Clear;;
      modify (set_samplesTaken 0);;
      modify (set_camRNGseed 0x12345678)
  | Continue => ret tt
  end.

(** The body of the loop of lines 461-476 for one instance. *)
Definition instanceDesc (ms : list CoreMesh) (i : CoreInstance) : option CoreInstanceDesc :=
  m ← vec_at ms (mesh i);
  Some {| triangles := triangles_DevPtr K m;
          invTransform := match transform i with
                          | Some t => t_inverse t
                          | None => mat4_Identity
                          end |}.

Definition instDescArray (ms : list CoreMesh) (insts : list CoreInstance)
  : option (list CoreInstanceDesc) :=
  mapM (instanceDesc ms) insts.

(** Lines 456-488: update the instance descriptor array on the device.  The
    assignment that would clear [instancesDirty] is commented out in the
    source (line 487). *)
Definition Render_instances : M unit :=
  s ← this;
  when (instancesDirty s) (
    arr ← deref (instDescArray (meshes s) (instances s));
    let n := Z.of_nat (length (instances s)) in
    when (match instDescBuffer s with
          | None => true
          | Some (size, _) => size <? n
          end) (
      emit (EvDelete InstDescBuffer);;
      emit (EvNew InstDescBuffer (n * 2));;
      modify (set_instDescBuffer (Some (n * 2, replicate (Z.to_nat (n * 2)) None))));;
    s ← this;
    b ← deref (instDescBuffer s);
    (* memcpy into the host copy, then CopyToDevice *)
    let host := (Some <$> arr) ++ drop (length arr) (snd b) in
    modify (set_instDescBuffer (Some (fst b, host)));;
    emit (EvCopyToDevice InstDescBuffer);;
    update_device (set_instDescData host)).

(** Lines 490-502: statistics, context variables, the initial path count. *)
Definition Render_setup (view : ViewPyramid) : M Z :=
  update_stats (set_st_totalShadowRays 0);;
  update_stats (set_st_totalExtensionRays 0);;
  update_context (set_ctx_view (Some view));;
  s ← this;
  update_context (set_ctx_pass (samplesTaken s));;
  update_stats (set_st_deepRayCount 0);;
  ret (uint (scrwidth s * scrheight s * scrspp s)).

(** [counterBuffer->CopyToHost()] *)
Definition counterBuffer_CopyToHost : M unit :=
  s ← this;
  emit (EvCopyToHost (counterData (device s)));;
  modify (set_counterHost (counterData (device s))).

(** [context->launch( 0, size )] *)
Definition context_launch (size : Z) : M unit :=
  s ← this;
  emit (EvLaunch (ctx_phase (context s)) size);;
  update_device (k_launch K (context s) (meshes s) (instances s) size).

(** The arguments of the call of [shade] in lines 531-535; [R0] is the number
    [RandomUInt( camRNGseed )] returns.  [probePixelIdx] is an [int]
    parameter, computed in unsigned arithmetic from a probe position that
    can be negative: it is recorded as the [int] it converts to.  The other
    [int] parameters ([pathCount], [pass], [w], [h]) are recorded as the
    unsigned values handed over, which the conversion changes from 2^31 on
    only. *)
Definition shade_args (view : ViewPyramid) (pathLength pathCount R0 : Z)
    (s : RenderCore) : ShadeArgs :=
  {| sa_pathCount := pathCount;
     sa_stride := uint (scrwidth s * scrheight s * scrspp s);
     sa_R0 := R0;
     sa_pass := samplesTaken s;
     sa_probePixelIdx :=
       int_of_uint (uint (fst (probePos s) + scrwidth s * snd (probePos s)));
     sa_pathLength := pathLength;
     sa_w := scrwidth s;
     sa_h := scrheight s;
     sa_view := view |}.

(** Lines 506-539: one iteration of the loop. The result is the value of
    [pathCount] and of [counters] at the end of the iteration. *)
Definition bounce (view : ViewPyramid) (pathLength pathCount : Z) : M (Z * Counters) :=
  (* generate / extend *)
  (if pathLength =? 1 then
     update_context (set_ctx_phase 0);;
     update_stats (set_st_primaryRayCount pathCount);;
     emit (EvInitCountersForExtend pathCount);;
     update_device (k_InitCountersForExtend K pathCount);;
     context_launch pathCount
   else
     update_context (set_ctx_phase 1);;
     (if pathLength =? 2
      then update_stats (set_st_bounce1RayCount pathCount)
      else update_stats (fun t => set_st_deepRayCount (uint (st_deepRayCount t + pathCount)) t));;
     counterBuffer_CopyToHost;;
     emit EvInitCountersSubsequent;;
     update_device (k_InitCountersSubsequent K);;
     context_launch pathCount);;
  (* shade *)
  s ← this;
  _ ← deref (accumulator s);
  _ ← deref (pathStateBuffer s);
  _ ← deref (hitBuffer s);
  _ ← deref (connectionBuffer s);
  let r := RandomUInt K (camRNGseed s) in
  modify (set_camRNGseed (snd r));;
  let args := shade_args view pathLength pathCount (fst r) s in
  emit (EvShade args);;
  update_device (k_shade K args);;
  counterBuffer_CopyToHost;;
  s ← this;
  let counters := counterHost s in
  ret (extensionRays counters, counters).

(** The loop [for (pathLength = 1; pathLength <= 3; pathLength++)], over the
    values [pathLength] takes.  [counters] is the local declared without an
    initial value before the loop. *)
Fixpoint bounce_loop (view : ViewPyramid) (pathLengths : list Z)
    (pathCount : Z) (counters : option Counters) : M (option Counters) :=
  match pathLengths with
  | [] => ret counters
  | pathLength :: rest =>
      r ← bounce view pathLength pathCount;
      bounce_loop view rest (fst r) (Some (snd r))
  end.

(** Lines 541-548: connect to light sources, gather statistics. *)
Definition Render_connect (counters : option Counters) : M Counters :=
  update_context (set_ctx_phase 2);;
  c ← deref counters;
  context_launch (shadowRays c);;
  update_stats (set_st_totalShadowRays (shadowRays c));;
  update_stats (set_st_totalExtensionRays (totalExtensionRays c));;
  ret c.

(** Lines 549-561: present the accumulator, finalize the statistics. *)
Definition Render_present (brightness contrast : float) (c : Counters) : M unit :=
  modify (fun s => set_samplesTaken (uint (samplesTaken s + scrspp s)) s);;
  s ← this;
  _ ← deref (accumulator s);
  emit (EvFinalize (scrwidth s) (scrheight s) (samplesTaken s));;
  update_device (k_finalizeRender K (scrwidth s) (scrheight s) (samplesTaken s)
                   brightness contrast);;
  update_stats (fun t =>
    set_st_totalRays (uint (st_totalExtensionRays t + st_totalShadowRays t)) t);;
  update_stats (set_st_probedInstid (probedInstid c));;
  update_stats (set_st_probedTriid (probedTriid c));;
  update_stats (set_st_probedDist (probedDist c)).

(** The frame after the optional reset. *)
Definition Render_frame (view : ViewPyramid) (brightness contrast : float) : M unit :=
  Render_instances;;
  pathCount ← Render_setup view;
  counters ← bounce_loop view (seqZ 1 3) pathCount None;
  c ← Render_connect counters;
  Render_present brightness contrast c.

Definition Render (view : ViewPyramid) (converge : Convergence)
    (brightness contrast : float) : M unit :=
  Render_reset converge;;
  Render_frame view brightness contrast.

(** ** Sequences of calls *)

(** The methods of the host interface that touch the members above.  (The
    methods that replace textures, materials, lights and the sky dome write
    buffers of their own and none of these members.) *)
Inductive Call : Type :=
| CallSetProbePos (pos : Z * Z)
| CallSetTarget (target : GLTexture) (spp : Z)
| CallSetGeometry (meshIdx : Z) (g : Geometry)
| CallSetInstance (instanceIdx meshIdx : Z) (matrix : mat4)
| CallSetting (name : string) (value : float)
| CallRender (view : ViewPyramid) (converge : Convergence) (brightness contrast : float).

Definition call (c : Call) : M unit :=
  match c with
  | CallSetProbePos pos => SetProbePos pos
  | CallSetTarget target spp => SetTarget target spp
  | CallSetGeometry meshIdx g => SetGeometry meshIdx g
  | CallSetInstance instanceIdx meshIdx matrix => SetInstance instanceIdx meshIdx matrix
  | CallSetting name value => Setting name value
  | CallRender view converge brightness contrast =>
      Render view converge brightness contrast
  end.

Fixpoint run (cs : list Call) : M unit :=
  match cs with
  | [] => ret tt
  | c :: rest => call c;; run rest
  end.

(** The state and the events of a computation that ran to its end. *)
Definition final {A : Type} (o : outcome (A * RenderCore * list Event)) : option RenderCore :=
  match o with Done (_, s, _) => Some s | Undefined => None end.
Definition events {A : Type} (o : outcome (A * RenderCore * list Event)) : list Event :=
  match o with Done (_, _, l) => l | Undefined => [] end.

End Core.

(** ** RenderCore::UpdateToplevel

    The children of [topLevelGroup] are handles of transform nodes; [None]
    is a child that is not set. *)

(** [setChildCount]: the array is cut or extended by unset children. *)
Definition setChildCount (n : nat) (children : list (option Transform))
  : list (option Transform) :=
  resize n None children.

Definition setChild (i : nat) (t : option Transform)
    (children : list (option Transform)) : list (option Transform) :=
  <[i := t]> children.

(** The loop of line 264, from index [i] on: [rest] are the instances
    [instances[i]], [instances[i+1]], ... *)
Fixpoint set_children (i : nat) (rest : list CoreInstance)
    (children : list (option Transform)) : list (option Transform) :=
  match rest with
  | [] => children
  | inst :: rest' => set_children (S i) rest' (setChild i (transform inst) children)
  end.

Definition UpdateToplevel (instances : list CoreInstance)
    (children : list (option Transform)) : list (option Transform) :=
  let children :=
    if negb (length children =? length instances)%nat
    then setChildCount (length instances) children
    else children in
  set_children 0 instances children.

(** ** RenderCore::SetTextures, RenderCore::SyncStorageType *)

Inductive TexelStorage : Type := ARGB32 | ARGB128 | NRM32.

Definition TexelStorage_eqb (a b : TexelStorage) : bool :=
  match a, b with
  | ARGB32, ARGB32 | ARGB128, ARGB128 | NRM32, NRM32 => true
  | _, _ => false
  end.

(** A texture descriptor: the texels are 32-bit words, where the host
    texture keeps them. *)
Record CoreTexDesc : Type := mkTexDesc {
  storage : TexelStorage;
  pixelCount : Z;
  idata : list Z;
  firstPixel : Z
}.

Definition set_firstPixel (x : Z) (d : CoreTexDesc) : CoreTexDesc :=
  {| storage := storage d; pixelCount := pixelCount d; idata := idata d;
     firstPixel := x |}.

(** The 32-bit words of one element of the texel buffer of a storage type:
    [CoreBuffer<uint>] for ARGB32 and NRM32, [CoreBuffer<float4>] for
    ARGB128. *)
Definition words_per_texel (st : TexelStorage) : Z :=
  match st with ARGB128 => 4 | _ => 1 end.

(** A texel buffer: its element count and the words of its host copy;
    [None] is a word never written. *)
Record TexelBuffer : Type := mkTexelBuffer {
  tb_size : Z;
  tb_host : list (option Z)
}.

(** The members the texture methods write. *)
Record TextureState : Type := mkTextureState {
  textureCount : Z;
  texDescs : option (list CoreTexDesc);
  texel32Buffer : option TexelBuffer;
  texel128Buffer : option TexelBuffer;
  normal32Buffer : option TexelBuffer;
  argb32TexelCount : Z;
  argb128TexelCount : Z;
  nrm32TexelCount : Z
}.

(** The first loop of [SyncStorageType] (line 301): the texels of the
    textures of one storage type, summed in [uint]. *)
Fixpoint count_texels (st : TexelStorage) (descs : list CoreTexDesc) (texelTotal : Z) : Z :=
  match descs with
  | [] => texelTotal
  | d :: rest =>
      count_texels st rest
        (if TexelStorage_eqb (storage d) st
         then uint (texelTotal + pixelCount d) else texelTotal)
  end.

(** [memcpy( dst + off, src, n * sizeof( uint ) )] on words: undefined when
    it reads past the source or writes past the destination. *)
Definition memcpy_words (dst : list (option Z)) (off : Z) (src : list Z) (n : Z)
  : option (list (option Z)) :=
  if (0 <=? off) && (0 <=? n) && (n <=? Z.of_nat (length src))
     && (off + n <=? Z.of_nat (length dst))
  then Some (take (Z.to_nat off) dst ++ (Some <$> take (Z.to_nat n) src)
             ++ drop (Z.to_nat (off + n)) dst)
  else None.

(** The second loop (lines 325-337): the texels of each texture of the
    storage type are copied behind those of the textures before it, and the
    texture is told where they start.  The destination is [texelTotal]
    elements into the buffer, the copy is [pixelCount] words long. *)
Fixpoint copy_texels (st : TexelStorage) (descs : list CoreTexDesc) (texelTotal : Z)
    (host : list (option Z)) : option (list CoreTexDesc * list (option Z)) :=
  match descs with
  | [] => Some ([], host)
  | d :: rest =>
      if TexelStorage_eqb (storage d) st then
        host' ← memcpy_words host (words_per_texel st * texelTotal) (idata d) (pixelCount d);
        r ← copy_texels st rest (uint (texelTotal + pixelCount d)) host';
        Some (set_firstPixel texelTotal d :: fst r, snd r)
      else
        r ← copy_texels st rest texelTotal host;
        Some (d :: fst r, snd r)
  end.

(** The descriptors [texDescs[0]] ... [texDescs[textureCount - 1]] the loops
    of [SyncStorageType] visit: none when the count is not positive, none to
    read ([None]) when there are fewer descriptors than that or [texDescs] is
    null. *)
Definition visited_textures (t : TextureState) : option (list CoreTexDesc) :=
  if textureCount t <=? 0 then Some []
  else
    l ← texDescs t;
    if textureCount t <=? Z.of_nat (length l)
    then Some (take (Z.to_nat (textureCount t)) l)
    else None.

(** [SyncStorageType]; [None] is undefined behaviour (a descriptor that is
    not there, a copy outside its buffers). *)
Definition SyncStorageType (st : TexelStorage) (t : TextureState) : option TextureState :=
  descs ← visited_textures t;
  let texelTotal := Z.max 16 (count_texels st descs 0) in
  let fresh := replicate (Z.to_nat (words_per_texel st * texelTotal)) None in
  r ← copy_texels st descs 0 fresh;
  let buffer := Some (mkTexelBuffer texelTotal (snd r)) in
  let descs' := (fun l => fst r ++ drop (Z.to_nat (textureCount t)) l) <$> texDescs t in
  Some
    match st with
    | ARGB32 =>
        {| textureCount := textureCount t; texDescs := descs';
           texel32Buffer := buffer; texel128Buffer := texel128Buffer t;
           normal32Buffer := normal32Buffer t;
           argb32TexelCount := texelTotal; argb128TexelCount := argb128TexelCount t;
           nrm32TexelCount := nrm32TexelCount t |}
    | ARGB128 =>
        {| textureCount := textureCount t; texDescs := descs';
           texel32Buffer := texel32Buffer t; texel128Buffer := buffer;
           normal32Buffer := normal32Buffer t;
           argb32TexelCount := argb32TexelCount t; argb128TexelCount := texelTotal;
           nrm32TexelCount := nrm32TexelCount t |}
    | NRM32 =>
        {| textureCount := textureCount t; texDescs := descs';
           texel32Buffer := texel32Buffer t; texel128Buffer := texel128Buffer t;
           normal32Buffer := buffer;
           argb32TexelCount := argb32TexelCount t; argb128TexelCount := argb128TexelCount t;
           nrm32TexelCount := texelTotal |}
    end.

(** [SetTextures( tex, textures )]: [tex] is the caller's array, of which
    [textures] entries are copied. *)
Definition SetTextures (tex : list CoreTexDesc) (textures : Z) (t : TextureState)
  : option TextureState :=
  let t0 :=
    {| textureCount := textures; texDescs := None;
       texel32Buffer := texel32Buffer t; texel128Buffer := texel128Buffer t;
       normal32Buffer := normal32Buffer t;
       argb32TexelCount := argb32TexelCount t; argb128TexelCount := argb128TexelCount t;
       nrm32TexelCount := nrm32TexelCount t |} in
  if textures =? 0 then Some t0
  else if (0 <=? textures) && (textures <=? Z.of_nat (length tex)) then
    let t1 :=
      {| textureCount := textures; texDescs := Some (take (Z.to_nat textures) tex);
         texel32Buffer := texel32Buffer t; texel128Buffer := texel128Buffer t;
         normal32Buffer := normal32Buffer t;
         argb32TexelCount := argb32TexelCount t; argb128TexelCount := argb128TexelCount t;
         nrm32TexelCount := nrm32TexelCount t |} in
    t2 ← SyncStorageType ARGB32 t1;
    t3 ← SyncStorageType ARGB128 t2;
    SyncStorageType NRM32 t3
  else None.

(** ** RenderCore::SetMaterials *)

(** The texture addresses of a material; what else it holds is [mat_other].
    The struct is declared outside the sources: an address is kept as the
    number that is assigned to it. *)
Record CoreMaterial : Type := mkMaterial {
  texaddr0 : Z; texaddr1 : Z; texaddr2 : Z;
  nmapaddr0 : Z; nmapaddr1 : Z; nmapaddr2 : Z;
  smapaddr : Z; rmapaddr : Z; cmapaddr : Z; amapaddr : Z;
  mat_other : Z
}.

(** [CoreMaterialEx]: the indices of the eleven textures of a material, -1
    for none. *)
Record CoreMaterialEx : Type := mkMaterialEx { texture : list Z }.

(** [if (e.texture[k] != -1) field = texDescs[e.texture[k]].firstPixel] *)
Definition resolve_texture (descs : option (list CoreTexDesc)) (e : CoreMaterialEx)
    (k : nat) (field : Z) : option Z :=
  idx ← texture e !! k;
  if idx =? -1 then Some field
  else
    l ← descs;
    d ← vec_at l idx;
    Some (firstPixel d).

(** The body of the loop of lines 357-372. *)
Definition resolve_material (descs : option (list CoreTexDesc))
    (m : CoreMaterial) (e : CoreMaterialEx) : option CoreMaterial :=
  a0 ← resolve_texture descs e 0 (texaddr0 m);
  a1 ← resolve_texture descs e 1 (texaddr1 m);
  a2 ← resolve_texture descs e 2 (texaddr2 m);
  n0 ← resolve_texture descs e 3 (nmapaddr0 m);
  n1 ← resolve_texture descs e 4 (nmapaddr1 m);
  n2 ← resolve_texture descs e 5 (nmapaddr2 m);
  sm ← resolve_texture descs e 6 (smapaddr m);
  rm ← resolve_texture descs e 7 (rmapaddr m);
  cm ← resolve_texture descs e 9 (cmapaddr m);
  am ← resolve_texture descs e 10 (amapaddr m);
  Some {| texaddr0 := a0; texaddr1 := a1; texaddr2 := a2;
          nmapaddr0 := n0; nmapaddr1 := n1; nmapaddr2 := n2;
          smapaddr := sm; rmapaddr := rm; cmapaddr := cm; amapaddr := am;
          mat_other := mat_other m |}.

Fixpoint resolve_materials (descs : option (list CoreTexDesc))
    (mats : list CoreMaterial) (matEx : list CoreMaterialEx)
  : option (list CoreMaterial) :=
  match mats with
  | [] => Some []
  | m :: mats' =>
      match matEx with
      | [] => None
      | e :: matEx' =>
          m' ← resolve_material descs m e;
          rest ← resolve_materials descs mats' matEx';
          Some (m' :: rest)
      end
  end.

(** [SetMaterials( mat, matEx, materialCount )]: the new contents of
    [hostMaterialBuffer]. *)
Definition SetMaterials (descs : option (list CoreTexDesc))
    (mat : list CoreMaterial) (matEx : list CoreMaterialEx) (materialCount : Z)
  : option (list CoreMaterial) :=
  if (0 <=? materialCount) && (materialCount <=? Z.of_nat (length mat))
  then resolve_materials descs (take (Z.to_nat materialCount) mat) matEx
  else None.

(** The texels of the textures of one storage type. *)
Fixpoint texels (st : TexelStorage) (descs : list CoreTexDesc) : Z :=
  match descs with
  | [] => 0
  | d :: rest =>
      (if TexelStorage_eqb (storage d) st then pixelCount d else 0) + texels st rest
  end.

(** A texture whose texels can be copied: [idata] holds [pixelCount] words. *)
Definition texture_ok (d : CoreTexDesc) : Prop :=
  0 <= pixelCount d <= Z.of_nat (length (idata d)).

Definition buffer_of (st : TexelStorage) (t : TextureState) : option TexelBuffer :=
  match st with
  | ARGB32 => texel32Buffer t
  | ARGB128 => texel128Buffer t
  | NRM32 => normal32Buffer t
  end.

Definition texel_count_of (st : TexelStorage) (t : TextureState) : Z :=
  match st with
  | ARGB32 => argb32TexelCount t
  | ARGB128 => argb128TexelCount t
  | NRM32 => nrm32TexelCount t
  end.

(** Two descriptors that differ in [firstPixel] at most. *)
Definition same_texels (a b : CoreTexDesc) : Prop :=
  storage a = storage b /\ pixelCount a = pixelCount b /\ idata a = idata b.

(** The texture slots [SetMaterials] looks at (lines 361-371). *)
Definition texture_used (k : nat) : bool :=
  match k with
  | 0 | 1 | 2 | 3 | 4 | 5 | 6 | 7 | 9 | 10 => true
  | _ => false
  end%nat.

(** The member of the material that belongs to texture slot [k]. *)
Definition address (k : nat) (m : CoreMaterial) : Z :=
  match k with
  | 0 => texaddr0 m | 1 => texaddr1 m | 2 => texaddr2 m
  | 3 => nmapaddr0 m | 4 => nmapaddr1 m | 5 => nmapaddr2 m
  | 6 => smapaddr m | 7 => rmapaddr m
  | 9 => cmapaddr m | 10 => amapaddr m
  | _ => 0%Z
  end%nat.

Definition set_texture (k : nat) (v : Z) (e : CoreMaterialEx) : CoreMaterialEx :=
  {| texture := <[k := v]> (texture e) |}.

(** The address [new] of slot [k] after [SetMaterials], [old] before it. *)
Definition address_of (descs : option (list CoreTexDesc)) (e : CoreMaterialEx)
    (k : nat) (old new : Z) : Prop :=
  exists idx, texture e !! k = Some idx /\
    if idx =? -1 then new = old
    else exists l d, descs = Some l /\ vec_at l idx = Some d /\ new = firstPixel d.

Definition addresses_of (descs : option (list CoreTexDesc)) (e : CoreMaterialEx)
    (m m' : CoreMaterial) : Prop :=
  (forall k, texture_used k = true -> address_of descs e k (address k m) (address k m')) /\
  mat_other m' = mat_other m.

(** A texture index that [SetMaterials] can follow. *)
Definition texture_index_ok (descs : option (list CoreTexDesc)) (idx : Z) : bool :=
  (idx =? -1) ||
  match descs with
  | Some l => (0 <=? idx) && (idx <? Z.of_nat (length l))
  | None => false
  end.

Definition material_ok (descs : option (list CoreTexDesc)) (e : CoreMaterialEx) : bool :=
  forallb (fun k => match texture e !! k with
                    | Some idx => texture_index_ok descs idx
                    | None => false
                    end)
          [0; 1; 2; 3; 4; 5; 6; 7; 9; 10]%nat.

(** ** RenderCore::Init: the compiled code and the blue noise tables *)

Definition ptx_turing : string :=
  "../../lib/RenderCore_OptixRTX_B/optix/.optix.turing.cu.ptx".
Definition ptx_pascal : string :=
  "../../lib/RenderCore_OptixRTX_B/optix/.optix.pascal.cu.ptx".
Definition ptx_maxwell : string :=
  "../../lib/RenderCore_OptixRTX_B/optix/.optix.maxwell.cu.ptx".

(** Line 85. *)
Definition computeCapability (ccMajor ccMinor : Z) : Z := ccMajor * 10 + ccMinor.

(** The file [Init] writes the compiled code to (lines 103-105), if any. *)
Definition ptx_written (capability : Z) : option string :=
  if capability ÷ 10 =? 7 then Some ptx_turing
  else if capability ÷ 10 =? 6 then Some ptx_pascal
  else if capability ÷ 10 =? 5 then Some ptx_maxwell
  else None.

(** The file [Init] reads the compiled code from (lines 111-113); with no
    branch taken [f] is not initialised and [fread] is undefined ([None]). *)
Definition ptx_read (ccMajor : Z) : option string :=
  if ccMajor =? 7 then Some ptx_turing
  else if ccMajor =? 6 then Some ptx_pascal
  else if ccMajor =? 5 then Some ptx_maxwell
  else None.

(** [for (int i = 0; i < count; i++) data32[i + off] = data8[i]], from [i]
    on with [count] rounds left; undefined when it leaves either array. *)
Fixpoint convert (data8 : list Z) (off i count : nat) (data32 : list (option Z))
  : option (list (option Z)) :=
  match count with
  | O => Some data32
  | S count' =>
      b ← data8 !! i;
      if (i + off <? length data32)%nat
      then convert data8 off (S i) count' (<[(i + off)%nat := Some b]> data32)
      else None
  end.

(** Lines 144-150: the words handed to the [blueNoise] buffer; [None] is a
    word of [data32] that was never written. *)
Definition blueNoise_data (sob256_64 scr256_64 rnk256_64 : list Z)
  : option (list (option Z)) :=
  let data32 := replicate (Z.to_nat (65536 * 5)) None in
  d1 ← convert sob256_64 0 0 (Z.to_nat 65536) data32;
  d2 ← convert scr256_64 (Z.to_nat 65536) 0 (Z.to_nat (128 * 128 * 8)) d1;
  convert rnk256_64 (Z.to_nat (3 * 65536)) 0 (Z.to_nat (128 * 128 * 8)) d2.

(** The tables are long enough for the three loops. *)
Definition tables_fit (sob scr rnk : list Z) : Prop :=
  65536 <= Z.of_nat (length sob) /\
  128 * 128 * 8 <= Z.of_nat (length scr) /\
  128 * 128 * 8 <= Z.of_nat (length rnk).

(** ** A small configuration on which the methods can be evaluated

    Meshes are numbers, the view and the unread device memory are trivial.
    The kernels keep the counters the way the wavefront scheme describes
    them: the extension counter is reset before every extension, every
    shaded path emits one shadow ray and every second path survives. *)

Definition demo_counters : Counters :=
  {| extensionRays := 0; shadowRays := 0; totalExtensionRays := 0;
     probedInstid := 0; probedTriid := 0; probedDist := f32_zero |}.

Definition demo_set_counters (f : Counters -> Counters)
    (d : @Device unit) : @Device unit :=
  set_counterData (f (counterData d)) d.

Definition demo_xorshift (seed : Z) : Z :=
  let s1 := Z.lxor seed (uint (Z.shiftl seed 13)) in
  let s2 := Z.lxor s1 (Z.shiftr s1 17) in
  Z.lxor s2 (uint (Z.shiftl s2 5)).

Definition demoKernels : @Kernels Z unit unit unit :=
  {| MAXPATHLENGTH := 3;
     new_CoreMesh := 0;
     CoreMesh_SetGeometry := fun _ m => m + 1;
     triangles_DevPtr := fun m => 4096 + m;
     mat4_Inverted := fun m => m;
     RandomUInt := fun seed => (demo_xorshift seed, demo_xorshift seed);
     uninitialised := fun n => replicate (Z.to_nat n) 7;
     k_InitCountersForExtend := fun n =>
       demo_set_counters (fun c =>
         {| extensionRays := 0; shadowRays := 0; totalExtensionRays := n;
            probedInstid := probedInstid c; probedTriid := probedTriid c;
            probedDist := probedDist c |});
     k_InitCountersSubsequent :=
       demo_set_counters (fun c =>
         {| extensionRays := 0; shadowRays := shadowRays c;
            totalExtensionRays := totalExtensionRays c + extensionRays c;
            probedInstid := probedInstid c; probedTriid := probedTriid c;
            probedDist := probedDist c |});
     k_launch := fun _ _ _ _ d => d;
     k_shade := fun a =>
       demo_set_counters (fun c =>
         {| extensionRays := extensionRays c + sa_pathCount a / 2;
            shadowRays := shadowRays c + sa_pathCount a;
            totalExtensionRays := totalExtensionRays c;
            probedInstid := probedInstid c; probedTriid := probedTriid c;
            probedDist := probedDist c |});
     k_finalizeRender := fun _ _ _ _ _ d => d |}.

(** A core on which nothing has been called yet: no target, no buffers, no
    meshes; the descriptor array is still to be sent to the device. *)
Definition demoCore : @RenderCore Z unit unit :=
  {| scrwidth := 0; scrheight := 0; scrspp := 1; maxPixels := 0; currentSPP := 0;
     samplesTaken := 0; camRNGseed := 0x12345678; probePos := (0, 0);
     renderTarget := None;
     connectionBuffer := None; accumulator := None; hitBuffer := None;
     pathStateBuffer := None; instDescBuffer := None;
     counterHost := demo_counters;
     meshes := []; instances := [];
     instancesDirty := true; topLevelDirty := false;
     vars := {| geometryEpsilon := f32_zero; clampValue := f32_zero |};
     coreStats := {| st_totalExtensionRays := 0; st_totalShadowRays := 0;
                     st_primaryRayCount := 0; st_bounce1RayCount := 0;
                     st_deepRayCount := 0; st_totalRays := 0;
                     st_probedInstid := 0; st_probedTriid := 0;
                     st_probedDist := f32_zero |};
     context := {| ctx_scrsize := (0, 0, 0); ctx_view := None; ctx_pass := 0;
                   ctx_phase := 0; ctx_geometryEpsilon := None |};
     device := {| accData := []; counterData := demo_counters; instDescData := [];
                  dev_geometryEpsilon := None; dev_clampValue := f32_zero;
                  scratch := tt |} |}.

(** The state after the calls [cs], when they all return. *)
Definition demo_after (cs : list (@Call unit unit)) : option (@RenderCore Z unit unit) :=
  final (run demoKernels cs demoCore).

(** Lines 168-205 on a 4x4 target at one sample per pixel, then a mesh and an
    instance of it. *)
Definition demo_target : GLTexture := mkTexture 4 4.

Definition demoReady : @RenderCore Z unit unit :=
  Eval vm_compute in
    default demoCore (demo_after [CallSetTarget demo_target 1]).

Definition demoMesh : @RenderCore Z unit unit :=
  Eval vm_compute in
    default demoCore (demo_after [CallSetTarget demo_target 1; CallSetGeometry 0 tt]).

Definition demoScene : @RenderCore Z unit unit :=
  Eval vm_compute in
    default demoCore
      (demo_after [CallSetTarget demo_target 1; CallSetGeometry 0 tt;
                   CallSetInstance 0 0 mat4_Identity]).

Definition demo_frames : list (@Call unit unit) :=
  [CallSetTarget demo_target 1;
   CallRender tt Restart f32_one f32_one;
   CallRender tt Continue f32_one f32_one;
   CallRender tt Continue f32_one f32_one].

(** One frame on the scene: its events and the state it leaves. *)
Definition demo_log : list (@Event unit) :=
  Eval vm_compute in
    events (run demoKernels [CallRender tt Restart f32_one f32_one] demoScene).

Definition demoRendered : @RenderCore Z unit unit :=
  Eval vm_compute in
    default demoCore
      (final (run demoKernels [CallRender tt Restart f32_one f32_one] demoScene)).

(** A second frame on the rendered core, in mode [Continue]. *)
Definition demo_log2 : list (@Event unit) :=
  Eval vm_compute in
    events (Render demoKernels tt Continue f32_one f32_one demoRendered).

Definition demoRendered2 : @RenderCore Z unit unit :=
  Eval vm_compute in
    default demoCore
      (final (Render demoKernels tt Continue f32_one f32_one demoRendered)).

(** The number of times the accumulator was allocated in the events [l]. *)
Definition reallocations (l : list (@Event unit)) : nat :=
  length (List.filter
            (fun e => match e with EvNew Accumulator _ => true | _ => false end) l).

(** Four textures, a material that uses three of them, and three tables. *)
Definition demoTextures : list CoreTexDesc :=
  [ mkTexDesc ARGB32 2 [1; 2] 0;
    mkTexDesc ARGB128 1 [10; 11; 12; 13] 0;
    mkTexDesc ARGB32 3 [3; 4; 5] 0;
    mkTexDesc NRM32 2 [7; 8] 0 ].

Definition demoTextureState : TextureState :=
  mkTextureState 0 None None None None 0 0 0.

Definition demoLoaded : TextureState :=
  mkTextureState 4 (Some demoTextures) None None None 0 0 0.

Definition demoSynced32 : TextureState :=
  Eval vm_compute in default demoLoaded (SyncStorageType ARGB32 demoLoaded).

Definition demoSynced128 : TextureState :=
  Eval vm_compute in default demoLoaded (SyncStorageType ARGB128 demoLoaded).

Definition demoTextured : TextureState :=
  Eval vm_compute in default demoTextureState (SetTextures demoTextures 4 demoTextureState).

Definition demoMaterials : list CoreMaterial :=
  [ mkMaterial 0 0 0 0 0 0 0 0 0 0 42 ].

Definition demoMaterialsEx : list CoreMaterialEx :=
  [ mkMaterialEx [2; -1; -1; 3; -1; -1; -1; -1; 5; -1; 1] ].

Definition demoResolved : list CoreMaterial :=
  Eval vm_compute in
    default [] (SetMaterials (texDescs demoTextured) demoMaterials demoMaterialsEx 1).

Definition demoTable (n : Z) : list Z := replicate (Z.to_nat n) 0.

(** * Properties *)

Section Properties.

Context {CoreMesh Geometry ViewPyramid Scratch : Type}.
Variable K : @Kernels CoreMesh Geometry ViewPyramid Scratch.

Local Abbreviation State := (@RenderCore CoreMesh ViewPyramid Scratch).
Local Abbreviation Ev := (@Event ViewPyramid).
Local Abbreviation Mon := (@M CoreMesh ViewPyramid Scratch).

(** ** Reasoning about method bodies

    [post u m Q s]: running [m] on [s] returns and [Q] holds of the result,
    the final state and the events; when [m] is undefined on [s], [u] decides
    ([False] asks for a run that returns, [True] says nothing of a run that
    does not). *)
Definition post (u : Prop) {A : Type} (m : Mon A)
    (Q : A -> State -> list Ev -> Prop) (s : State) : Prop :=
  match m s with
  | Done (a, s', l) => Q a s' l
  | Undefined => u
  end.

(** The four screen buffers exist. *)
Definition allocated (s : State) : Prop :=
  is_Some (connectionBuffer s) /\ is_Some (accumulator s) /\
  is_Some (hitBuffer s) /\ is_Some (pathStateBuffer s).

(** What [Render] needs: the screen buffers, and every instance referring to
    a mesh that exists when the descriptor array is rebuilt. *)
Definition ready (s : State) : Prop :=
  allocated s /\
  (instancesDirty s = true -> is_Some (instDescArray K (meshes s) (instances s))).

(** The members no frame writes. *)
Definition config (s : State) :=
  (scrwidth s, scrheight s, scrspp s, maxPixels s, currentSPP s,
   probePos s, renderTarget s,
   (connectionBuffer s, accumulator s, hitBuffer s, pathStateBuffer s),
   (meshes s, instances s, instancesDirty s, topLevelDirty s),
   vars s).

(** The events of one iteration of the bounce loop: [c0] are the counters on
    the device when the iteration starts, [c] the ones read back after the
    shading. *)
Definition bounce_events (pathLength pathCount : Z) (c0 : Counters)
    (a : @ShadeArgs ViewPyramid) (c : Counters) : list Ev :=
  (if pathLength =? 1
   then [EvInitCountersForExtend pathCount; EvLaunch 0 pathCount]
   else [EvCopyToHost c0; EvInitCountersSubsequent; EvLaunch 1 pathCount])
  ++ [EvShade a; EvCopyToHost c].

(** The device memory after one iteration. *)
Definition bounce_device (view : ViewPyramid) (pathLength pathCount : Z)
    (s : State) : @Device Scratch :=
  let ctx := set_ctx_phase (if pathLength =? 1 then 0 else 1) (context s) in
  let d0 := if pathLength =? 1
            then k_InitCountersForExtend K pathCount (device s)
            else k_InitCountersSubsequent K (device s) in
  k_shade K (shade_args view pathLength pathCount (fst (RandomUInt K (camRNGseed s))) s)
    (k_launch K ctx (meshes s) (instances s) pathCount d0).

(** The test of line 477: the descriptor buffer is missing or too small. *)
Definition instDesc_realloc (s : State) : bool :=
  match instDescBuffer s with
  | None => true
  | Some (size, _) => size <? Z.of_nat (length (instances s))
  end.

(** The descriptor buffer after the rebuild of lines 456-486, for the
    descriptor array [arr]. *)
Definition instDesc_rebuilt (s : State) (arr : list CoreInstanceDesc)
  : Z * list (option CoreInstanceDesc) :=
  let n := Z.of_nat (length (instances s)) in
  let b := if instDesc_realloc s
           then (n * 2, replicate (Z.to_nat (n * 2)) None)
           else default (0, []) (instDescBuffer s) in
  (fst b, (Some <$> arr) ++ drop (length arr) (snd b)).

(** The events of the rebuild. *)
Definition instance_events (s : State) : list Ev :=
  if instancesDirty s then
    (if instDesc_realloc s
     then [EvDelete InstDescBuffer;
           EvNew InstDescBuffer (Z.of_nat (length (instances s)) * 2)]
     else [])
    ++ [EvCopyToDevice InstDescBuffer]
  else [].

(** The run of one frame, after the optional reset: [sA] is the state when
    the bounce loop starts, [s1], [s2], [s3] the states after each iteration;
    the counters read back after iteration [i] are those of the device of
    [si]. *)
Definition frame_post (view : ViewPyramid) (brightness contrast : float)
    (s s' : State) (l : list Ev) : Prop :=
  exists sA s1 s2 s3 : State,
    let p0 := uint (scrwidth s * scrheight s * scrspp s) in
    let c1 := counterData (device s1) in
    let c2 := counterData (device s2) in
    let c3 := counterData (device s3) in
    let a1 := shade_args view 1 p0 (fst (RandomUInt K (camRNGseed sA))) s in
    let a2 := shade_args view 2 (extensionRays c1) (fst (RandomUInt K (camRNGseed s1))) s in
    let a3 := shade_args view 3 (extensionRays c2) (fst (RandomUInt K (camRNGseed s2))) s in
    let n := uint (samplesTaken s + scrspp s) in
    l = instance_events s ++
        bounce_events 1 p0 (counterData (device sA)) a1 c1 ++
        bounce_events 2 (extensionRays c1) c1 a2 c2 ++
        bounce_events 3 (extensionRays c2) c2 a3 c3 ++
        [EvLaunch 2 (shadowRays c3); EvFinalize (scrwidth s) (scrheight s) n] /\
    (* before the loop *)
    (if instancesDirty s then
       exists arr, instDescArray K (meshes s) (instances s) = Some arr /\
         instDescBuffer sA = Some (instDesc_rebuilt s arr) /\
         device sA = set_instDescData (snd (instDesc_rebuilt s arr)) (device s)
     else instDescBuffer sA = instDescBuffer s /\ device sA = device s) /\
    context sA = set_ctx_pass (samplesTaken s) (set_ctx_view (Some view) (context s)) /\
    camRNGseed sA = camRNGseed s /\
    (* the loop *)
    device s1 = bounce_device view 1 p0 sA /\
    device s2 = bounce_device view 2 (extensionRays c1) s1 /\
    device s3 = bounce_device view 3 (extensionRays c2) s2 /\
    camRNGseed s1 = snd (RandomUInt K (camRNGseed sA)) /\
    camRNGseed s2 = snd (RandomUInt K (camRNGseed s1)) /\
    camRNGseed s3 = snd (RandomUInt K (camRNGseed s2)) /\
    config sA = config s /\ config s1 = config s /\ config s2 = config s /\
    config s3 = config s /\
    samplesTaken sA = samplesTaken s /\ samplesTaken s1 = samplesTaken s /\
    samplesTaken s2 = samplesTaken s /\ samplesTaken s3 = samplesTaken s /\
    (* after the loop *)
    device s' = k_finalizeRender K (scrwidth s) (scrheight s) n brightness contrast
                  (k_launch K (set_ctx_phase 2 (context s3)) (meshes s) (instances s)
                     (shadowRays c3) (device s3)) /\
    counterHost s' = c3 /\
    camRNGseed s' = camRNGseed s3 /\
    instDescBuffer s' = instDescBuffer sA /\
    samplesTaken s' = n /\
    st_totalShadowRays (coreStats s') = shadowRays c3 /\
    st_totalExtensionRays (coreStats s') = totalExtensionRays c3 /\
    st_totalRays (coreStats s') = uint (totalExtensionRays c3 + shadowRays c3) /\
    st_probedInstid (coreStats s') = probedInstid c3 /\
    st_probedTriid (coreStats s') = probedTriid c3 /\
    st_probedDist (coreStats s') = probedDist c3 /\
    config s' = config s /\
    st_primaryRayCount (coreStats s') = p0 /\
    st_bounce1RayCount (coreStats s') = extensionRays c1 /\
    st_deepRayCount (coreStats s') = uint (0 + extensionRays c2).

(** The reset of lines 446-451: its events and the state it leaves. *)
Definition reset_events (converge : Convergence) : list Ev :=
  match converge with
  | Restart => [EvClear Accumulator]
  | Continue => []
  end.

Definition reset_state (converge : Convergence) (s : State) : State :=
  match converge with
  | Restart =>
      set_camRNGseed 0x12345678 (set_samplesTaken 0
        (set_device
           (set_accData (replicate (Z.to_nat (4 * default 0 (accumulator s))) 0) (device s))
           s))
  | Continue => s
  end.

(** The pixel count [SetTarget] compares with [maxPixels], the capacity it
    reserves for it, and the test of line 180. *)
Definition target_pixels (target : GLTexture) : Z :=
  uint (width target * height target).

Definition target_capacity (target : GLTexture) : Z :=
  uint (target_pixels target + Z.shiftr (target_pixels target) 4).

Definition target_reallocates (s : State) (target : GLTexture) (spp : Z) : bool :=
  (target_pixels target >? maxPixels s) || negb (spp =? currentSPP s).

(** What [SetInstance] leaves in an instance that exists already, and the
    instance it appends. *)
Definition updated_instance (meshIdx : Z) (matrix : mat4) (i : CoreInstance)
  : CoreInstance :=
  set_mesh meshIdx
    match transform i with
    | Some _ => set_transform (Some (mkTransform matrix (mat4_Inverted K matrix))) i
    | None => i
    end.

Definition appended_instance (instanceIdx meshIdx : Z) (matrix : mat4) : CoreInstance :=
  {| mesh := meshIdx;
     transform := Some (mkTransform matrix (mat4_Inverted K matrix));
     geometryInstance := Some (meshIdx, instanceIdx) |}.

(** The number of frames accumulated after the calls [cs], when [n] frames
    were accumulated before them: a [Render] adds one, after starting again
    from zero when its mode is [Restart]; [SetTarget] starts again from
    zero. *)
Fixpoint frames_since_reset (cs : list (@Call Geometry ViewPyramid)) (n : Z) : Z :=
  match cs with
  | [] => n
  | CallRender _ Restart _ _ :: rest => frames_since_reset rest 1
  | CallRender _ Continue _ _ :: rest => frames_since_reset rest (n + 1)
  | CallSetTarget _ _ :: rest => frames_since_reset rest 0
  | _ :: rest => frames_since_reset rest n
  end.

Definition is_Render (c : @Call Geometry ViewPyramid) : Prop :=
  match c with CallRender _ _ _ _ => True | _ => False end.

(** Modelled from the spec: the kernels are not part of the sources.  A
    dispatch over zero paths is a no-op, and re-initialising the counters for
    a later bounce creates no extension rays. *)
Definition zero_dispatch_noop : Prop :=
  (forall ctx ms insts d, k_launch K ctx ms insts 0 d = d) /\
  (forall a d, sa_pathCount a = 0 -> k_shade K a d = d) /\
  (forall d, extensionRays (counterData d) = 0 ->
             extensionRays (counterData (k_InitCountersSubsequent K d)) = 0).

(** Modelled from the spec: the kernels are not part of the sources.  The
    shadow-ray counter is zeroed by the initialisation for the first bounce,
    kept by the initialisation for a later bounce and by the extension
    launches; only shading adds to it. *)
Definition shadow_counter_accumulates : Prop :=
  (forall n d, shadowRays (counterData (k_InitCountersForExtend K n d)) = 0) /\
  (forall d, shadowRays (counterData (k_InitCountersSubsequent K d)) =
             shadowRays (counterData d)) /\
  (forall ctx ms insts n d, ctx_phase ctx <> 2 ->
     shadowRays (counterData (k_launch K ctx ms insts n d)) =
     shadowRays (counterData d)).

(** The shadow rays the shading dispatch [a] adds to the counter when it runs
    on the device memory [d]. *)
Definition shadow_contribution (a : @ShadeArgs ViewPyramid) (d : @Device Scratch) : Z :=
  shadowRays (counterData (k_shade K a d)) - shadowRays (counterData d).

(** The device memory one iteration of the bounce loop shades. *)
Definition extended_device (pathLength pathCount : Z) (s : State) : @Device Scratch :=
  k_launch K (set_ctx_phase (if pathLength =? 1 then 0 else 1) (context s))
    (meshes s) (instances s) pathCount
    (if pathLength =? 1
     then k_InitCountersForExtend K pathCount (device s)
     else k_InitCountersSubsequent K (device s)).

(** The pixel count of [target] leaves room for the sixteenth [SetTarget]
    adds to it, within 32 bits. *)
Definition target_fits (target : GLTexture) : Prop :=
  target_pixels target + target_pixels target / 16 < 2 ^ 32.

(** The capacity read off the specification's formula, for comparison:
    the larger of the requirement and 1.0625 times the previous capacity
    (17/16, rounded down). *)
Definition capacity_by_the_formula (requirement previous : Z) : Z :=
  Z.max requirement (previous * 17 / 16).

(** The shading dispatches among the events, and the counters read back,
    in program order. *)
Definition shade_dispatches (l : list Ev) : list (@ShadeArgs ViewPyramid) :=
  omap (fun e => match e with EvShade a => Some a | _ => None end) l.

Definition readbacks (l : list Ev) : list Counters :=
  omap (fun e => match e with EvCopyToHost c => Some c | _ => None end) l.

(** The events that concern the descriptor buffer. *)
Definition descriptor_events (l : list Ev) : list Ev :=
  List.filter
    (fun e => match e with
              | EvDelete InstDescBuffer | EvNew InstDescBuffer _
              | EvCopyToDevice InstDescBuffer => true
              | _ => false
              end) l.

(** Every instance refers to a mesh that exists. *)
Definition scene_ok (s : State) : Prop :=
  Forall (fun i => is_Some (vec_at (meshes s) (mesh i))) (instances s).

Lemma post_ret u {A} (a : A) Q s : Q a s [] -> post u (mret a) Q s.
Proof. exact id. Qed.

Lemma post_bind u {A B} (m : Mon A) (f : A -> Mon B) Q s :
  post u m (fun a s1 l1 => post u (f a) (fun b s2 l2 => Q b s2 (l1 ++ l2)) s1) s ->
  post u (m ≫= f) Q s.
Proof.
  unfold post, mbind, M_bind, bind.
  destruct (m s) as [[[a s1] l1]|]; [|exact id].
  destruct (f a s1) as [[[b s2] l2]|]; exact id.
Qed.

Lemma post_this u Q s : Q s s [] -> post u this Q s.
Proof. exact id. Qed.

Lemma post_modify u f Q s : Q tt (f s) [] -> post u (modify f) Q s.
Proof. exact id. Qed.

Lemma post_emit u e Q s : Q tt s [e] -> post u (emit e) Q s.
Proof. exact id. Qed.

Lemma post_deref u {A} (p : option A) Q s :
  match p with Some a => Q a s [] | None => u end -> post u (deref p) Q s.
Proof. destruct p; exact id. Qed.

Lemma post_when u (b : bool) m Q s :
  (if b then post u m Q s else Q tt s []) -> post u (when b m) Q s.
Proof. destruct b; exact id. Qed.

Lemma post_mono u {A} (m : Mon A) (Q Q' : A -> State -> list Ev -> Prop) s :
  post u m Q s -> (forall a s' l, Q a s' l -> Q' a s' l) -> post u m Q' s.
Proof. unfold post. destruct (m s) as [[[a s1] l1]|]; auto. Qed.

Lemma post_weaken {A} (m : Mon A) (Q : A -> State -> list Ev -> Prop) s :
  post False m Q s -> post True m Q s.
Proof. unfold post. destruct (m s) as [[[a s1] l1]|]; auto. Qed.

Lemma post_Done u {A} (m : Mon A) Q s a s' l :
  post u m Q s -> m s = Done (a, s', l) -> Q a s' l.
Proof. unfold post. intros H E. now rewrite E in H. Qed.

Lemma post_returns {A} (m : Mon A) Q s :
  post False m Q s -> exists a s' l, m s = Done (a, s', l) /\ Q a s' l.
Proof.
  unfold post. destruct (m s) as [[[a s1] l1]|]; [|tauto].
  intros H. now exists a, s1, l1.
Qed.

Ltac wp_step :=
  lazymatch goal with
  | |- post _ (mbind _ _) _ _ => apply post_bind
  | |- post _ (mret _) _ _ => apply post_ret
  | |- post _ (ret _) _ _ => apply post_ret
  | |- post _ this _ _ => apply post_this
  | |- post _ (modify _) _ _ => apply post_modify
  | |- post _ (emit _) _ _ => apply post_emit
  | |- post _ (deref _) _ _ => apply post_deref
  | |- post _ (when _ _) _ _ => apply post_when
  | |- post _ (update_device _) _ _ => apply post_modify
  | |- post _ (update_context _) _ _ => apply post_modify
  | |- post _ (update_stats _) _ _ => apply post_modify
  end.

Ltac wp := repeat (wp_step; cbv beta).

(** Evaluation of a method body on a state given field by field; the
    arithmetic and the list functions are left as they stand. *)
Ltac evaluate :=
  cbv -[uint int_of_uint size_t_of_int Z.add Z.mul Z.sub Z.div Z.modulo Z.shiftr Z.pow
        Z.eqb Z.ltb Z.leb Z.gtb Z.geb Z.of_nat Z.to_nat
        fst snd length replicate drop fmap lookup insert mapM
        list_fmap list_lookup list_insert
        float_ne SFeqb String.eqb instDescArray vec_at is_Some].

(** The same, for bodies that append to the vectors of meshes and
    instances: the vectors and what comes from [Kernels] stay folded. *)
Ltac evaluate_vectors :=
  cbv -[uint int_of_uint size_t_of_int Z.add Z.mul Z.sub Z.div Z.modulo Z.shiftr Z.pow
        Z.eqb Z.ltb Z.leb Z.gtb Z.geb Z.of_nat Z.to_nat
        fst snd length replicate drop fmap lookup insert mapM app
        list_fmap list_lookup list_insert
        float_ne SFeqb String.eqb instDescArray vec_at is_Some
        new_CoreMesh CoreMesh_SetGeometry triangles_DevPtr mat4_Inverted
        mat4_Identity new_CoreInstance];
  cbn [app].

(** One iteration of the bounce loop. *)
Lemma bounce_post u view pathLength pathCount (s : State) :
  u \/ allocated s ->
  post u (bounce K view pathLength pathCount)
    (fun r s' l =>
       let a := shade_args view pathLength pathCount
                  (fst (RandomUInt K (camRNGseed s))) s in
       let c := counterData (device s') in
       r = (extensionRays c, c) /\
       l = bounce_events pathLength pathCount (counterData (device s)) a c /\
       device s' = bounce_device view pathLength pathCount s /\
       counterHost s' = c /\
       camRNGseed s' = snd (RandomUInt K (camRNGseed s)) /\
       context s' = set_ctx_phase (if pathLength =? 1 then 0 else 1) (context s) /\
       samplesTaken s' = samplesTaken s /\
       instDescBuffer s' = instDescBuffer s /\
       config s' = config s /\
       st_primaryRayCount (coreStats s') =
         (if pathLength =? 1 then pathCount else st_primaryRayCount (coreStats s)) /\
       st_bounce1RayCount (coreStats s') =
         (if pathLength =? 1 then st_bounce1RayCount (coreStats s)
          else if pathLength =? 2 then pathCount
          else st_bounce1RayCount (coreStats s)) /\
       st_deepRayCount (coreStats s') =
         (if pathLength =? 1 then st_deepRayCount (coreStats s)
          else if pathLength =? 2 then st_deepRayCount (coreStats s)
          else uint (st_deepRayCount (coreStats s) + pathCount)))
    s.
Proof.
  intros Hs.
  destruct s as [w h spp mp cspp st seed pp rt cb acc hb pb idb ch ms ins idirty tdirty
                 vs stats ctx dev].
  destruct (pathLength =? 1) eqn:E1; [|destruct (pathLength =? 2) eqn:E2].
  all: unfold post, bounce, bounce_events, bounce_device; rewrite ?E1, ?E2.
  all: destruct acc as [acc|], pb as [pb|], hb as [hb|], cb as [cb|].
  all: evaluate.
  all: try (destruct Hs as [Hs|([? ?] & [? ?] & [? ?] & [? ?])]; [exact Hs|discriminate]).
  all: repeat split; reflexivity.
Qed.

(** The optional reset at the head of [Render]. *)
Lemma Render_reset_post u converge (s : State) :
  u \/ is_Some (accumulator s) ->
  post u (Render_reset converge)
    (fun _ s' l =>
       match converge with
       | Restart =>
           exists n, accumulator s = Some n /\
           l = [EvClear Accumulator] /\
           s' = set_camRNGseed 0x12345678 (set_samplesTaken 0
                  (set_device (set_accData (replicate (Z.to_nat (4 * n)) 0) (device s)) s))
       | Continue => l = [] /\ s' = s
       end)
    s.
Proof.
  intros Hs.
  destruct s as [w h spp mp cspp st seed pp rt cb acc hb pb idb ch ms ins idirty tdirty
                 vs stats ctx dev].
  destruct converge; [split; reflexivity|].
  destruct acc as [acc|]; evaluate.
  - exists acc. repeat split; reflexivity.
  - destruct Hs as [Hs|[? ?]]; [exact Hs|discriminate].
Qed.

Lemma Render_setup_post u view (s : State) :
  post u (Render_setup view)
    (fun p s' l =>
       p = uint (scrwidth s * scrheight s * scrspp s) /\ l = [] /\
       device s' = device s /\
       context s' = set_ctx_pass (samplesTaken s) (set_ctx_view (Some view) (context s)) /\
       camRNGseed s' = camRNGseed s /\
       samplesTaken s' = samplesTaken s /\
       instDescBuffer s' = instDescBuffer s /\
       config s' = config s /\
       st_deepRayCount (coreStats s') = 0)
    s.
Proof.
  destruct s as [w h spp mp cspp st seed pp rt cb acc hb pb idb ch ms ins idirty tdirty
                 vs stats ctx dev].
  evaluate. repeat split; reflexivity.
Qed.

Lemma Render_connect_post u (c : Counters) (s : State) :
  post u (Render_connect K (Some c))
    (fun r s' l =>
       r = c /\ l = [EvLaunch 2 (shadowRays c)] /\
       device s' = k_launch K (set_ctx_phase 2 (context s)) (meshes s) (instances s)
                     (shadowRays c) (device s) /\
       st_totalShadowRays (coreStats s') = shadowRays c /\
       st_totalExtensionRays (coreStats s') = totalExtensionRays c /\
       st_primaryRayCount (coreStats s') = st_primaryRayCount (coreStats s) /\
       st_bounce1RayCount (coreStats s') = st_bounce1RayCount (coreStats s) /\
       st_deepRayCount (coreStats s') = st_deepRayCount (coreStats s) /\
       camRNGseed s' = camRNGseed s /\
       counterHost s' = counterHost s /\
       samplesTaken s' = samplesTaken s /\
       instDescBuffer s' = instDescBuffer s /\
       config s' = config s)
    s.
Proof.
  destruct s as [w h spp mp cspp st seed pp rt cb acc hb pb idb ch ms ins idirty tdirty
                 vs stats ctx dev].
  evaluate. repeat split; reflexivity.
Qed.

Lemma Render_present_post u brightness contrast (c : Counters) (s : State) :
  u \/ is_Some (accumulator s) ->
  post u (Render_present K brightness contrast c)
    (fun _ s' l =>
       let n := uint (samplesTaken s + scrspp s) in
       samplesTaken s' = n /\
       l = [EvFinalize (scrwidth s) (scrheight s) n] /\
       device s' = k_finalizeRender K (scrwidth s) (scrheight s) n brightness contrast
                     (device s) /\
       st_totalRays (coreStats s') =
         uint (st_totalExtensionRays (coreStats s) + st_totalShadowRays (coreStats s)) /\
       st_totalShadowRays (coreStats s') = st_totalShadowRays (coreStats s) /\
       st_totalExtensionRays (coreStats s') = st_totalExtensionRays (coreStats s) /\
       st_primaryRayCount (coreStats s') = st_primaryRayCount (coreStats s) /\
       st_bounce1RayCount (coreStats s') = st_bounce1RayCount (coreStats s) /\
       st_deepRayCount (coreStats s') = st_deepRayCount (coreStats s) /\
       st_probedInstid (coreStats s') = probedInstid c /\
       st_probedTriid (coreStats s') = probedTriid c /\
       st_probedDist (coreStats s') = probedDist c /\
       camRNGseed s' = camRNGseed s /\
       counterHost s' = counterHost s /\
       instDescBuffer s' = instDescBuffer s /\
       config s' = config s)
    s.
Proof.
  intros Hs.
  destruct s as [w h spp mp cspp st seed pp rt cb acc hb pb idb ch ms ins idirty tdirty
                 vs stats ctx dev].
  destruct acc as [acc|]; evaluate.
  - repeat split; reflexivity.
  - destruct Hs as [Hs|[? ?]]; [exact Hs|discriminate].
Qed.

(** The rebuild of the instance descriptors. *)
Lemma Render_instances_post u (s : State) :
  u \/ (instancesDirty s = true ->
        is_Some (instDescArray K (meshes s) (instances s))) ->
  post u (Render_instances K)
    (fun _ s' l =>
       l = instance_events s /\
       (if instancesDirty s then
          exists arr, instDescArray K (meshes s) (instances s) = Some arr /\
            s' = set_device (set_instDescData (snd (instDesc_rebuilt s arr)) (device s))
                   (set_instDescBuffer (Some (instDesc_rebuilt s arr)) s)
        else s' = s))
    s.
Proof.
  intros Hs.
  destruct s as [w h spp mp cspp st seed pp rt cb acc hb pb idb ch ms ins idirty tdirty
                 vs stats ctx dev].
  unfold post, Render_instances, instance_events, instDesc_rebuilt, instDesc_realloc.
  destruct idirty; [|split; reflexivity].
  evaluate.
  destruct (instDescArray K ms ins) as [arr|] eqn:E.
  - destruct idb as [[size host]|]; [destruct (size <? Z.of_nat (length ins))|].
    all: evaluate; split; [reflexivity|]; exists arr; split; reflexivity.
  - destruct Hs as [Hs|Hs]; [exact Hs|].
    destruct (Hs eq_refl) as [? ?]. cbn in *. unfold instDescArray in E. congruence.
Qed.

(** The members of [config], one by one. *)
Lemma config_fields (s s' : State) :
  config s' = config s ->
  scrwidth s' = scrwidth s /\ scrheight s' = scrheight s /\ scrspp s' = scrspp s /\
  maxPixels s' = maxPixels s /\ currentSPP s' = currentSPP s /\
  probePos s' = probePos s /\ renderTarget s' = renderTarget s /\
  connectionBuffer s' = connectionBuffer s /\ accumulator s' = accumulator s /\
  hitBuffer s' = hitBuffer s /\ pathStateBuffer s' = pathStateBuffer s /\
  meshes s' = meshes s /\ instances s' = instances s /\
  instancesDirty s' = instancesDirty s /\ topLevelDirty s' = topLevelDirty s /\
  vars s' = vars s.
Proof. unfold config. intros H. injection H. intros. repeat split; assumption. Qed.

Lemma allocated_config (s s' : State) :
  config s' = config s -> allocated s -> allocated s'.
Proof.
  intros H. apply config_fields in H.
  destruct H as (_ & _ & _ & _ & _ & _ & _ & H1 & H2 & H3 & H4 & _).
  unfold allocated. now rewrite H1, H2, H3, H4.
Qed.

Lemma shade_args_config view pathLength pathCount R0 (s s' : State) :
  config s' = config s -> samplesTaken s' = samplesTaken s ->
  shade_args view pathLength pathCount R0 s' = shade_args view pathLength pathCount R0 s.
Proof.
  intros H Hst. apply config_fields in H.
  destruct H as (H1 & H2 & H3 & _ & _ & H4 & _).
  unfold shade_args. now rewrite H1, H2, H3, H4, Hst.
Qed.

(** The frame as a whole. *)
Lemma Render_frame_post u view brightness contrast (s : State) :
  u \/ ready s ->
  post u (Render_frame K view brightness contrast)
    (fun _ s' l => frame_post view brightness contrast s s' l) s.
Proof.
  intros Hs.
  assert (Hall : forall s0 : State, config s0 = config s -> u \/ allocated s0).
  { intros s0 H0. destruct Hs as [Hu|[Ha _]]; [now left|right].
    now apply (allocated_config s). }
  assert (Hacc : forall s0 : State, config s0 = config s -> u \/ is_Some (accumulator s0)).
  { intros s0 H0. destruct (Hall s0 H0) as [Hu|(_ & Ha & _)]; tauto. }
  unfold Render_frame.
  apply post_bind. eapply post_mono.
  { apply Render_instances_post. destruct Hs as [Hu|[_ Hd]]; tauto. }
  intros [] sI lI [HlI HsI]. cbv beta.
  assert (HcI : config sI = config s /\ samplesTaken sI = samplesTaken s /\
                camRNGseed sI = camRNGseed s /\ context sI = context s).
  { destruct (instancesDirty s); [destruct HsI as (arr & _ & ->)|subst sI];
      repeat split; reflexivity. }
  destruct HcI as (HcI & HstI & HseedI & HctxI).
  apply post_bind. eapply post_mono; [apply Render_setup_post|].
  intros p0 sA lA (-> & -> & HdA & HctxA & HseedA & HstA & HidbA & HcA & HdeepA). cbv beta.
  assert (HcA' : config sA = config s) by congruence.
  change (seqZ 1 3) with [1; 2; 3]. cbn [bounce_loop].
  apply post_bind. apply post_bind. eapply post_mono; [apply bounce_post; auto|].
  intros r1 s1 l1 (-> & -> & Hd1 & Hch1 & Hseed1 & Hctx1 & Hst1 & Hidb1 & Hc1 & Hp1 & Hb1 & Hdp1). cbv beta.
  assert (Hc1' : config s1 = config s) by congruence.
  cbn [fst snd].
  apply post_bind. eapply post_mono; [apply bounce_post; auto|].
  intros r2 s2 l2 (-> & -> & Hd2 & Hch2 & Hseed2 & Hctx2 & Hst2 & Hidb2 & Hc2 & Hp2 & Hb2 & Hdp2). cbv beta.
  assert (Hc2' : config s2 = config s) by congruence.
  cbn [fst snd].
  apply post_bind. eapply post_mono; [apply bounce_post; auto|].
  intros r3 s3 l3 (-> & -> & Hd3 & Hch3 & Hseed3 & Hctx3 & Hst3 & Hidb3 & Hc3 & Hp3 & Hb3 & Hdp3). cbv beta.
  assert (Hc3' : config s3 = config s) by congruence.
  cbn [fst snd].
  apply post_ret.
  apply post_bind. eapply post_mono; [apply Render_connect_post|].
  intros c sC lC (-> & -> & HdC & Hts & Hte & HpC & HbC & HdpC & HseedC & HchC & HstC & HidbC & HcC).
  cbv beta.
  assert (HcC' : config sC = config s) by congruence.
  eapply post_mono; [apply Render_present_post; auto|].
  intros [] s' l' (Hst' & -> & Hd' & Htr & Hts' & Hte' & Hp' & Hb' & Hdp' & Hpi & Hpt & Hpd &
                   Hseed' & Hch' & Hidb' & Hc').
  cbv beta.
  destruct (config_fields _ _ HcI) as (HI1 & HI2 & HI3 & _).
  destruct (config_fields _ _ HcC') as (HC1 & HC2 & HC3 & _ & _ & _ & _ & _ & _ & _ & _ &
                                       HC4 & HC5 & _).
  destruct (config_fields _ _ Hc3') as (_ & _ & _ & _ & _ & _ & _ & _ & _ & _ & _ &
                                       H34 & H35 & _).
  rewrite HI1, HI2, HI3 in *. rewrite HC1, HC2, HC3 in *. rewrite H34, H35 in *.
  rewrite HstC, Hst3, Hst2, Hst1, HstA, HstI in *.
  exists sA, s1, s2, s3. cbv zeta.
  rewrite (shade_args_config view 1 _ _ s sA) by congruence.
  rewrite (shade_args_config view 2 _ _ s s1) by congruence.
  rewrite (shade_args_config view 3 _ _ s s2) by congruence.
  cbn [Z.eqb Pos.eqb] in Hp1, Hp2, Hp3, Hb1, Hb2, Hb3, Hdp1, Hdp2, Hdp3.
  repeat match goal with |- _ /\ _ => split end; try congruence.
  - rewrite HlI. cbn [app]. rewrite <- !app_assoc. reflexivity.
  - destruct (instancesDirty s).
    + destruct HsI as (arr & Harr & ->). exists arr.
      rewrite HidbA, HdA. repeat split; first [assumption|reflexivity].
    + subst sI. split; congruence.
Qed.

Lemma ready_config (s s' : State) :
  config s' = config s -> ready s -> ready s'.
Proof.
  intros H [Ha Hd]. split; [now apply (allocated_config s)|].
  apply config_fields in H.
  destruct H as (_ & _ & _ & _ & _ & _ & _ & _ & _ & _ & _ & H1 & H2 & H3 & _).
  now rewrite H1, H2, H3.
Qed.

Lemma reset_state_config converge (s : State) :
  config (reset_state converge s) = config s.
Proof. destruct converge; reflexivity. Qed.

(** [Render]: the reset, then the frame. *)
Lemma Render_post u view converge brightness contrast (s : State) :
  u \/ ready s ->
  post u (Render K view converge brightness contrast)
    (fun _ s' l =>
       exists lf, l = reset_events converge ++ lf /\
         frame_post view brightness contrast (reset_state converge s) s' lf)
    s.
Proof.
  intros Hs. unfold Render.
  apply post_bind. eapply post_mono.
  { apply Render_reset_post. destruct Hs as [Hu|[(_ & Ha & _) _]]; tauto. }
  intros [] s0 l0 H0. cbv beta.
  assert (E : l0 = reset_events converge /\ s0 = reset_state converge s).
  { destruct converge; [exact H0|].
    destruct H0 as (n & Hn & -> & ->). unfold reset_state. now rewrite Hn. }
  destruct E as [-> ->].
  eapply post_mono.
  { apply Render_frame_post. destruct Hs as [Hu|Hr]; [now left|right].
    apply (ready_config s); [apply reset_state_config|exact Hr]. }
  intros [] s' lf Hf. cbv beta. now exists lf.
Qed.

(** [SetTarget]. *)
Lemma SetTarget_post u target spp (s : State) :
  u \/ target_reallocates s target spp = true \/ is_Some (accumulator s) ->
  post u (SetTarget K target spp)
    (fun _ s' l =>
       let mp := if target_reallocates s target spp
                 then target_capacity target else maxPixels s in
       scrwidth s' = width target /\ scrheight s' = height target /\
       scrspp s' = spp /\ renderTarget s' = Some target /\
       maxPixels s' = mp /\ currentSPP s' = spp /\ samplesTaken s' = 0 /\
       ctx_scrsize (context s') = (width target, height target, spp) /\
       (if target_reallocates s target spp then
          connectionBuffer s' = Some (uint (mp * spp * 3 * MAXPATHLENGTH K)) /\
          accumulator s' = Some (uint (mp * 2)) /\
          hitBuffer s' = Some (uint (mp * spp)) /\
          pathStateBuffer s' = Some (uint (mp * spp * 3)) /\
          l = [EvDelete ConnectionBuffer; EvDelete Accumulator; EvDelete HitBuffer;
               EvDelete PathStateBuffer;
               EvNew ConnectionBuffer (uint (mp * spp * 3 * MAXPATHLENGTH K));
               EvNew Accumulator (uint (mp * 2));
               EvNew HitBuffer (uint (mp * spp));
               EvNew PathStateBuffer (uint (mp * spp * 3));
               EvClear Accumulator]
        else
          connectionBuffer s' = connectionBuffer s /\
          accumulator s' = accumulator s /\
          hitBuffer s' = hitBuffer s /\
          pathStateBuffer s' = pathStateBuffer s /\
          l = [EvClear Accumulator]) /\
       accData (device s') =
         replicate (Z.to_nat (4 * default 0 (accumulator s'))) 0 /\
       counterData (device s') = counterData (device s) /\
       instDescData (device s') = instDescData (device s) /\
       camRNGseed s' = camRNGseed s /\ probePos s' = probePos s /\
       instDescBuffer s' = instDescBuffer s /\
       meshes s' = meshes s /\ instances s' = instances s /\
       instancesDirty s' = instancesDirty s /\ topLevelDirty s' = topLevelDirty s /\
       vars s' = vars s /\ coreStats s' = coreStats s)
    s.
Proof.
  intros Hs.
  destruct s as [w h spp0 mp cspp st seed pp rt cb acc hb pb idb ch ms ins idirty tdirty
                 vs stats ctx dev].
  destruct target as [tw th].
  unfold post, SetTarget, needs_reallocate, target_reallocates, target_capacity,
    target_pixels in *.
  cbn [maxPixels currentSPP width height accumulator] in *.
  evaluate. cbn [width height] in *.
  destruct (uint (tw * th) >? mp) eqn:E1; [|destruct (spp =? cspp) eqn:E2].
  1,3: evaluate; repeat split; reflexivity.
  apply Z.eqb_eq in E2. subst cspp.
  destruct acc as [acc|]; evaluate.
  - repeat split; reflexivity.
  - destruct Hs as [Hs|[Hs|[? ?]]]; [exact Hs|discriminate..].
Qed.

(** ** Indexing the mesh and instance vectors *)

Lemma vec_at_Some {A} (v : list A) i x :
  vec_at v i = Some x -> 0 <= i < Z.of_nat (length v).
Proof.
  unfold vec_at. destruct (Z.leb_spec 0 i) as [Hi|Hi]; [|discriminate].
  intros Hl. apply lookup_lt_Some in Hl. lia.
Qed.

Lemma vec_at_None {A} (v : list A) i :
  vec_at v i = None <-> i < 0 \/ Z.of_nat (length v) <= i.
Proof.
  unfold vec_at. destruct (Z.leb_spec 0 i).
  - rewrite lookup_ge_None. lia.
  - split; [lia|reflexivity].
Qed.

Lemma vec_at_app_last {A} (v : list A) x :
  vec_at (v ++ [x]) (Z.of_nat (length v)) = Some x.
Proof.
  unfold vec_at. destruct (Z.leb_spec 0 (Z.of_nat (length v))); [|lia].
  rewrite Nat2Z.id. apply list_lookup_middle. reflexivity.
Qed.

Lemma vec_at_insert {A} (v : list A) i x y :
  vec_at v i = Some y -> vec_at (<[Z.to_nat i := x]> v) i = Some x.
Proof.
  intros Hy. pose proof (vec_at_Some _ _ _ Hy) as Hi.
  unfold vec_at. destruct (Z.leb_spec 0 i); [|lia].
  apply list_lookup_insert_eq. lia.
Qed.

Lemma insert_app_last {A} (v : list A) x y :
  <[Z.to_nat (Z.of_nat (length v)) := y]> (v ++ [x]) = v ++ [y].
Proof.
  rewrite Nat2Z.id. replace (length v) with (length v + 0)%nat at 1 by lia.
  now rewrite insert_app_r.
Qed.

(** The append test of the two setters, for an [int] index. *)
Lemma append_test (i : Z) (n : nat) :
  - 2 ^ 31 <= i < 2 ^ 31 -> 0 <= i ->
  (size_t_of_int i >=? Z.of_nat n) = (Z.of_nat n <=? i).
Proof.
  intros Hi H0. unfold size_t_of_int. rewrite Z.mod_small by lia.
  rewrite Z.geb_leb. reflexivity.
Qed.

(** [SetGeometry], by the position of the index. *)
Lemma SetGeometry_spec meshIdx g (s : State) :
  - 2 ^ 31 <= meshIdx < 2 ^ 31 ->
  SetGeometry K meshIdx g s =
    match vec_at (meshes s) meshIdx with
    | Some m =>
        Done (tt, set_meshes (<[Z.to_nat meshIdx := CoreMesh_SetGeometry K g m]> (meshes s)) s, [])
    | None =>
        if meshIdx =? Z.of_nat (length (meshes s))
        then Done (tt, set_meshes (meshes s ++ [CoreMesh_SetGeometry K g (new_CoreMesh K)]) s, [])
        else Undefined
    end.
Proof.
  intros Hi.
  destruct s as [w h spp0 mp cspp st seed pp rt cb acc hb pb idb ch ms ins idirty tdirty
                 vs stats ctx dev].
  unfold SetGeometry. evaluate_vectors.
  destruct (vec_at ms meshIdx) as [m|] eqn:E.
  - apply vec_at_Some in E as Hr. rewrite append_test by lia.
    destruct (Z.leb_spec (Z.of_nat (length ms)) meshIdx); [lia|].
    evaluate_vectors. rewrite E. reflexivity.
  - apply vec_at_None in E as Hr.
    destruct (meshIdx =? Z.of_nat (length ms)) eqn:E'.
    + apply Z.eqb_eq in E'. subst meshIdx. rewrite append_test by lia.
      rewrite Z.leb_refl. evaluate_vectors. rewrite vec_at_app_last.
      rewrite insert_app_last. reflexivity.
    + apply Z.eqb_neq in E'.
      destruct (size_t_of_int meshIdx >=? Z.of_nat (length ms)); evaluate_vectors.
      * replace (vec_at (ms ++ [new_CoreMesh K]) meshIdx) with (@None CoreMesh);
          [reflexivity|].
        symmetry. apply vec_at_None. rewrite length_app. cbn. lia.
      * rewrite E. reflexivity.
Qed.

(** [SetInstance], by the position of the index. *)
Lemma SetInstance_spec instanceIdx meshIdx matrix (s : State) :
  - 2 ^ 31 <= instanceIdx < 2 ^ 31 ->
  SetInstance K instanceIdx meshIdx matrix s =
    match vec_at (instances s) instanceIdx with
    | Some i =>
        Done (tt,
              set_topLevelDirty true
                (set_instances
                   (<[Z.to_nat instanceIdx := updated_instance meshIdx matrix i]>
                      (instances s)) s),
              [])
    | None =>
        if instanceIdx =? Z.of_nat (length (instances s)) then
          match vec_at (meshes s) meshIdx with
          | Some _ =>
              Done (tt,
                    set_topLevelDirty true
                      (set_instances
                         (instances s ++ [appended_instance instanceIdx meshIdx matrix]) s),
                    [])
          | None => Undefined
          end
        else Undefined
    end.
Proof.
  intros Hi.
  destruct s as [w h spp0 mp cspp st seed pp rt cb acc hb pb idb ch ms ins idirty tdirty
                 vs stats ctx dev].
  unfold SetInstance, update_instance, updated_instance, appended_instance.
  evaluate_vectors.
  destruct (vec_at ins instanceIdx) as [i|] eqn:E.
  - apply vec_at_Some in E as Hr. rewrite append_test by lia.
    destruct (Z.leb_spec (Z.of_nat (length ins)) instanceIdx); [lia|].
    evaluate_vectors. rewrite E. evaluate_vectors.
    rewrite (vec_at_insert _ _ _ _ E). evaluate_vectors.
    rewrite list_insert_insert_eq.
    destruct i as [im [it|] ig]; reflexivity.
  - apply vec_at_None in E as Hr.
    destruct (instanceIdx =? Z.of_nat (length ins)) eqn:E'.
    + apply Z.eqb_eq in E'. subst instanceIdx. rewrite append_test by lia.
      rewrite Z.leb_refl. evaluate_vectors.
      destruct (vec_at ms meshIdx) as [m|]; [|reflexivity].
      evaluate_vectors. rewrite vec_at_app_last. evaluate_vectors.
      rewrite insert_app_last, vec_at_app_last. evaluate_vectors.
      rewrite insert_app_last, vec_at_app_last. evaluate_vectors.
      rewrite insert_app_last, vec_at_app_last. evaluate_vectors.
      rewrite insert_app_last. reflexivity.
    + apply Z.eqb_neq in E'.
      destruct (size_t_of_int instanceIdx >=? Z.of_nat (length ins)); evaluate_vectors.
      * destruct (vec_at ms meshIdx) as [m|]; [|reflexivity]. evaluate_vectors.
        replace (vec_at (ins ++ [new_CoreInstance]) instanceIdx)
          with (@None CoreInstance); [reflexivity|].
        symmetry. apply vec_at_None. rewrite length_app. cbn. lia.
      * rewrite E. reflexivity.
Qed.

(** [Setting], by the name. *)
Lemma Setting_spec name value (s : State) :
  Setting name value s =
    Done (tt,
          if String.eqb name "epsilon" then
            if float_ne (geometryEpsilon (vars s)) value then
              set_context (set_ctx_geometryEpsilon (Some value) (context s))
                (set_device (set_dev_geometryEpsilon (Some value) (device s))
                   (set_vars (set_geometryEpsilon value (vars s)) s))
            else s
          else if String.eqb name "clampValue" then
            if float_ne (clampValue (vars s)) value then
              set_device (set_dev_clampValue value (device s))
                (set_vars (set_clampValue value (vars s)) s)
            else s
          else s,
          []).
Proof.
  destruct s as [w h spp0 mp cspp st seed pp rt cb acc hb pb idb ch ms ins idirty tdirty
                 [eps clamp] stats ctx dev].
  unfold Setting. cbn [vars geometryEpsilon clampValue].
  destruct (String.eqb name "epsilon"); [|destruct (String.eqb name "clampValue")].
  - destruct (float_ne eps value) eqn:E; evaluate; rewrite E; reflexivity.
  - destruct (float_ne clamp value) eqn:E; evaluate; rewrite E; reflexivity.
  - reflexivity.
Qed.

(** What the scene and settings methods leave alone. *)
Definition untouched_by_setters (s s' : State) : Prop :=
  scrwidth s' = scrwidth s /\ scrheight s' = scrheight s /\ scrspp s' = scrspp s /\
  maxPixels s' = maxPixels s /\ currentSPP s' = currentSPP s /\
  samplesTaken s' = samplesTaken s /\ camRNGseed s' = camRNGseed s /\
  connectionBuffer s' = connectionBuffer s /\ accumulator s' = accumulator s /\
  hitBuffer s' = hitBuffer s /\ pathStateBuffer s' = pathStateBuffer s /\
  instDescBuffer s' = instDescBuffer s /\ instancesDirty s' = instancesDirty s /\
  accData (device s') = accData (device s).

(** A body that issues no event and moves the state along [R] only. *)
Definition keeps (R : State -> State -> Prop) {A : Type} (m : Mon A) : Prop :=
  forall s, post True m (fun _ s' l => l = [] /\ R s s') s.

Section Keeps.

Variable R : State -> State -> Prop.
Hypothesis R_refl : forall s, R s s.
Hypothesis R_trans : forall s1 s2 s3, R s1 s2 -> R s2 s3 -> R s1 s3.

Lemma keeps_ret {A} (a : A) : keeps R (mret a).
Proof. intros s. split; [reflexivity|apply R_refl]. Qed.

Lemma keeps_this : keeps R this.
Proof. intros s. split; [reflexivity|apply R_refl]. Qed.

Lemma keeps_deref {A} (p : option A) : keeps R (deref p).
Proof. intros s. destruct p; [split; [reflexivity|apply R_refl]|exact I]. Qed.

Lemma keeps_modify f : (forall s, R s (f s)) -> keeps R (modify f).
Proof. intros Hf s. split; [reflexivity|apply Hf]. Qed.

Lemma keeps_bind {A B} (m : Mon A) (f : A -> Mon B) :
  keeps R m -> (forall a, keeps R (f a)) -> keeps R (m ≫= f).
Proof.
  intros Hm Hf s. apply post_bind. eapply post_mono; [apply Hm|].
  intros a s1 l1 [-> H1]. cbv beta. eapply post_mono; [apply Hf|].
  intros b s2 l2 [-> H2]. split; [reflexivity|]. now apply (R_trans _ s1).
Qed.

Lemma keeps_when (b : bool) m : keeps R m -> keeps R (when b m).
Proof. intros Hm. destruct b; [exact Hm|apply keeps_ret]. Qed.

End Keeps.

Lemma untouched_refl (s : State) : untouched_by_setters s s.
Proof. unfold untouched_by_setters. repeat split; reflexivity. Qed.

Lemma untouched_trans (s1 s2 s3 : State) :
  untouched_by_setters s1 s2 -> untouched_by_setters s2 s3 ->
  untouched_by_setters s1 s3.
Proof.
  unfold untouched_by_setters. intros H1 H2.
  repeat match goal with H : _ /\ _ |- _ => destruct H end.
  repeat split; congruence.
Qed.

Ltac keeps_step :=
  first
    [ apply (keeps_bind _ untouched_trans); [|intros ?]
    | apply (keeps_ret _ untouched_refl)
    | apply (keeps_this _ untouched_refl)
    | apply (keeps_deref _ untouched_refl)
    | apply (keeps_when _ untouched_refl)
    | apply keeps_modify; intros ?; unfold untouched_by_setters;
      repeat split; reflexivity ].

Lemma SetProbePos_keeps pos : keeps untouched_by_setters (SetProbePos pos).
Proof. unfold SetProbePos. keeps_step. Qed.

Lemma update_instance_keeps idx f : keeps untouched_by_setters (update_instance idx f).
Proof. unfold update_instance. repeat keeps_step. Qed.

Lemma SetGeometry_keeps meshIdx g : keeps untouched_by_setters (SetGeometry K meshIdx g).
Proof. unfold SetGeometry. repeat keeps_step. Qed.

Lemma SetInstance_keeps instanceIdx meshIdx matrix :
  keeps untouched_by_setters (SetInstance K instanceIdx meshIdx matrix).
Proof.
  unfold SetInstance.
  repeat first [apply update_instance_keeps | keeps_step].
Qed.

Lemma Setting_keeps name value : keeps untouched_by_setters (Setting name value).
Proof.
  unfold Setting, update_device, update_context.
  repeat case_match; repeat keeps_step.
Qed.

(** ** Calls and sequences of calls *)

Lemma frame_post_config view brightness contrast (s s' : State) l :
  frame_post view brightness contrast s s' l ->
  config s' = config s /\ samplesTaken s' = uint (samplesTaken s + scrspp s).
Proof.
  intros (sA & s1 & s2 & s3 & H). cbv zeta in H.
  repeat match goal with H : _ /\ _ |- _ => destruct H end.
  split; assumption.
Qed.

(** What a frame leaves: the configuration, and the sample counter advanced by
    [scrspp] from zero ([Restart]) or from its value ([Continue]). *)
Lemma Render_summary u view converge brightness contrast (s : State) :
  u \/ ready s ->
  post u (Render K view converge brightness contrast)
    (fun _ s' _ =>
       config s' = config s /\
       samplesTaken s' =
         uint (match converge with Restart => 0 | Continue => samplesTaken s end
               + scrspp s))
    s.
Proof.
  intros Hs. eapply post_mono; [apply Render_post, Hs|].
  intros [] s' l (lf & _ & Hf). apply frame_post_config in Hf.
  destruct Hf as [Hc Hst]. rewrite reset_state_config in Hc.
  split; [exact Hc|]. rewrite Hst. destruct converge; reflexivity.
Qed.

Lemma uint_add_l a b : uint (uint a + b) = uint (a + b).
Proof. unfold uint. now rewrite Zplus_mod_idemp_l. Qed.

Lemma call_samplesTaken c (s : State) n :
  samplesTaken s = uint (scrspp s * n) ->
  post True (call K c)
    (fun _ s' _ => samplesTaken s' = uint (scrspp s' * frames_since_reset [c] n)) s.
Proof.
  intros Hn. destruct c as [pos|target spp|meshIdx g|instanceIdx meshIdx matrix|name value|
                            view converge brightness contrast]; cbn [call frames_since_reset].
  - eapply post_mono; [apply SetProbePos_keeps|].
    intros [] s' l [_ H]. unfold untouched_by_setters in H.
    destruct H as (_ & _ & H1 & _ & _ & H2 & _). now rewrite H1, H2.
  - eapply post_mono; [apply SetTarget_post; now left|].
    intros [] s' l H. cbv zeta in H. destruct H as (_ & _ & _ & _ & _ & _ & H & _).
    rewrite H, Z.mul_0_r. reflexivity.
  - eapply post_mono; [apply SetGeometry_keeps|].
    intros [] s' l [_ H]. unfold untouched_by_setters in H.
    destruct H as (_ & _ & H1 & _ & _ & H2 & _). now rewrite H1, H2.
  - eapply post_mono; [apply SetInstance_keeps|].
    intros [] s' l [_ H]. unfold untouched_by_setters in H.
    destruct H as (_ & _ & H1 & _ & _ & H2 & _). now rewrite H1, H2.
  - eapply post_mono; [apply Setting_keeps|].
    intros [] s' l [_ H]. unfold untouched_by_setters in H.
    destruct H as (_ & _ & H1 & _ & _ & H2 & _). now rewrite H1, H2.
  - eapply post_mono; [apply Render_summary; now left|].
    intros [] s' l [Hc Hst]. apply config_fields in Hc.
    destruct Hc as (_ & _ & Hspp & _). rewrite Hst, Hspp.
    destruct converge.
    + rewrite Hn, uint_add_l. f_equal. lia.
    + f_equal. lia.
Qed.

Lemma call_instancesDirty c (s : State) :
  post True (call K c) (fun _ s' _ => instancesDirty s' = instancesDirty s) s.
Proof.
  destruct c as [pos|target spp|meshIdx g|instanceIdx meshIdx matrix|name value|
                 view converge brightness contrast]; cbn [call].
  - eapply post_mono; [apply SetProbePos_keeps|].
    intros [] s' l [_ H]. apply H.
  - eapply post_mono; [apply SetTarget_post; now left|].
    intros [] s' l H. cbv zeta in H. tauto.
  - eapply post_mono; [apply SetGeometry_keeps|].
    intros [] s' l [_ H]. apply H.
  - eapply post_mono; [apply SetInstance_keeps|].
    intros [] s' l [_ H]. apply H.
  - eapply post_mono; [apply Setting_keeps|].
    intros [] s' l [_ H]. apply H.
  - eapply post_mono; [apply Render_summary; now left|].
    intros [] s' l [Hc _]. apply config_fields in Hc. tauto.
Qed.

(** A run of [c :: rest] that returns is a run of [c] followed by one of
    [rest]. *)
Lemma run_cons c rest (s s' : State) l :
  run K (c :: rest) s = Done (tt, s', l) ->
  exists s1 l1 l2, call K c s = Done (tt, s1, l1) /\
    run K rest s1 = Done (tt, s', l2) /\ l = l1 ++ l2.
Proof.
  cbn [run]. unfold mbind, M_bind, bind.
  destruct (call K c s) as [[[[] s1] l1]|] eqn:E1; [|discriminate].
  destruct (run K rest s1) as [[[[] s2] l2]|] eqn:E2; [|discriminate].
  intros H. injection H as <- <-. exists s1, l1, l2. repeat split; assumption.
Qed.

Lemma frames_since_reset_cons c rest n :
  frames_since_reset (c :: rest) n =
  frames_since_reset rest (frames_since_reset [c] n).
Proof. destruct c as [| | | | |view [|] b co]; reflexivity. Qed.

Lemma run_Render_returns cs (s : State) :
  ready s -> Forall is_Render cs -> exists s' l, run K cs s = Done (tt, s', l).
Proof.
  intros Hr Hcs. revert s Hr.
  induction Hcs as [|c rest Hc _ IH]; intros s Hr.
  - now exists s, [].
  - destruct c as [| | | | |view converge b co]; try contradiction.
    destruct (post_returns _ _ _ (Render_summary False view converge b co s (or_intror Hr)))
      as ([] & s1 & l1 & E1 & Hc1 & _).
    destruct (IH s1 (ready_config s s1 Hc1 Hr)) as (s' & l2 & E2).
    exists s', (l1 ++ l2). cbn [run call]. unfold mbind, M_bind, bind.
    now rewrite E1, E2.
Qed.

(** * The accumulator and its sample counter *)

(** C1: after any sequence of calls, [samplesTaken] is [scrspp] times the
    number of [Render] calls since the last reset, in the 32-bit arithmetic of
    the counter: every [Render] adds [scrspp], [Render] in mode [Restart] and
    [SetTarget] start from zero.  The product is the exact value as long as
    it fits the counter.  A sequence of [Render] calls on a core that is
    ready to render always returns. *)
Theorem samplesTaken_counts_frames (cs : list Call) (s : State) (n : Z) :
  samplesTaken s = uint (scrspp s * n) ->
  (forall s' l, run K cs s = Done (tt, s', l) ->
     samplesTaken s' = uint (scrspp s' * frames_since_reset cs n) /\
     (0 <= scrspp s' * frames_since_reset cs n < 2 ^ 32 ->
      samplesTaken s' = scrspp s' * frames_since_reset cs n)) /\
  (ready s -> Forall is_Render cs -> exists s' l, run K cs s = Done (tt, s', l)).
Proof.
  intros Hn. split; [|apply run_Render_returns].
  assert (H : forall s' l, run K cs s = Done (tt, s', l) ->
            samplesTaken s' = uint (scrspp s' * frames_since_reset cs n)).
  { revert s n Hn. induction cs as [|c rest IH]; intros s n Hn s' l Hrun.
    - injection Hrun as <- <-. exact Hn.
    - apply run_cons in Hrun. destruct Hrun as (s1 & l1 & l2 & E1 & E2 & _).
      rewrite frames_since_reset_cons.
      apply (IH s1 _ (post_Done _ _ _ _ _ _ _ (call_samplesTaken c s n Hn) E1) s' l2 E2). }
  intros s' l Hrun. split; [now apply (H s' l)|].
  intros Hfit. rewrite (H s' l Hrun). unfold uint. now apply Z.mod_small.
Qed.

(** C2: [Render] in mode [Restart] first clears the accumulator, zeroes the
    sample counter and sets the seed to 0x12345678, whatever the state was;
    the clearing is a memory fill, not a dispatch, and the frame, with all its
    dispatches, runs on the state so reset: the device memory the first
    dispatch works on holds a zeroed accumulator, every shading pass is
    numbered 0 and the first random number is drawn from the fixed seed. *)
Theorem Render_Restart_resets view brightness contrast (s : State) (n : Z) :
  accumulator s = Some n ->
  let s0 := reset_state Restart s in
  Render_reset Restart s = Done (tt, s0, [EvClear Accumulator]) /\
  is_dispatch (@EvClear ViewPyramid Accumulator) = false /\
  accData (device s0) = replicate (Z.to_nat (4 * n)) 0 /\
  samplesTaken s0 = 0 /\
  camRNGseed s0 = 0x12345678 /\
  Render K view Restart brightness contrast s =
    match Render_frame K view brightness contrast s0 with
    | Done (x, s', lf) => Done (x, s', EvClear Accumulator :: lf)
    | Undefined => Undefined
    end /\
  (ready s ->
   exists s' lf sA a1 c1 rest,
     Render_frame K view brightness contrast s0 = Done (tt, s', lf) /\
     let p0 := uint (scrwidth s * scrheight s * scrspp s) in
     lf = instance_events s0 ++
          [EvInitCountersForExtend p0; EvLaunch 0 p0; EvShade a1; EvCopyToHost c1] ++ rest /\
     Forall (fun e => is_dispatch e = false) (instance_events s0) /\
     accData (device sA) = replicate (Z.to_nat (4 * n)) 0 /\
     counterData (bounce_device view 1 p0 sA) = c1 /\
     sa_pass a1 = 0 /\
     sa_R0 a1 = fst (RandomUInt K 0x12345678) /\
     Forall (fun e => match e with EvShade a => sa_pass a = 0 | _ => True end) lf).
Proof.
  intros Hacc s0.
  assert (E0 : Render_reset Restart s = Done (tt, s0, [EvClear Accumulator])).
  { pose proof (Render_reset_post False Restart s) as H.
    unfold post in H.
    destruct (Render_reset Restart s) as [[[[] s1] l1]|].
    - destruct H as (m & Hm & -> & ->); [right; now rewrite Hacc|].
      subst s0. unfold reset_state. now rewrite Hm.
    - destruct H. right. now rewrite Hacc. }
  assert (Hdev : accData (device s0) = replicate (Z.to_nat (4 * n)) 0).
  { subst s0. unfold reset_state. rewrite Hacc. reflexivity. }
  repeat split; try assumption; try reflexivity.
  - unfold Render, mbind, M_bind, bind. rewrite E0.
    destruct (Render_frame K view brightness contrast s0) as [[[x s'] lf]|]; reflexivity.
  - intros Hr.
    assert (Hr0 : ready s0) by (apply (ready_config s); [reflexivity|exact Hr]).
    destruct (post_returns _ _ _
                (Render_frame_post False view brightness contrast s0 (or_intror Hr0)))
      as ([] & s' & lf & E & sA & s1 & s2 & s3 & H).
    cbv zeta in H. destruct H as (Hl & HA & _ & HseedA & Hd1 & _).
    change (scrwidth s0) with (scrwidth s) in *.
    change (scrheight s0) with (scrheight s) in *.
    change (scrspp s0) with (scrspp s) in *.
    change (samplesTaken s0) with 0 in *.
    change (camRNGseed s0) with 0x12345678 in *.
    unfold bounce_events in Hl. cbn [Z.eqb Pos.eqb app] in Hl.
    eexists s', lf, sA, _, _, _. split; [exact E|]. cbv zeta.
    split; [exact Hl|].
    split; [unfold instance_events; repeat case_match; repeat constructor|].
    split.
    { destruct (instancesDirty s0).
      - destruct HA as (arr & _ & _ & ->). exact Hdev.
      - destruct HA as [_ ->]. exact Hdev. }
    split; [now rewrite <- Hd1|].
    split; [reflexivity|].
    split; [cbn [shade_args sa_R0]; now rewrite HseedA|].
    rewrite Hl. apply Forall_app. split.
    { unfold instance_events; repeat case_match; repeat constructor. }
    repeat constructor.
Qed.

(** * The frame *)




(** C4: [Render] launches the shadow rays once, after the three bounces and
    before the presentation; the size of the launch is the shadow-ray counter
    read back after the last shading.  With kernels whose shadow-ray counter
    is zeroed before the first bounce and then only added to by shading, that
    value is the sum of what the three shading dispatches added. *)
Theorem shadow_connect_once view converge brightness contrast (s : State) :
  ready s ->
  exists s' l pre (a1 a2 a3 : ShadeArgs) (c1 c2 c3 : Counters) (d1 d2 d3 : Device),
    Render K view converge brightness contrast s = Done (tt, s', l) /\
    l = pre ++
        [EvShade a1; EvCopyToHost c1] ++
        [EvCopyToHost c1; EvInitCountersSubsequent; EvLaunch 1 (extensionRays c1);
         EvShade a2; EvCopyToHost c2] ++
        [EvCopyToHost c2; EvInitCountersSubsequent; EvLaunch 1 (extensionRays c2);
         EvShade a3; EvCopyToHost c3] ++
        [EvLaunch 2 (shadowRays c3);
         EvFinalize (scrwidth s) (scrheight s) (samplesTaken s')] /\
    Forall (fun e => match e with EvLaunch phase _ => phase <> 2 | _ => True end) pre /\
    st_totalShadowRays (coreStats s') = shadowRays c3 /\
    c1 = counterData (k_shade K a1 d1) /\
    c2 = counterData (k_shade K a2 d2) /\
    c3 = counterData (k_shade K a3 d3) /\
    (shadow_counter_accumulates ->
     shadowRays c3 =
       shadow_contribution a1 d1 + shadow_contribution a2 d2 + shadow_contribution a3 d3).
Proof.
  intros Hr.
  destruct (post_returns _ _ _
              (Render_post False view converge brightness contrast s (or_intror Hr)))
    as ([] & s' & l & E & lf & -> & sA & s1 & s2 & s3 & H).
  cbv zeta in H.
  destruct H as (Hl & _ & _ & _ & Hd1 & Hd2 & Hd3 & _ & _ & _ & HcA & Hc1 & Hc2 & _ &
                 HstA & Hst1 & Hst2 & _ & _ & _ & _ & _ & Hst & Hts & _).
  assert (Hw : scrwidth (reset_state converge s) = scrwidth s) by now destruct converge.
  assert (Hh : scrheight (reset_state converge s) = scrheight s) by now destruct converge.
  assert (Hp : scrspp (reset_state converge s) = scrspp s) by now destruct converge.
  rewrite Hw, Hh, Hp in *.
  unfold bounce_events in Hl. cbn [Z.eqb Pos.eqb] in Hl.
  set (p0 := uint (scrwidth s * scrheight s * scrspp s)) in *.
  unfold bounce_device in Hd1, Hd2, Hd3.
  rewrite (shade_args_config view 1 _ _ _ sA HcA HstA) in Hd1.
  rewrite (shade_args_config view 2 _ _ _ s1 Hc1 Hst1) in Hd2.
  rewrite (shade_args_config view 3 _ _ _ s2 Hc2 Hst2) in Hd3.
  eexists s', _,
    (reset_events converge ++ instance_events (reset_state converge s) ++
     [EvInitCountersForExtend p0; EvLaunch 0 p0]),
    _, _, _, _, _, _,
    (extended_device 1 p0 sA),
    (extended_device 2 (extensionRays (counterData (device s1))) s1),
    (extended_device 3 (extensionRays (counterData (device s2))) s2).
  split; [exact E|].
  split; [rewrite Hl, Hst, <- !app_assoc; reflexivity|].
  split.
  { apply Forall_app. split; [destruct converge; repeat constructor|].
    apply Forall_app. split.
    - unfold instance_events. repeat case_match; repeat constructor.
    - repeat constructor; discriminate. }
  split; [exact Hts|].
  split; [now rewrite Hd1|]. split; [now rewrite Hd2|]. split; [now rewrite Hd3|].
  intros (Hinit & Hsub & Hlaunch).
  unfold shadow_contribution.
  change (k_shade K _ (extended_device 1 p0 sA)) with
    (k_shade K (shade_args view 1 p0 (fst (RandomUInt K (camRNGseed sA)))
                  (reset_state converge s))
       (extended_device 1 p0 sA)).
  unfold extended_device at 2 4 6. cbn [Z.eqb Pos.eqb].
  rewrite !Hlaunch by (cbn; discriminate).
  rewrite Hinit, !Hsub.
  fold (extended_device 1 p0 sA).
  fold (extended_device 2 (extensionRays (counterData (device s1))) s1).
  fold (extended_device 3 (extensionRays (counterData (device s2))) s2).
  unfold extended_device in Hd1, Hd2, Hd3. cbn [Z.eqb Pos.eqb] in Hd1, Hd2, Hd3.
  unfold extended_device. cbn [Z.eqb Pos.eqb].
  rewrite <- Hd1, <- Hd2, <- Hd3. lia.
Qed.

Lemma run_instancesDirty cs (s s' : State) l :
  run K cs s = Done (tt, s', l) -> instancesDirty s' = instancesDirty s.
Proof.
  revert s l. induction cs as [|c rest IH]; intros s l Hrun.
  - now injection Hrun as <- <-.
  - apply run_cons in Hrun. destruct Hrun as (s1 & l1 & l2 & E1 & E2 & _).
    rewrite (IH _ _ E2).
    apply (post_Done _ _ _ _ _ _ _ (call_instancesDirty c s) E1).
Qed.

(** The descriptor array, when the loop of lines 461-476 is defined: one
    descriptor per instance, in the order of the instances, with the
    triangles of the instance's mesh and the inverse matrix of its transform
    (the identity without a transform). *)
Lemma instDescArray_Some ms insts arr :
  instDescArray K ms insts = Some arr ->
  length arr = length insts /\
  forall (i : nat) inst, insts !! i = Some inst ->
    exists m,
      vec_at ms (mesh inst) = Some m /\
      arr !! i = Some {| triangles := triangles_DevPtr K m;
                         invTransform := match transform inst with
                                         | Some t => t_inverse t
                                         | None => mat4_Identity
                                         end |}.
Proof.
  unfold instDescArray. intros H. apply mapM_Some in H. split.
  - symmetry. apply (Forall2_length _ _ _ H).
  - intros i inst Hi.
    destruct (Forall2_lookup_l _ _ _ _ _ H Hi) as (d & Hd & Hdesc).
    unfold instanceDesc in Hdesc.
    destruct (vec_at ms (mesh inst)) as [m|]; [|discriminate].
    exists m. split; [reflexivity|].
    cbn in Hdesc. injection Hdesc as <-. exact Hd.
Qed.

(** C10: no call clears [instancesDirty].  Once it is set, every [Render]
    that returns has rebuilt the full descriptor array from the instances
    (one descriptor per instance, in their order, each with the triangles of
    the instance's mesh and the inverse matrix of its transform), copied it
    into the host side of the descriptor buffer and sent the buffer to the
    device, and has left the flag set for the next frame. *)
Theorem instancesDirty_never_cleared (cs : list Call) (s s' : State) l
    view converge brightness contrast :
  instancesDirty s = true ->
  run K cs s = Done (tt, s', l) ->
  instancesDirty s' = true /\
  forall s'' l',
    Render K view converge brightness contrast s' = Done (tt, s'', l') ->
    instancesDirty s'' = true /\
    exists arr pre rest size tail,
      instDescArray K (meshes s') (instances s') = Some arr /\
      length arr = length (instances s') /\
      (forall (i : nat) inst, instances s' !! i = Some inst ->
         exists m,
           vec_at (meshes s') (mesh inst) = Some m /\
           arr !! i = Some {| triangles := triangles_DevPtr K m;
                              invTransform := match transform inst with
                                              | Some t => t_inverse t
                                              | None => mat4_Identity
                                              end |}) /\
      l' = pre ++ EvCopyToDevice InstDescBuffer :: rest /\
      instDescBuffer s'' = Some (size, (Some <$> arr) ++ tail) /\
      Z.of_nat (length (instances s')) <= size.
Proof.
  intros Hd Hrun.
  assert (Hd' : instancesDirty s' = true) by (rewrite <- Hd; eapply run_instancesDirty, Hrun).
  split; [exact Hd'|].
  intros s'' l' E.
  pose proof (post_Done _ _ _ _ _ _ _
                (Render_post True view converge brightness contrast s' (or_introl I)) E)
    as (lf & -> & sA & s1 & s2 & s3 & H).
  cbv zeta in H.
  destruct H as (Hl & HA & _ & _ & _ & _ & _ & _ & _ & _ & _ & _ & _ & _ & _ & _ & _ &
                 _ & _ & _ & _ & Hidb & _ & _ & _ & _ & _ & _ & _ & Hc & _).
  set (s0 := reset_state converge s') in *.
  assert (H0 : instancesDirty s0 = true /\ meshes s0 = meshes s' /\
               instances s0 = instances s' /\ instDescBuffer s0 = instDescBuffer s').
  { subst s0. destruct converge; repeat split; assumption. }
  destruct H0 as (Hd0 & Hm0 & Hi0 & Hb0).
  split.
  { apply config_fields in Hc. destruct Hc as (_ & _ & _ & _ & _ & _ & _ & _ & _ & _ & _ &
                                               _ & _ & -> & _). exact Hd0. }
  rewrite Hd0 in HA. destruct HA as (arr & Harr & HidbA & _).
  rewrite Hm0, Hi0 in Harr.
  exists arr, (reset_events converge ++
               if instDesc_realloc s0
               then [EvDelete InstDescBuffer;
                     EvNew InstDescBuffer (Z.of_nat (length (instances s0)) * 2)]
               else []).
  eexists _, (fst (instDesc_rebuilt s0 arr)), _.
  split; [exact Harr|].
  split; [exact (proj1 (instDescArray_Some _ _ _ Harr))|].
  split; [exact (proj2 (instDescArray_Some _ _ _ Harr))|].
  split.
  { rewrite Hl. unfold instance_events. rewrite Hd0.
    rewrite <- !app_assoc. cbn [app]. reflexivity. }
  split.
  { rewrite Hidb, HidbA. reflexivity. }
  unfold instDesc_rebuilt, instDesc_realloc. rewrite Hi0, Hb0.
  destruct (instDescBuffer s') as [[size host]|]; cbn [fst].
  - destruct (Z.ltb_spec size (Z.of_nat (length (instances s')))); cbn; lia.
  - cbn. lia.
Qed.

(** * The render target and its buffers *)

Lemma target_reallocates_true (s : State) target spp :
  target_reallocates s target spp = true <->
  maxPixels s < target_pixels target \/ spp <> currentSPP s.
Proof.
  unfold target_reallocates.
  rewrite orb_true_iff, negb_true_iff, Z.gtb_ltb, Z.ltb_lt, Z.eqb_neq. reflexivity.
Qed.

Lemma target_reallocates_false (s : State) target spp :
  target_reallocates s target spp = false <->
  target_pixels target <= maxPixels s /\ spp = currentSPP s.
Proof.
  unfold target_reallocates.
  rewrite orb_false_iff, negb_false_iff, Z.gtb_ltb, Z.ltb_ge, Z.eqb_eq. reflexivity.
Qed.

Lemma target_pixels_nonneg target : 0 <= target_pixels target.
Proof. unfold target_pixels, uint. apply Z.mod_pos_bound. lia. Qed.

Lemma target_capacity_fits target :
  target_fits target ->
  target_capacity target = target_pixels target + target_pixels target / 16.
Proof.
  intros Hfit. unfold target_capacity, target_fits in *.
  rewrite Z.shiftr_div_pow2 by lia. change (2 ^ 4) with 16.
  unfold uint. apply Z.mod_small.
  pose proof (target_pixels_nonneg target).
  assert (0 <= target_pixels target / 16) by (apply Z.div_pos; lia). lia.
Qed.

(** C5, as the code has it: [SetTarget] reallocates exactly when the pixel
    count of the target exceeds [maxPixels] or the sample count differs from
    [currentSPP].  The new capacity is the pixel count plus a sixteenth of it
    (it does not depend on the previous capacity); the connection,
    accumulator, hit and path-state buffers are deleted and allocated anew
    together, sized from the new capacity.  Without reallocation the capacity
    and the buffers stay.  In both cases the accumulator is cleared and the
    sample counter zeroed. *)
Theorem SetTarget_reallocation target spp (s : State) :
  (maxPixels s < target_pixels target \/ spp <> currentSPP s) \/
  is_Some (accumulator s) ->
  exists s' l mp,
    SetTarget K target spp s = Done (tt, s', l) /\
    maxPixels s' = mp /\ currentSPP s' = spp /\
    ((maxPixels s < target_pixels target \/ spp <> currentSPP s) ->
       mp = uint (target_pixels target + Z.shiftr (target_pixels target) 4) /\
       (target_fits target -> mp = target_pixels target + target_pixels target / 16) /\
       connectionBuffer s' = Some (uint (mp * spp * 3 * MAXPATHLENGTH K)) /\
       accumulator s' = Some (uint (mp * 2)) /\
       hitBuffer s' = Some (uint (mp * spp)) /\
       pathStateBuffer s' = Some (uint (mp * spp * 3)) /\
       l = [EvDelete ConnectionBuffer; EvDelete Accumulator; EvDelete HitBuffer;
            EvDelete PathStateBuffer;
            EvNew ConnectionBuffer (uint (mp * spp * 3 * MAXPATHLENGTH K));
            EvNew Accumulator (uint (mp * 2));
            EvNew HitBuffer (uint (mp * spp));
            EvNew PathStateBuffer (uint (mp * spp * 3));
            EvClear Accumulator]) /\
    ((target_pixels target <= maxPixels s /\ spp = currentSPP s) ->
       mp = maxPixels s /\
       connectionBuffer s' = connectionBuffer s /\ accumulator s' = accumulator s /\
       hitBuffer s' = hitBuffer s /\ pathStateBuffer s' = pathStateBuffer s /\
       l = [EvClear Accumulator]) /\
    accData (device s') = replicate (Z.to_nat (4 * default 0 (accumulator s'))) 0 /\
    samplesTaken s' = 0.
Proof.
  intros Hs.
  assert (Hpre : False \/ target_reallocates s target spp = true \/ is_Some (accumulator s)).
  { right. destruct Hs as [Hs|Hs]; [left; now apply target_reallocates_true|now right]. }
  destruct (post_returns _ _ _ (SetTarget_post False target spp s Hpre))
    as ([] & s' & l & E & H).
  cbv zeta in H.
  destruct H as (_ & _ & _ & _ & Hmp & Hc & Hst & _ & Hb & Hacc & _).
  exists s', l, (maxPixels s'). split; [exact E|]. split; [reflexivity|].
  split; [exact Hc|].
  split; [|split; [|split; assumption]].
  - intros Hre. apply target_reallocates_true in Hre. rewrite Hre in Hmp, Hb.
    rewrite Hmp. split; [reflexivity|].
    split; [|exact Hb].
    intros Hfit. now apply target_capacity_fits.
  - intros Hno. apply target_reallocates_false in Hno. rewrite Hno in Hmp, Hb.
    split; assumption.
Qed.

(** One [SetTarget] that keeps the sample count. *)
Lemma SetTarget_same_spp target (s : State) :
  is_Some (accumulator s) -> target_fits target ->
  exists s' l,
    SetTarget K target (currentSPP s) s = Done (tt, s', l) /\
    maxPixels s <= maxPixels s' /\ target_pixels target <= maxPixels s' /\
    currentSPP s' = currentSPP s /\ is_Some (accumulator s') /\
    (target_pixels target <= maxPixels s ->
     maxPixels s' = maxPixels s /\ l = [EvClear Accumulator]).
Proof.
  intros Hacc Hfit.
  destruct (post_returns _ _ _
              (SetTarget_post False target (currentSPP s) s (or_intror (or_intror Hacc))))
    as ([] & s' & l & E & H).
  cbv zeta in H.
  destruct H as (_ & _ & _ & _ & Hmp & Hc & _ & _ & Hb & _).
  exists s', l. split; [exact E|].
  pose proof (target_pixels_nonneg target) as H0.
  assert (H16 : 0 <= target_pixels target / 16) by (apply Z.div_pos; lia).
  destruct (target_reallocates s target (currentSPP s)) eqn:Hre.
  - apply target_reallocates_true in Hre. destruct Hre as [Hgt|Hne]; [|congruence].
    destruct Hb as (_ & Ha & _).
    rewrite Hmp, Ha, (target_capacity_fits _ Hfit).
    repeat split; try lia; try assumption; eauto.
  - apply target_reallocates_false in Hre. destruct Hre as [Hle _].
    destruct Hb as (_ & Ha & _ & _ & Hl).
    rewrite Hmp, Ha. repeat split; try assumption; lia.
Qed.

(** C6, as the code has it: along [SetTarget] calls that keep the sample
    count, the capacity [maxPixels] never decreases, it covers every
    resolution requested so far, and a call with a resolution that was
    requested before reallocates nothing: it only clears the accumulator. *)
Theorem SetTarget_same_spp_capacity (ts : list GLTexture) (s : State) :
  is_Some (accumulator s) -> Forall target_fits ts ->
  exists s' l,
    run K (map (fun t => CallSetTarget t (currentSPP s)) ts) s = Done (tt, s', l) /\
    maxPixels s <= maxPixels s' /\
    currentSPP s' = currentSPP s /\ is_Some (accumulator s') /\
    forall t, In t ts ->
      target_pixels t <= maxPixels s' /\
      exists s'', SetTarget K t (currentSPP s) s' = Done (tt, s'', [EvClear Accumulator]) /\
                  maxPixels s'' = maxPixels s'.
Proof.
  intros Hacc Hts. revert s Hacc.
  induction Hts as [|t ts Ht _ IH]; intros s Hacc.
  - exists s, []. repeat split; try reflexivity; try assumption; try lia; contradiction.
  - destruct (SetTarget_same_spp t s Hacc Ht) as (s1 & l1 & E1 & Hm1 & Hp1 & Hc1 & Ha1 & _).
    destruct (IH s1 Ha1) as (s' & l2 & E2 & Hm2 & Hc2 & Ha2 & Hin).
    rewrite Hc1 in *.
    exists s', (l1 ++ l2). cbn [map run call]. unfold mbind, M_bind, bind.
    rewrite E1, E2.
    split; [reflexivity|]. split; [lia|]. split; [congruence|]. split; [assumption|].
    intros t' [<-|Hin'].
    + split; [lia|].
      assert (Hfit : target_fits t) by exact Ht.
      destruct (SetTarget_same_spp t s' Ha2 Hfit) as (s'' & l'' & E'' & _ & _ & _ & _ & Hsame).
      rewrite Hc2 in E''. destruct Hsame as [Hmp ->]; [lia|].
      now exists s''.
    + apply Hin, Hin'.
Qed.

(** * The scene *)

Lemma updated_instance_idem meshIdx matrix i :
  updated_instance meshIdx matrix (updated_instance meshIdx matrix i) =
  updated_instance meshIdx matrix i.
Proof. destruct i as [m [t|] g]; reflexivity. Qed.

Lemma updated_appended instanceIdx meshIdx matrix :
  updated_instance meshIdx matrix (appended_instance instanceIdx meshIdx matrix) =
  appended_instance instanceIdx meshIdx matrix.
Proof. reflexivity. Qed.

Lemma set_instances_twice x y (s : State) :
  set_topLevelDirty true (set_instances x (set_topLevelDirty true (set_instances y s))) =
  set_topLevelDirty true (set_instances x s).
Proof. reflexivity. Qed.

(** C7: a second [SetInstance] with the same instance index, mesh index and
    matrix returns and changes nothing: the state after it is the state after
    the first call, so the instance refers to the same mesh and the
    descriptor array built from the instances is the same. *)
Theorem SetInstance_idempotent instanceIdx meshIdx matrix (s s1 : State) l1 :
  - 2 ^ 31 <= instanceIdx < 2 ^ 31 ->
  SetInstance K instanceIdx meshIdx matrix s = Done (tt, s1, l1) ->
  SetInstance K instanceIdx meshIdx matrix s1 = Done (tt, s1, []) /\
  mesh <$> vec_at (instances s1) instanceIdx = Some meshIdx /\
  forall s2 l2,
    SetInstance K instanceIdx meshIdx matrix s1 = Done (tt, s2, l2) ->
    mesh <$> vec_at (instances s2) instanceIdx = mesh <$> vec_at (instances s1) instanceIdx /\
    instDescArray K (meshes s2) (instances s2) = instDescArray K (meshes s1) (instances s1).
Proof.
  intros Hi E1.
  assert (H : SetInstance K instanceIdx meshIdx matrix s1 = Done (tt, s1, []) /\
              mesh <$> vec_at (instances s1) instanceIdx = Some meshIdx).
  { rewrite SetInstance_spec in E1 by exact Hi.
    rewrite SetInstance_spec by exact Hi.
    destruct (vec_at (instances s) instanceIdx) as [i|] eqn:E.
    - injection E1 as <- <-. cbn [instances set_topLevelDirty set_instances].
      rewrite (vec_at_insert _ _ _ _ E). rewrite list_insert_insert_eq.
      rewrite updated_instance_idem, set_instances_twice.
      split; [reflexivity|]. destruct i as [m [t|] g]; reflexivity.
    - destruct (Z.eqb_spec instanceIdx (Z.of_nat (length (instances s)))) as [->|];
        [|discriminate].
      destruct (vec_at (meshes s) meshIdx); [|discriminate].
      injection E1 as <- <-. cbn [instances set_topLevelDirty set_instances].
      rewrite vec_at_app_last, insert_app_last, updated_appended, set_instances_twice.
      split; reflexivity. }
  destruct H as [E2 Hm]. split; [exact E2|]. split; [exact Hm|].
  intros s2 l2 E. rewrite E2 in E. injection E as <- <-. split; reflexivity.
Qed.

(** C8: [Setting] knows the names "epsilon" and "clampValue".  For either it
    stores the value in the render settings and hands it to the device,
    unless the stored value already compares equal to it; for any other name
    it returns without touching the state.  It never fails. *)
Theorem Setting_names name value (s : State) :
  exists s',
    Setting name value s = Done (tt, s', []) /\
    (name = "epsilon"%string ->
       clampValue (vars s') = clampValue (vars s) /\
       if float_ne (geometryEpsilon (vars s)) value
       then geometryEpsilon (vars s') = value /\
            dev_geometryEpsilon (device s') = Some value /\
            ctx_geometryEpsilon (context s') = Some value
       else s' = s) /\
    (name = "clampValue"%string ->
       geometryEpsilon (vars s') = geometryEpsilon (vars s) /\
       if float_ne (clampValue (vars s)) value
       then clampValue (vars s') = value /\ dev_clampValue (device s') = value
       else s' = s) /\
    (name <> "epsilon"%string -> name <> "clampValue"%string -> s' = s).
Proof.
  eexists. split; [apply Setting_spec|].
  split; [|split].
  - intros ->. cbn [String.eqb Ascii.eqb Bool.eqb].
    destruct (float_ne (geometryEpsilon (vars s)) value); repeat split; reflexivity.
  - intros ->. cbn [String.eqb Ascii.eqb Bool.eqb].
    destruct (float_ne (clampValue (vars s)) value); repeat split; reflexivity.
  - intros H1 H2.
    destruct (String.eqb_spec name "epsilon"); [contradiction|].
    destruct (String.eqb_spec name "clampValue"); [contradiction|]. reflexivity.
Qed.

(** C9: for an index equal to the size of the vector, [SetGeometry] and
    [SetInstance] append a mesh, an instance; for a smaller index they change
    the element in place and the vector keeps its length.  No other index is
    checked for: the methods index the vector outside its range, which is
    undefined behaviour and not a reported error ([SetInstance] does the same
    with a mesh index outside the meshes when it appends, and stores it
    unchecked when it updates). *)
Theorem append_or_update idx g meshIdx matrix (s : State) :
  - 2 ^ 31 <= idx < 2 ^ 31 ->
  (* SetGeometry *)
  (idx = Z.of_nat (length (meshes s)) ->
     exists s', SetGeometry K idx g s = Done (tt, s', []) /\
       meshes s' = meshes s ++ [CoreMesh_SetGeometry K g (new_CoreMesh K)]) /\
  (0 <= idx < Z.of_nat (length (meshes s)) ->
     exists s' m, SetGeometry K idx g s = Done (tt, s', []) /\
       vec_at (meshes s) idx = Some m /\
       meshes s' = <[Z.to_nat idx := CoreMesh_SetGeometry K g m]> (meshes s) /\
       length (meshes s') = length (meshes s)) /\
  (idx < 0 \/ Z.of_nat (length (meshes s)) < idx ->
     SetGeometry K idx g s = Undefined) /\
  (* SetInstance *)
  (idx = Z.of_nat (length (instances s)) -> is_Some (vec_at (meshes s) meshIdx) ->
     exists s', SetInstance K idx meshIdx matrix s = Done (tt, s', []) /\
       instances s' = instances s ++ [appended_instance idx meshIdx matrix]) /\
  (0 <= idx < Z.of_nat (length (instances s)) ->
     exists s' i, SetInstance K idx meshIdx matrix s = Done (tt, s', []) /\
       vec_at (instances s) idx = Some i /\
       instances s' = <[Z.to_nat idx := updated_instance meshIdx matrix i]> (instances s) /\
       length (instances s') = length (instances s)) /\
  (idx < 0 \/ Z.of_nat (length (instances s)) < idx \/
   (idx = Z.of_nat (length (instances s)) /\ vec_at (meshes s) meshIdx = None) ->
     SetInstance K idx meshIdx matrix s = Undefined).
Proof.
  intros Hi.
  rewrite SetGeometry_spec, SetInstance_spec by exact Hi.
  assert (Hin : forall A (v : list A), 0 <= idx < Z.of_nat (length v) ->
                  exists x, vec_at v idx = Some x).
  { intros A v Hr. destruct (vec_at v idx) as [x|] eqn:E; [now exists x|].
    apply vec_at_None in E. lia. }
  assert (Hout : forall A (v : list A), idx < 0 \/ Z.of_nat (length v) <= idx ->
                   vec_at v idx = None).
  { intros A v Hr. now apply vec_at_None. }
  repeat split.
  - intros ->. rewrite Hout by lia. rewrite Z.eqb_refl. eexists. split; reflexivity.
  - intros Hr. destruct (Hin _ _ Hr) as [m Hm]. rewrite Hm.
    eexists _, m. repeat split. cbn [meshes set_meshes]. apply length_insert.
  - intros Hr. rewrite Hout by lia.
    destruct (Z.eqb_spec idx (Z.of_nat (length (meshes s)))); [lia|reflexivity].
  - intros -> [m Hm]. rewrite Hout by lia. rewrite Z.eqb_refl, Hm.
    eexists. split; reflexivity.
  - intros Hr. destruct (Hin _ _ Hr) as [i Hi']. rewrite Hi'.
    eexists _, i. repeat split. cbn [instances set_topLevelDirty set_instances].
    apply length_insert.
  - intros Hr. rewrite Hout by lia.
    destruct (Z.eqb_spec idx (Z.of_nat (length (instances s)))) as [->|]; [|reflexivity].
    destruct Hr as [Hr|[Hr|[_ ->]]]; try lia. reflexivity.
Qed.

Lemma classic_allocated (s : State) : allocated s \/ ~ allocated s.
Proof.
  unfold allocated.
  destruct (connectionBuffer s), (accumulator s), (hitBuffer s), (pathStateBuffer s);
    first [left; repeat split; eexists; reflexivity
          |right; intros (H1 & H2 & H3 & H4);
           first [destruct H1 as [? H1]; discriminate H1
                 |destruct H2 as [? H2]; discriminate H2
                 |destruct H3 as [? H3]; discriminate H3
                 |destruct H4 as [? H4]; discriminate H4]].
Qed.

(** * When the methods return *)

Lemma Render_unallocated view converge brightness contrast (s : State) :
  ~ allocated s -> Render K view converge brightness contrast s = Undefined.
Proof.
  intros Hn.
  destruct s as [w h spp0 mp cspp st seed pp rt cb acc hb pb idb ch ms ins idirty tdirty
                 vs stats ctx dev].
  destruct acc as [acc|], pb as [pb|], hb as [hb|], cb as [cb|];
    try (exfalso; apply Hn; repeat split; eexists; reflexivity).
  all: destruct converge; try reflexivity.
  all: destruct idirty; unfold Render, Render_frame, Render_instances; evaluate;
    try reflexivity.
  all: destruct (instDescArray K ms ins) as [arr|]; [|reflexivity].
  all: destruct idb as [[size host]|]; [destruct (size <? Z.of_nat (length ins))|];
    evaluate; reflexivity.
Qed.

Lemma Render_missing_mesh view converge brightness contrast (s : State) :
  instancesDirty s = true -> instDescArray K (meshes s) (instances s) = None ->
  Render K view converge brightness contrast s = Undefined.
Proof.
  intros Hd Hn.
  destruct s as [w h spp0 mp cspp st seed pp rt cb acc hb pb idb ch ms ins idirty tdirty
                 vs stats ctx dev].
  cbn in Hd. change (instDescArray K ms ins = None) in Hn. subst idirty.
  unfold Render, Render_frame, Render_instances.
  destruct converge; [|destruct acc as [acc|]; [|reflexivity]].
  all: evaluate; rewrite Hn; reflexivity.
Qed.

(** X1: [Render] returns exactly on a core that is ready: the four screen
    buffers exist and, when the descriptors are rebuilt, every instance
    refers to a mesh that exists.  Before the first [SetTarget] (null
    buffers), or with an instance whose mesh index is outside the meshes,
    the frame runs into undefined behaviour. *)
Theorem Render_returns_iff_ready view converge brightness contrast (s : State) :
  (exists s' l, Render K view converge brightness contrast s = Done (tt, s', l)) <->
  ready s.
Proof.
  split.
  - intros (s' & l & E). split.
    + destruct (classic_allocated s) as [Ha|Hn]; [exact Ha|].
      rewrite Render_unallocated in E by exact Hn. discriminate.
    + intros Hd. destruct (instDescArray K (meshes s) (instances s)) eqn:Hn; [eauto|].
      rewrite Render_missing_mesh in E by assumption. discriminate.
  - intros Hr.
    destruct (post_returns _ _ _
                (Render_post False view converge brightness contrast s (or_intror Hr)))
      as ([] & s' & l & E & _).
    now exists s', l.
Qed.

(** X2: [SetTarget] runs into the null accumulator exactly when it has
    nothing to reallocate on a core without buffers (the pixel count within
    [maxPixels], the sample count equal to [currentSPP]); in every other
    case it returns and the four screen buffers exist afterwards. *)
Theorem SetTarget_undefined_iff target spp (s : State) :
  (SetTarget K target spp s = Undefined <->
   target_reallocates s target spp = false /\ accumulator s = None) /\
  (forall s' l, SetTarget K target spp s = Done (tt, s', l) ->
     allocated s -> allocated s') /\
  (forall s' l, SetTarget K target spp s = Done (tt, s', l) ->
     target_reallocates s target spp = true -> allocated s').
Proof.
  split; [split|split].
  - intros E.
    destruct (target_reallocates s target spp) eqn:Hre.
    + destruct (post_returns _ _ _
                  (SetTarget_post False target spp s (or_intror (or_introl Hre))))
        as ([] & s' & l & E' & _). congruence.
    + split; [reflexivity|].
      destruct (accumulator s) as [n|] eqn:Ha; [|reflexivity].
      assert (Hs : is_Some (accumulator s)) by (rewrite Ha; eauto).
      destruct (post_returns _ _ _
                  (SetTarget_post False target spp s (or_intror (or_intror Hs))))
        as ([] & s' & l & E' & _). congruence.
  - intros [Hre Ha].
    destruct s as [w h spp0 mp cspp st seed pp rt cb acc hb pb idb ch ms ins idirty tdirty
                   vs stats ctx dev].
    destruct target as [tw th].
    unfold SetTarget, needs_reallocate, target_reallocates, target_pixels in *.
    cbn [maxPixels currentSPP width height accumulator] in *. subst acc.
    evaluate. cbn [width height] in *.
    apply orb_false_iff in Hre. destruct Hre as [H1 H2].
    apply negb_false_iff in H2. rewrite H1, H2. reflexivity.
  - intros s' l E Ha.
    pose proof (post_Done _ _ _ _ _ _ _
                  (SetTarget_post True target spp s (or_introl I)) E) as H.
    cbv zeta in H. destruct H as (_ & _ & _ & _ & _ & _ & _ & _ & Hb & _).
    destruct (target_reallocates s target spp).
    + destruct Hb as (H1 & H2 & H3 & H4 & _). unfold allocated.
      rewrite H1, H2, H3, H4. repeat split; eexists; reflexivity.
    + destruct Hb as (H1 & H2 & H3 & H4 & _). unfold allocated.
      rewrite H1, H2, H3, H4. exact Ha.
  - intros s' l E Hre.
    pose proof (post_Done _ _ _ _ _ _ _
                  (SetTarget_post True target spp s (or_introl I)) E) as H.
    cbv zeta in H. destruct H as (_ & _ & _ & _ & _ & _ & _ & _ & Hb & _).
    rewrite Hre in Hb. destruct Hb as (H1 & H2 & H3 & H4 & _). unfold allocated.
    rewrite H1, H2, H3, H4. repeat split; eexists; reflexivity.
Qed.

(** X3: a frame writes neither the target dimensions, the capacity, the
    screen buffers, the meshes and instances, the dirty flags nor the render
    settings; a core on which [Render] returned once is ready for any
    further [Render]. *)
Theorem Render_leaves_configuration view converge brightness contrast (s s' : State) l :
  Render K view converge brightness contrast s = Done (tt, s', l) ->
  config s' = config s /\
  forall view' converge' brightness' contrast',
    exists s'' l',
      Render K view' converge' brightness' contrast' s' = Done (tt, s'', l').
Proof.
  intros E.
  pose proof (post_Done _ _ _ _ _ _ _
                (Render_summary True view converge brightness contrast s (or_introl I)) E)
    as [Hc _].
  split; [exact Hc|].
  assert (Hr : ready s).
  { split.
    - destruct (classic_allocated s) as [Ha|Hn]; [exact Ha|].
      rewrite Render_unallocated in E by exact Hn. discriminate.
    - intros Hd. destruct (instDescArray K (meshes s) (instances s)) eqn:Hn; [eauto|].
      rewrite Render_missing_mesh in E by assumption. discriminate. }
  intros view' converge' brightness' contrast'.
  destruct (post_returns _ _ _
              (Render_post False view' converge' brightness' contrast' s'
                 (or_intror (ready_config s s' Hc Hr))))
    as ([] & s'' & l' & E' & _).
  now exists s'', l'.
Qed.

(** * What a frame reports *)

Lemma shade_dispatches_prologue converge (s : State) :
  shade_dispatches (reset_events converge ++ instance_events s) = [].
Proof.
  unfold instance_events. destruct converge; repeat case_match; reflexivity.
Qed.

Lemma readbacks_prologue converge (s : State) :
  readbacks (reset_events converge ++ instance_events s) = [].
Proof.
  unfold instance_events. destruct converge; repeat case_match; reflexivity.
Qed.

(** X4: a frame draws three numbers from the random stream, one for each
    shading dispatch, and leaves the seed after the third draw.  In mode
    [Restart] the stream starts from the fixed seed, so the three numbers
    are the same for every state the frame starts from. *)
Theorem Render_random_numbers view converge brightness contrast (s : State) :
  ready s ->
  let seed0 := match converge with Restart => 0x12345678 | Continue => camRNGseed s end in
  let seed1 := snd (RandomUInt K seed0) in
  let seed2 := snd (RandomUInt K seed1) in
  exists s' l,
    Render K view converge brightness contrast s = Done (tt, s', l) /\
    sa_R0 <$> shade_dispatches l =
      [fst (RandomUInt K seed0); fst (RandomUInt K seed1); fst (RandomUInt K seed2)] /\
    sa_pathLength <$> shade_dispatches l = [1; 2; 3] /\
    camRNGseed s' = snd (RandomUInt K seed2).
Proof.
  intros Hr.
  destruct (post_returns _ _ _
              (Render_post False view converge brightness contrast s (or_intror Hr)))
    as ([] & s' & l & E & lf & -> & sA & s1 & s2 & s3 & H).
  cbv zeta in H.
  destruct H as (Hl & _ & _ & HsA & _ & _ & _ & Hs1 & Hs2 & Hs3 & _ & _ & _ & _ & _ & _ &
                 _ & _ & _ & _ & Hs' & _).
  assert (H0 : camRNGseed (reset_state converge s) =
               match converge with Restart => 0x12345678 | Continue => camRNGseed s end)
    by now destruct converge.
  exists s', (reset_events converge ++ lf). split; [exact E|].
  rewrite Hl, app_assoc. unfold shade_dispatches. rewrite omap_app.
  fold (shade_dispatches (reset_events converge ++ instance_events (reset_state converge s))).
  rewrite shade_dispatches_prologue.
  unfold bounce_events. cbn [Z.eqb Pos.eqb app omap list_omap fmap list_fmap
                             sa_R0 sa_pathLength shade_args].
  rewrite Hs', Hs3, Hs2, Hs1, HsA, H0. repeat split; reflexivity.
Qed.

(** X5: the ray statistics of a frame are the sizes of its dispatches and
    the counters of its last read-back: the primary rays are the paths of the
    first bounce, the rays of the second bounce and the deep rays the
    extension counters read back after the first and the second shading, and
    the totals, the probe and the shadow rays come from the counters read
    back after the third. *)
Theorem Render_statistics view converge brightness contrast (s : State) :
  ready s ->
  exists s' l c1 c2 c3,
    Render K view converge brightness contrast s = Done (tt, s', l) /\
    readbacks l = [c1; c1; c2; c2; c3] /\
    counterHost s' = c3 /\
    st_primaryRayCount (coreStats s') = uint (scrwidth s * scrheight s * scrspp s) /\
    st_bounce1RayCount (coreStats s') = extensionRays c1 /\
    st_deepRayCount (coreStats s') = uint (extensionRays c2) /\
    st_totalExtensionRays (coreStats s') = totalExtensionRays c3 /\
    st_totalShadowRays (coreStats s') = shadowRays c3 /\
    st_totalRays (coreStats s') = uint (totalExtensionRays c3 + shadowRays c3) /\
    st_probedInstid (coreStats s') = probedInstid c3 /\
    st_probedTriid (coreStats s') = probedTriid c3 /\
    st_probedDist (coreStats s') = probedDist c3.
Proof.
  intros Hr.
  destruct (post_returns _ _ _
              (Render_post False view converge brightness contrast s (or_intror Hr)))
    as ([] & s' & l & E & lf & -> & sA & s1 & s2 & s3 & H).
  cbv zeta in H.
  destruct H as (Hl & _ & _ & _ & _ & _ & _ & _ & _ & _ & _ & _ & _ & _ & _ & _ &
                 _ & _ & _ & Hch & _ & _ & _ & Hts & Hte & Htr & Hpi & Hpt & Hpd & _ &
                 Hp & Hb & Hd).
  assert (Hw : scrwidth (reset_state converge s) = scrwidth s) by now destruct converge.
  assert (Hh : scrheight (reset_state converge s) = scrheight s) by now destruct converge.
  assert (Hp0 : scrspp (reset_state converge s) = scrspp s) by now destruct converge.
  rewrite Hw, Hh, Hp0 in *.
  exists s', (reset_events converge ++ lf), (counterData (device s1)),
    (counterData (device s2)), (counterData (device s3)).
  split; [exact E|].
  split.
  { rewrite Hl, app_assoc. unfold readbacks. rewrite omap_app.
    fold (readbacks (reset_events converge ++ instance_events (reset_state converge s))).
    rewrite readbacks_prologue. reflexivity. }
  repeat split; assumption.
Qed.

(** * The descriptor buffer and the scene *)

Lemma instanceDesc_is_Some ms (i : CoreInstance) :
  is_Some (instanceDesc K ms i) <-> is_Some (vec_at ms (mesh i)).
Proof.
  unfold instanceDesc. destruct (vec_at ms (mesh i)); cbn.
  - split; eauto.
  - split; intros [? H]; discriminate H.
Qed.

Lemma scene_ok_instDescArray (s : State) :
  scene_ok s <-> is_Some (instDescArray K (meshes s) (instances s)).
Proof.
  unfold scene_ok, instDescArray. rewrite mapM_is_Some.
  apply Forall_proper; [|reflexivity].
  intros i. unfold compose. symmetry. apply instanceDesc_is_Some.
Qed.

Lemma descriptor_events_frame converge (s : State) rest :
  Forall (fun e : Ev => match e with
                        | EvDelete InstDescBuffer | EvNew InstDescBuffer _
                        | EvCopyToDevice InstDescBuffer => False
                        | _ => True
                        end) rest ->
  descriptor_events (reset_events converge ++ instance_events s ++ rest) =
  instance_events s.
Proof.
  intros Hrest. unfold descriptor_events.
  rewrite !List.filter_app.
  replace (List.filter _ (reset_events converge)) with (@nil Ev)
    by (destruct converge; reflexivity).
  replace (List.filter _ rest) with (@nil Ev).
  - rewrite app_nil_r. unfold instance_events. repeat case_match; reflexivity.
  - symmetry. induction Hrest as [|e rest He _ IH]; [reflexivity|].
    cbn. rewrite IH.
    destruct e as [[]|[]| |[]| | | | | |]; try reflexivity; contradiction.
Qed.

(** X6: the descriptor buffer.  With [instancesDirty] set, a frame replaces
    the buffer only when there is none or it holds fewer entries than there
    are instances, by one of twice that number; it then writes one
    descriptor per instance at the front of the host copy, leaves the entries
    behind them as they were, and sends the buffer to the device.  With the
    flag clear the frame neither touches nor sends the buffer. *)
Theorem Render_descriptor_buffer view converge brightness contrast (s s' : State) l :
  Render K view converge brightness contrast s = Done (tt, s', l) ->
  let n := Z.of_nat (length (instances s)) in
  if instancesDirty s then
    exists arr,
      instDescArray K (meshes s) (instances s) = Some arr /\
      length arr = length (instances s) /\
      match instDescBuffer s with
      | Some (size, host) =>
          if size <? n then
            instDescBuffer s' =
              Some (n * 2, (Some <$> arr) ++ drop (length arr) (replicate (Z.to_nat (n * 2)) None)) /\
            descriptor_events l =
              [EvDelete InstDescBuffer; EvNew InstDescBuffer (n * 2);
               EvCopyToDevice InstDescBuffer]
          else
            instDescBuffer s' = Some (size, (Some <$> arr) ++ drop (length arr) host) /\
            descriptor_events l = [EvCopyToDevice InstDescBuffer]
      | None =>
          instDescBuffer s' =
            Some (n * 2, (Some <$> arr) ++ drop (length arr) (replicate (Z.to_nat (n * 2)) None)) /\
          descriptor_events l =
            [EvDelete InstDescBuffer; EvNew InstDescBuffer (n * 2);
             EvCopyToDevice InstDescBuffer]
      end
  else instDescBuffer s' = instDescBuffer s /\ descriptor_events l = [].
Proof.
  intros E.
  pose proof (post_Done _ _ _ _ _ _ _
                (Render_post True view converge brightness contrast s (or_introl I)) E)
    as (lf & -> & sA & s1 & s2 & s3 & H).
  cbv zeta in H.
  destruct H as (Hl & HA & _ & _ & _ & _ & _ & _ & _ & _ & _ & _ & _ & _ & _ & _ & _ &
                 _ & _ & _ & _ & Hidb & _).
  set (s0 := reset_state converge s) in *.
  assert (H0 : instancesDirty s0 = instancesDirty s /\ meshes s0 = meshes s /\
               instances s0 = instances s /\ instDescBuffer s0 = instDescBuffer s).
  { subst s0. destruct converge; repeat split; reflexivity. }
  destruct H0 as (Hd0 & Hm0 & Hi0 & Hb0).
  assert (Hev : descriptor_events (reset_events converge ++ lf) = instance_events s0).
  { rewrite Hl. apply descriptor_events_frame.
    unfold bounce_events. cbn [Z.eqb Pos.eqb app]. repeat constructor. }
  rewrite Hev. unfold instance_events, instDesc_realloc.
  rewrite Hd0, Hi0, Hb0. rewrite Hd0 in HA. cbv zeta.
  destruct (instancesDirty s).
  - destruct HA as (arr & Harr & HidbA & _). rewrite Hm0, Hi0 in Harr.
    exists arr. split; [exact Harr|].
    split; [symmetry; eapply length_mapM, Harr|].
    rewrite Hidb, HidbA. unfold instDesc_rebuilt, instDesc_realloc. rewrite Hi0, Hb0.
    destruct (instDescBuffer s) as [[size host]|];
      [destruct (size <? Z.of_nat (length (instances s)))|]; split; reflexivity.
  - destruct HA as [HidbA _]. rewrite Hidb, HidbA, Hb0. split; reflexivity.
Qed.

(** A value that compares equal to some value compares equal to itself: it
    is no NaN. *)
Lemma float_ne_self (a b : float) : float_ne a b = false -> float_ne b b = false.
Proof.
  unfold float_ne, SFeqb. intros H. apply negb_false_iff in H. apply negb_false_iff.
  destruct b as [sb|sb| |sb mb eb].
  - destruct sb; reflexivity.
  - destruct sb; reflexivity.
  - destruct a as [sa|sa| |sa ma ea]; discriminate H.
  - cbn. rewrite Z.compare_refl, Pos.compare_cont_refl. destruct sb; reflexivity.
Qed.

(** X7: a second [Setting] with the same name and value leaves the core as
    the first call left it: the render settings and the values the device
    and the context were given.  The test of the second call (lines 419 and
    428) succeeds exactly when the value compares unequal to itself, as a
    NaN does: only then does the second call store the value and call the
    device setters again, with the values of the first call.  (The calls of
    the setters are part of the state here, not of the events: nothing is
    said about the events.) *)
Theorem Setting_idempotent name value (s : State) :
  exists s1 l1 l2,
    Setting name value s = Done (tt, s1, l1) /\
    Setting name value s1 = Done (tt, s1, l2) /\
    (name = "epsilon"%string ->
       float_ne (geometryEpsilon (vars s1)) value = float_ne value value) /\
    (name = "clampValue"%string ->
       float_ne (clampValue (vars s1)) value = float_ne value value).
Proof.
  eexists _, [], []. split; [apply Setting_spec|].
  rewrite Setting_spec.
  destruct s as [w h spp0 mp cspp st seed pp rt cb acc hb pb idb ch ms ins idirty tdirty
                 [eps clamp] stats ctx dev].
  cbn [vars geometryEpsilon clampValue].
  destruct (String.eqb_spec name "epsilon") as [->|Hn1];
    [|destruct (String.eqb_spec name "clampValue") as [->|Hn2]].
  - destruct (float_ne eps value) eqn:E1; cbn [vars set_vars set_device set_context
      geometryEpsilon set_geometryEpsilon].
    + split; [destruct (float_ne value value); reflexivity|].
      split; [reflexivity|discriminate].
    + rewrite E1. split; [reflexivity|].
      split; [intros _; symmetry; apply (float_ne_self _ _ E1)|discriminate].
  - destruct (float_ne clamp value) eqn:E1; cbn [vars set_vars set_device set_context
      clampValue set_clampValue].
    + split; [destruct (float_ne value value); reflexivity|].
      split; [contradiction|reflexivity].
    + rewrite E1. split; [reflexivity|].
      split; [contradiction|intros _; symmetry; apply (float_ne_self _ _ E1)].
  - split; [reflexivity|]. split; intros; contradiction.
Qed.

(** X8: [SetInstance] on an instance that exists reads no mesh: it stores the
    mesh index unchecked, sets the matrices of the transform and leaves the
    geometry instance bound to the mesh it was created for.  With a mesh index
    outside the meshes it still returns, and the next [Render] that rebuilds
    the descriptors is undefined. *)
Theorem SetInstance_update_keeps_geometry idx meshIdx matrix (s : State) i :
  - 2 ^ 31 <= idx < 2 ^ 31 ->
  vec_at (instances s) idx = Some i ->
  exists s' i',
    SetInstance K idx meshIdx matrix s = Done (tt, s', []) /\
    vec_at (instances s') idx = Some i' /\
    mesh i' = meshIdx /\
    geometryInstance i' = geometryInstance i /\
    (is_Some (transform i) ->
     transform i' = Some (mkTransform matrix (mat4_Inverted K matrix))) /\
    meshes s' = meshes s /\
    length (instances s') = length (instances s) /\
    (vec_at (meshes s) meshIdx = None -> instancesDirty s = true ->
     forall view converge brightness contrast,
       Render K view converge brightness contrast s' = Undefined).
Proof.
  intros Hi Hv. rewrite SetInstance_spec by exact Hi. rewrite Hv.
  eexists _, (updated_instance meshIdx matrix i).
  split; [reflexivity|]. cbn [instances meshes set_topLevelDirty set_instances].
  split; [apply (vec_at_insert _ _ _ _ Hv)|].
  split; [destruct i as [m [t|] g]; reflexivity|].
  split; [destruct i as [m [t|] g]; reflexivity|].
  split; [intros [t Ht]; destruct i as [m [t'|] g]; [reflexivity|discriminate Ht]|].
  split; [reflexivity|]. split; [apply length_insert|].
  intros Hm Hd view converge brightness contrast.
  apply Render_missing_mesh; [exact Hd|].
  cbn [instances meshes set_topLevelDirty set_instances].
  destruct (instDescArray K (meshes s)
              (<[Z.to_nat idx:=updated_instance meshIdx matrix i]> (instances s)))
    as [arr|] eqn:E; [|reflexivity].
  exfalso.
  assert (Hs : is_Some (instDescArray K (meshes s)
                 (<[Z.to_nat idx:=updated_instance meshIdx matrix i]> (instances s))))
    by (rewrite E; eauto).
  unfold instDescArray in Hs. apply mapM_is_Some in Hs.
  rewrite Forall_lookup in Hs.
  pose proof (vec_at_insert _ _ (updated_instance meshIdx matrix i) _ Hv) as Hl.
  unfold vec_at in Hl. destruct (0 <=? idx); [|discriminate].
  specialize (Hs _ _ Hl). unfold compose in Hs. apply instanceDesc_is_Some in Hs.
  replace (mesh (updated_instance meshIdx matrix i)) with meshIdx in Hs
    by (destruct i as [m [t|] g]; reflexivity).
  rewrite Hm in Hs. destruct Hs as [? Hs]. discriminate Hs.
Qed.

Lemma vec_at_is_Some {A} (v : list A) i :
  is_Some (vec_at v i) <-> 0 <= i < Z.of_nat (length v).
Proof.
  split.
  - intros [x Hx]. eapply vec_at_Some, Hx.
  - intros Hr. destruct (vec_at v i) eqn:E; [eauto|].
    apply vec_at_None in E. lia.
Qed.

(** X9: the scene stays well formed.  [SetGeometry] keeps every instance on
    an existing mesh, and so does [SetInstance] when its mesh index is one of
    the meshes; a core with the screen buffers and such a scene is ready to
    render. *)
Theorem scene_ok_preserved idx g meshIdx matrix (s s' : State) l :
  - 2 ^ 31 <= idx < 2 ^ 31 ->
  scene_ok s ->
  (SetGeometry K idx g s = Done (tt, s', l) -> scene_ok s') /\
  (SetInstance K idx meshIdx matrix s = Done (tt, s', l) ->
   is_Some (vec_at (meshes s) meshIdx) -> scene_ok s') /\
  (allocated s -> ready s).
Proof.
  intros Hi Hok. split; [|split].
  - rewrite SetGeometry_spec by exact Hi. unfold scene_ok in *.
    destruct (vec_at (meshes s) idx) as [m|].
    + intros E. injection E as <- <-. cbn [meshes instances set_meshes].
      eapply Forall_impl; [exact Hok|]. intros i. cbn beta.
      rewrite !vec_at_is_Some, length_insert. tauto.
    + destruct (idx =? Z.of_nat (length (meshes s))); [|discriminate].
      intros E. injection E as <- <-. cbn [meshes instances set_meshes].
      eapply Forall_impl; [exact Hok|]. intros i. cbn beta.
      rewrite !vec_at_is_Some, length_app. cbn. lia.
  - rewrite SetInstance_spec by exact Hi. unfold scene_ok in *.
    destruct (vec_at (instances s) idx) as [i|] eqn:Hv.
    + intros E Hm. injection E as <- <-.
      cbn [meshes instances set_topLevelDirty set_instances].
      apply Forall_insert; [exact Hok|].
      replace (mesh (updated_instance meshIdx matrix i)) with meshIdx
        by (destruct i as [m [t|] gi]; reflexivity).
      exact Hm.
    + destruct (idx =? Z.of_nat (length (instances s))); [|discriminate].
      destruct (vec_at (meshes s) meshIdx) eqn:Hm'; [|discriminate].
      intros E Hm. injection E as <- <-.
      cbn [meshes instances set_topLevelDirty set_instances].
      apply Forall_app. split; [exact Hok|].
      constructor; [|constructor]. cbn [mesh appended_instance]. rewrite Hm'. eauto.
  - intros Ha. split; [exact Ha|]. intros _. now apply scene_ok_instDescArray.
Qed.

End Properties.

(** * The methods at work on the small configuration *)

Lemma demoScene_ready : ready demoKernels demoScene.
Proof.
  split.
  - repeat split; eexists; reflexivity.
  - intros _. eexists. reflexivity.
Defined.

Lemma demo_zero_dispatch_noop : zero_dispatch_noop demoKernels.
Proof.
  split; [|split].
  - reflexivity.
  - intros a [acc [e sh t pi pt pd] idd ge cv []] Ha. cbn in *. rewrite Ha.
    unfold demo_set_counters, set_counterData. cbn.
    rewrite !Z.add_0_r. reflexivity.
  - reflexivity.
Defined.

Lemma demo_shadow_counter_accumulates : shadow_counter_accumulates demoKernels.
Proof. repeat split. Defined.

Lemma samplesTaken_counts_frames_witness :
  samplesTaken demoCore = uint (scrspp demoCore * 0) /\
  (forall s' l, run demoKernels demo_frames demoCore = Done (tt, s', l) ->
     samplesTaken s' = uint (scrspp s' * frames_since_reset demo_frames 0) /\
     (0 <= scrspp s' * frames_since_reset demo_frames 0 < 2 ^ 32 ->
      samplesTaken s' = scrspp s' * frames_since_reset demo_frames 0)) /\
  (ready demoKernels demoCore -> Forall is_Render demo_frames ->
   exists s' l, run demoKernels demo_frames demoCore = Done (tt, s', l)).
Proof.
  split; [reflexivity|].
  apply (samplesTaken_counts_frames demoKernels demo_frames demoCore 0). reflexivity.
Defined.

Lemma Render_Restart_resets_witness :
  accumulator demoScene = Some 34 /\
  samplesTaken (reset_state Restart demoScene) = 0 /\
  camRNGseed (reset_state Restart demoScene) = 0x12345678.
Proof.
  split; [reflexivity|].
  pose proof (Render_Restart_resets demoKernels tt f32_one f32_one demoScene 34 eq_refl) as H.
  cbv zeta in H. destruct H as (_ & _ & _ & H1 & H2 & _). split; assumption.
Defined.


Lemma shadow_connect_once_witness :
  ready demoKernels demoScene /\
  exists s' l, Render demoKernels tt Continue f32_one f32_one demoScene = Done (tt, s', l) /\
               st_totalShadowRays (coreStats s') = 28.
Proof.
  split; [exact demoScene_ready|].
  destruct (shadow_connect_once demoKernels tt Continue f32_one f32_one demoScene
              demoScene_ready)
    as (s' & l & pre & a1 & a2 & a3 & c1 & c2 & c3 & d1 & d2 & d3 & E & _).
  exists s', l. split; [exact E|].
  vm_compute in E. injection E as <- _. reflexivity.
Defined.

Lemma SetTarget_reallocation_witness :
  ((maxPixels demoCore < target_pixels demo_target \/ 1 <> currentSPP demoCore) \/
   is_Some (accumulator demoCore)) /\
  exists s' l,
    SetTarget demoKernels demo_target 1 demoCore = Done (tt, s', l) /\
    maxPixels s' = 17 /\ accumulator s' = Some 34.
Proof.
  assert (H : (maxPixels demoCore < target_pixels demo_target \/ 1 <> currentSPP demoCore) \/
              is_Some (accumulator demoCore)) by (left; left; reflexivity).
  split; [exact H|].
  destruct (SetTarget_reallocation demoKernels demo_target 1 demoCore H)
    as (s' & l & mp & E & Hmp & _ & Hre & _).
  exists s', l. split; [exact E|].
  vm_compute in E. injection E as <- _. split; reflexivity.
Defined.

Lemma SetTarget_same_spp_capacity_witness :
  is_Some (accumulator demoReady) /\
  Forall target_fits [mkTexture 8 8; demo_target; mkTexture 8 8] /\
  exists s' l,
    run demoKernels
      (map (fun t => CallSetTarget t (currentSPP demoReady))
         [mkTexture 8 8; demo_target; mkTexture 8 8]) demoReady = Done (tt, s', l) /\
    maxPixels demoReady <= maxPixels s'.
Proof.
  assert (Ha : is_Some (accumulator demoReady)) by (eexists; reflexivity).
  assert (Hf : Forall target_fits [mkTexture 8 8; demo_target; mkTexture 8 8])
    by (repeat (apply List.Forall_cons; [vm_compute; reflexivity|]); apply List.Forall_nil).
  split; [exact Ha|]. split; [exact Hf|].
  destruct (SetTarget_same_spp_capacity demoKernels _ demoReady Ha Hf)
    as (s' & l & E & Hm & _).
  exists s', l. split; [exact E|exact Hm].
Defined.

Lemma SetInstance_idempotent_witness :
  (- 2 ^ 31 <= 0 < 2 ^ 31) /\
  SetInstance demoKernels 0 0 mat4_Identity demoMesh = Done (tt, demoScene, []) /\
  SetInstance demoKernels 0 0 mat4_Identity demoScene = Done (tt, demoScene, []).
Proof.
  assert (Hi : - 2 ^ 31 <= 0 < 2 ^ 31) by (split; [discriminate|reflexivity]).
  assert (E : SetInstance demoKernels 0 0 mat4_Identity demoMesh = Done (tt, demoScene, []))
    by reflexivity.
  split; [exact Hi|]. split; [exact E|].
  apply (SetInstance_idempotent demoKernels 0 0 mat4_Identity demoMesh demoScene [] Hi E).
Defined.

Lemma Setting_names_witness :
  exists s', Setting "clampValue" f32_one demoScene = Done (tt, s', []) /\
             clampValue (vars s') = f32_one.
Proof.
  destruct (Setting_names "clampValue" f32_one demoScene) as (s' & E & _ & H & _).
  exists s'. split; [exact E|]. destruct (H eq_refl) as [_ H']. apply H'.
Defined.

Lemma append_or_update_witness :
  (- 2 ^ 31 <= 0 < 2 ^ 31) /\
  exists s', SetGeometry demoKernels 0 tt demoReady = Done (tt, s', []) /\
             length (meshes s') = 1%nat.
Proof.
  assert (Hi : - 2 ^ 31 <= 0 < 2 ^ 31) by (split; [discriminate|reflexivity]).
  split; [exact Hi|].
  destruct (append_or_update demoKernels 0 tt 0 mat4_Identity demoReady Hi) as (H & _).
  destruct (H eq_refl) as (s' & E & Hm). exists s'. split; [exact E|].
  rewrite Hm. reflexivity.
Defined.

Lemma instancesDirty_never_cleared_witness :
  instancesDirty demoScene = true /\
  run demoKernels [CallRender tt Restart f32_one f32_one] demoScene
    = Done (tt, demoRendered, demo_log) /\
  instancesDirty demoRendered = true /\
  Render demoKernels tt Continue f32_one f32_one demoRendered
    = Done (tt, demoRendered2, demo_log2) /\
  instancesDirty demoRendered2 = true /\
  exists arr,
    instDescArray demoKernels (meshes demoRendered) (instances demoRendered) = Some arr /\
    length arr = 1%nat.
Proof.
  assert (E : run demoKernels [CallRender tt Restart f32_one f32_one] demoScene
              = Done (tt, demoRendered, demo_log)) by reflexivity.
  assert (E2 : Render demoKernels tt Continue f32_one f32_one demoRendered
               = Done (tt, demoRendered2, demo_log2)) by (vm_compute; reflexivity).
  split; [reflexivity|]. split; [exact E|].
  destruct (instancesDirty_never_cleared demoKernels _ demoScene demoRendered demo_log
              tt Continue f32_one f32_one eq_refl E) as [Hd Hr].
  split; [exact Hd|]. split; [exact E2|].
  destruct (Hr _ _ E2) as (Hd2 & arr & pre & rest & size & tail & Ha & Hl & _).
  split; [exact Hd2|].
  exists arr. split; [exact Ha|]. rewrite Hl. reflexivity.
Defined.

(** The specification's formula for the capacity does not describe
    [SetTarget]: a 100x100 target on a fresh core reserves 10625 pixels, a
    200x100 target after it 21250, where the formula gives 20000. *)
Lemma SetTarget_capacity_not_by_the_formula :
  maxPixels <$> demo_after [CallSetTarget (mkTexture 100 100) 1] = Some 10625 /\
  maxPixels <$> demo_after [CallSetTarget (mkTexture 100 100) 1;
                            CallSetTarget (mkTexture 200 100) 1] = Some 21250 /\
  capacity_by_the_formula (200 * 100) 10625 = 20000 /\
  21250 <> capacity_by_the_formula (200 * 100) 10625.
Proof.
  split; [vm_compute; reflexivity|].
  split; [vm_compute; reflexivity|].
  split; [vm_compute; reflexivity|].
  vm_compute. discriminate.
Qed.

(** With a non-decreasing product of pixels and samples the capacity can
    shrink (100x100 at 1 sample, then 50x50 at 8), and one (resolution,
    samples) pair can be reallocated for twice (4x4 at 2, 8x4 at 1, 4x4 at 2:
    the product is 32 throughout, and each of the three calls reallocates). *)
Lemma SetTarget_capacity_can_shrink :
  (100 * 100 * 1 <= 50 * 50 * 8 /\
   maxPixels <$> demo_after [CallSetTarget (mkTexture 100 100) 1] = Some 10625 /\
   maxPixels <$> demo_after [CallSetTarget (mkTexture 100 100) 1;
                             CallSetTarget (mkTexture 50 50) 8] = Some 2656) /\
  (4 * 4 * 2 <= 8 * 4 * 1 <= 4 * 4 * 2 /\
   reallocations (events (run demoKernels
     [CallSetTarget (mkTexture 4 4) 2; CallSetTarget (mkTexture 8 4) 1] demoCore)) = 2%nat /\
   reallocations (events (run demoKernels
     [CallSetTarget (mkTexture 4 4) 2; CallSetTarget (mkTexture 8 4) 1;
      CallSetTarget (mkTexture 4 4) 2] demoCore)) = 3%nat).
Proof.
  split.
  - split; [vm_compute; discriminate|].
    split; vm_compute; reflexivity.
  - split; [split; vm_compute; discriminate|].
    split; vm_compute; reflexivity.
Qed.

(** * The scene data: top level, textures, materials *)

(** ** UpdateToplevel *)

Lemma set_children_spec (rest : list CoreInstance) :
  forall (i : nat) (children : list (option Transform)),
    length children = (i + length rest)%nat ->
    set_children i rest children = take i children ++ (transform <$> rest).
Proof.
  induction rest as [|inst rest IH]; intros i children Hlen; simpl in *.
  - rewrite app_nil_r, take_ge by lia. reflexivity.
  - unfold setChild. rewrite IH by (rewrite length_insert; lia).
    assert (Hi : (i < length children)%nat) by lia.
    rewrite (take_S_r _ i (transform inst)) by (apply list_lookup_insert_eq; exact Hi).
    rewrite take_insert_ge by lia. rewrite <- app_assoc. reflexivity.
Qed.

(** X10: after [UpdateToplevel] the children of the top-level group are the
    transforms of the instances, one per instance and in their order,
    whatever the group held before (more children, fewer, or others). *)
Theorem UpdateToplevel_children (instances : list CoreInstance)
    (children : list (option Transform)) :
  UpdateToplevel instances children = transform <$> instances.
Proof.
  unfold UpdateToplevel, setChildCount.
  rewrite set_children_spec.
  - reflexivity.
  - destruct (Nat.eqb_spec (length children) (length instances)) as [E|E]; simpl.
    + exact E.
    + apply length_resize.
Qed.

(** ** SyncStorageType *)

Lemma TexelStorage_eqb_spec a b : reflect (a = b) (TexelStorage_eqb a b).
Proof. destruct a, b; simpl; constructor; congruence. Qed.

Lemma uint_small z : 0 <= z < 2 ^ 32 -> uint z = z.
Proof. unfold uint. apply Z.mod_small. Qed.

Lemma uint_0 : uint 0 = 0.
Proof. reflexivity. Qed.

Lemma count_texels_spec st : forall descs t0,
  uint t0 = t0 -> count_texels st descs t0 = uint (t0 + texels st descs).
Proof.
  induction descs as [|d rest IH]; intros t0 Ht; simpl.
  - rewrite Z.add_0_r. symmetry. exact Ht.
  - destruct (TexelStorage_eqb (storage d) st).
    + rewrite IH by (unfold uint; apply Zmod_mod).
      rewrite uint_add_l. f_equal. lia.
    + rewrite IH by exact Ht. reflexivity.
Qed.

Lemma texels_app st l1 l2 : texels st (l1 ++ l2) = texels st l1 + texels st l2.
Proof. induction l1 as [|d l1 IH]; simpl; [reflexivity|]. rewrite IH. lia. Qed.

Lemma texels_nonneg st descs :
  (forall d, d ∈ descs -> storage d = st -> 0 <= pixelCount d) -> 0 <= texels st descs.
Proof.
  induction descs as [|d rest IH]; intros H; simpl; [lia|].
  assert (0 <= texels st rest) by (apply IH; intros; apply H; [right|]; assumption).
  destruct (TexelStorage_eqb_spec (storage d) st); [|lia].
  assert (0 <= pixelCount d) by (apply H; [left|assumption]). lia.
Qed.

Lemma texels_take_le st descs (i : nat) :
  (forall d, d ∈ descs -> storage d = st -> 0 <= pixelCount d) ->
  0 <= texels st (take i descs) <= texels st descs.
Proof.
  intros H. rewrite <- (take_drop i descs) at 3. rewrite texels_app.
  assert (0 <= texels st (take i descs)).
  { apply texels_nonneg. intros d Hd. apply H.
    apply (subseteq_take i descs), Hd. }
  assert (0 <= texels st (drop i descs)).
  { apply texels_nonneg. intros d Hd. apply H.
    apply (subseteq_drop i descs), Hd. }
  lia.
Qed.

(** The texels before texture [j] include those of an earlier texture [i]. *)
Lemma texels_take_lt st descs (i j : nat) d :
  (forall d, d ∈ descs -> storage d = st -> 0 <= pixelCount d) ->
  descs !! i = Some d -> storage d = st -> (i < j)%nat ->
  texels st (take i descs) + pixelCount d <= texels st (take j descs).
Proof.
  intros H Hd Hs Hij.
  assert (E : take j descs = take i descs ++ d :: take (j - S i) (drop (S i) descs)).
  { rewrite <- (take_drop_middle descs i d Hd) at 1.
    rewrite take_app_ge by (rewrite length_take; lia).
    f_equal. rewrite length_take_le by (apply Nat.lt_le_incl, (lookup_lt_Some _ _ _ Hd)).
    replace (j - i)%nat with (S (j - S i)) by lia. reflexivity. }
  rewrite E, texels_app. simpl.
  destruct (TexelStorage_eqb_spec (storage d) st); [|contradiction].
  assert (0 <= texels st (take (j - S i) (drop (S i) descs))); [|lia].
  apply texels_nonneg. intros d' Hd'. apply H.
  apply (subseteq_drop (S i) descs), (subseteq_take (j - S i)), Hd'.
Qed.

Lemma texels_same st l l' : Forall2 same_texels l l' -> texels st l = texels st l'.
Proof.
  induction 1 as [|a b l l' (Hs & Hp & _) _ IH]; simpl; [reflexivity|].
  rewrite Hs, Hp, IH. reflexivity.
Qed.

Lemma same_texels_ok l l' :
  Forall2 same_texels l l' ->
  (forall d, d ∈ l -> texture_ok d) -> forall d, d ∈ l' -> texture_ok d.
Proof.
  induction 1 as [|a b l l' (Hs & Hp & Hi) _ IH]; intros H d Hd.
  - inversion Hd.
  - apply elem_of_cons in Hd as [->|Hd].
    + unfold texture_ok. rewrite <- Hp, <- Hi. apply H. left.
    + apply IH; [|exact Hd]. intros d0 Hd0. apply H. right. exact Hd0.
Qed.

Lemma vec_at_lookup {A} (l : list A) (k : Z) :
  0 <= k -> vec_at l k = l !! Z.to_nat k.
Proof. intros H. unfold vec_at. destruct (Z.leb_spec 0 k); [reflexivity|lia]. Qed.

Lemma memcpy_words_spec dst off src n dst' :
  memcpy_words dst off src n = Some dst' ->
  0 <= off /\ 0 <= n <= Z.of_nat (length src) /\ off + n <= Z.of_nat (length dst) /\
  length dst' = length dst /\
  forall k, vec_at dst' k =
            if (off <=? k) && (k <? off + n) then Some <$> vec_at src (k - off)
            else vec_at dst k.
Proof.
  unfold memcpy_words. intros H.
  destruct (Z.leb_spec 0 off); [|discriminate].
  destruct (Z.leb_spec 0 n); [|discriminate].
  destruct (Z.leb_spec n (Z.of_nat (length src))); [|discriminate].
  destruct (Z.leb_spec (off + n) (Z.of_nat (length dst))); [|discriminate].
  simpl in H. injection H as <-.
  repeat split; try lia.
  - rewrite !length_app, length_fmap, !length_take, length_drop. lia.
  - intros k. unfold vec_at at 1 3.
    destruct (Z.leb_spec 0 k); [|destruct (Z.leb_spec off k); [lia|reflexivity]].
    destruct (Z.leb_spec off k); simpl.
    + destruct (Z.ltb_spec k (off + n)).
      * rewrite lookup_app_r by (rewrite length_take; lia).
        rewrite length_take_le by lia.
        rewrite lookup_app_l by (rewrite length_fmap, length_take; lia).
        rewrite list_lookup_fmap, lookup_take_lt by lia.
        rewrite vec_at_lookup by lia. do 2 f_equal. lia.
      * rewrite lookup_app_r by (rewrite length_take; lia).
        rewrite length_take_le by lia.
        rewrite lookup_app_r by (rewrite length_fmap, length_take; lia).
        rewrite length_fmap, length_take_le by lia.
        rewrite lookup_drop. f_equal. lia.
    + rewrite lookup_app_l by (rewrite length_take; lia).
      rewrite lookup_take_lt by lia. reflexivity.
Qed.

Lemma memcpy_words_is_Some dst off src n :
  0 <= off -> 0 <= n <= Z.of_nat (length src) -> off + n <= Z.of_nat (length dst) ->
  is_Some (memcpy_words dst off src n).
Proof.
  intros H1 [H2 H3] H4. unfold memcpy_words.
  destruct (Z.leb_spec 0 off); [|lia].
  destruct (Z.leb_spec 0 n); [|lia].
  destruct (Z.leb_spec n (Z.of_nat (length src))); [|lia].
  destruct (Z.leb_spec (off + n) (Z.of_nat (length dst))); [|lia].
  simpl. eauto.
Qed.

Lemma words_per_texel_pos st : 1 <= words_per_texel st.
Proof. destruct st; simpl; lia. Qed.

(** What the second loop needs of the textures it copies. *)
Lemma copy_texels_valid st : forall descs t0 host r,
  copy_texels st descs t0 host = Some r ->
  forall d, d ∈ descs -> storage d = st -> texture_ok d.
Proof.
  induction descs as [|d rest IH]; intros t0 host r H d0 Hd0 Hs.
  - inversion Hd0.
  - simpl in H. destruct (TexelStorage_eqb_spec (storage d) st) as [E|E].
    + destruct (memcpy_words host _ (idata d) (pixelCount d)) as [host1|] eqn:Em;
        [|discriminate].
      simpl in H.
      destruct (copy_texels st rest _ host1) as [r1|] eqn:Er; [|discriminate].
      apply memcpy_words_spec in Em as (_ & Hn & _).
      apply elem_of_cons in Hd0 as [->|Hin]; [exact Hn|].
      apply (IH _ _ _ Er _ Hin Hs).
    + destruct (copy_texels st rest t0 host) as [r1|] eqn:Er; [|discriminate].
      apply elem_of_cons in Hd0 as [->|Hin]; [contradiction|].
      apply (IH _ _ _ Er _ Hin Hs).
Qed.

(** The descriptors after the second loop. *)
Lemma copy_texels_descs st : forall descs t0 host r,
  copy_texels st descs t0 host = Some r ->
  uint t0 = t0 ->
  length (fst r) = length descs /\
  Forall2 same_texels descs (fst r) /\
  forall (i : nat) d, descs !! i = Some d ->
    fst r !! i = Some (if TexelStorage_eqb (storage d) st
                       then set_firstPixel (uint (t0 + texels st (take i descs))) d
                       else d).
Proof.
  induction descs as [|d rest IH]; intros t0 host r H Ht.
  - simpl in H. injection H as <-. simpl.
    split; [reflexivity|]. split; [constructor|]. intros i d Hd. discriminate.
  - simpl in H. destruct (TexelStorage_eqb (storage d) st) eqn:E.
    + destruct (memcpy_words host _ (idata d) (pixelCount d)) as [host1|]; [|discriminate].
      simpl in H.
      destruct (copy_texels st rest _ host1) as [r1|] eqn:Er; [|discriminate].
      simpl in H. injection H as <-. simpl.
      destruct (IH _ _ _ Er) as (Hl & Hf & Hi); [unfold uint; apply Zmod_mod|].
      split; [lia|]. split; [constructor; [repeat split|exact Hf]|].
      intros [|i] d0 Hd0; simpl in *.
      * injection Hd0 as <-. rewrite E, Z.add_0_r, Ht. reflexivity.
      * rewrite (Hi i d0 Hd0), E. destruct (TexelStorage_eqb (storage d0) st); [|reflexivity].
        do 2 f_equal. rewrite uint_add_l. f_equal. lia.
    + destruct (copy_texels st rest t0 host) as [r1|] eqn:Er; [|discriminate].
      simpl in H. injection H as <-. simpl.
      destruct (IH _ _ _ Er Ht) as (Hl & Hf & Hi).
      split; [lia|]. split; [constructor; [repeat split|exact Hf]|].
      intros [|i] d0 Hd0; simpl in *.
      * injection Hd0 as <-. rewrite E. reflexivity.
      * rewrite (Hi i d0 Hd0), E. rewrite Z.add_0_l. reflexivity.
Qed.

(** The host words after the second loop, when the total fits 32 bits. *)
Lemma copy_texels_host st : forall descs t0 host r,
  copy_texels st descs t0 host = Some r ->
  0 <= t0 -> t0 + texels st descs < 2 ^ 32 ->
  length (snd r) = length host /\
  (forall (i : nat) d j, descs !! i = Some d -> storage d = st ->
     0 <= j < pixelCount d ->
     vec_at (snd r) (words_per_texel st * (t0 + texels st (take i descs)) + j)
     = Some <$> vec_at (idata d) j) /\
  (forall k,
     (forall (i : nat) d, descs !! i = Some d -> storage d = st ->
        ~ (words_per_texel st * (t0 + texels st (take i descs)) <= k
           < words_per_texel st * (t0 + texels st (take i descs)) + pixelCount d)) ->
     vec_at (snd r) k = vec_at host k).
Proof.
  pose proof (words_per_texel_pos st) as Hw.
  induction descs as [|d rest IH]; intros t0 host r H Ht Hsum.
  - simpl in H. injection H as <-. simpl. split; [reflexivity|].
    split; [intros i d j Hd; discriminate|reflexivity].
  - pose proof (copy_texels_valid st _ _ _ _ H) as Hv.
    assert (Hnn : forall d0, d0 ∈ rest -> storage d0 = st -> 0 <= pixelCount d0).
    { intros d0 Hd0 Hs. apply (Hv d0); [right; exact Hd0|exact Hs]. }
    pose proof (texels_nonneg st rest Hnn) as Hrest.
    simpl in H, Hsum. destruct (TexelStorage_eqb_spec (storage d) st) as [E|E].
    + assert (Hd : texture_ok d) by (apply Hv; [left|exact E]).
      destruct Hd as [Hp0 Hp1].
      destruct (memcpy_words host _ (idata d) (pixelCount d)) as [host1|] eqn:Em;
        [|discriminate].
      simpl in H.
      destruct (copy_texels st rest _ host1) as [r1|] eqn:Er; [|discriminate].
      simpl in H. injection H as <-. simpl.
      rewrite uint_small in Er by lia.
      apply memcpy_words_spec in Em as (_ & _ & _ & Hl1 & Hm).
      destruct (IH _ _ _ Er) as (Hl & HA & HB); [lia|lia|].
      split; [congruence|]. split.
      * intros [|i] d0 j Hd0 Hs Hj; simpl in *.
        -- injection Hd0 as <-. rewrite Z.add_0_r.
           rewrite HB.
           ++ rewrite Hm.
              destruct (Z.leb_spec (words_per_texel st * t0) (words_per_texel st * t0 + j));
                [|lia].
              destruct (Z.ltb_spec (words_per_texel st * t0 + j)
                          (words_per_texel st * t0 + pixelCount d)); [|lia].
              simpl. do 2 f_equal. lia.
           ++ intros i d1 Hd1 Hs1.
              pose proof (texels_take_le st rest i Hnn). nia.
        -- destruct (TexelStorage_eqb_spec (storage d) st); [|contradiction].
           rewrite <- (HA i d0 j Hd0 Hs Hj). f_equal. lia.
      * intros k Hk. rewrite HB.
        -- rewrite Hm.
           specialize (Hk 0%nat d eq_refl E). simpl in Hk. rewrite Z.add_0_r in Hk.
           destruct (Z.leb_spec (words_per_texel st * t0) k); simpl; [|reflexivity].
           destruct (Z.ltb_spec k (words_per_texel st * t0 + pixelCount d)); [lia|reflexivity].
        -- intros i d1 Hd1 Hs1. specialize (Hk (S i) d1 Hd1 Hs1). simpl in Hk.
           destruct (TexelStorage_eqb_spec (storage d) st); [|contradiction].
           replace (t0 + pixelCount d + texels st (take i rest))
             with (t0 + (pixelCount d + texels st (take i rest))) by lia.
           exact Hk.
    + destruct (copy_texels st rest t0 host) as [r1|] eqn:Er; [|discriminate].
      simpl in H. injection H as <-. simpl.
      destruct (IH _ _ _ Er) as (Hl & HA & HB); [lia|lia|].
      split; [exact Hl|]. split.
      * intros [|i] d0 j Hd0 Hs Hj; simpl in *.
        -- injection Hd0 as <-. contradiction.
        -- destruct (TexelStorage_eqb_spec (storage d) st); [contradiction|].
           rewrite Z.add_0_l. apply (HA i d0 j Hd0 Hs Hj).
      * intros k Hk. apply HB. intros i d1 Hd1 Hs1.
        specialize (Hk (S i) d1 Hd1 Hs1). simpl in Hk.
        destruct (TexelStorage_eqb_spec (storage d) st); [contradiction|].
        rewrite Z.add_0_l in Hk. exact Hk.
Qed.

(** The second loop stays inside a buffer that holds the total. *)
Lemma copy_texels_is_Some st : forall descs t0 host,
  (forall d, d ∈ descs -> storage d = st -> texture_ok d) ->
  0 <= t0 -> t0 + texels st descs < 2 ^ 32 ->
  words_per_texel st * (t0 + texels st descs) <= Z.of_nat (length host) ->
  is_Some (copy_texels st descs t0 host).
Proof.
  pose proof (words_per_texel_pos st) as Hw.
  induction descs as [|d rest IH]; intros t0 host Hv Ht Hsum Hlen; simpl.
  - eauto.
  - assert (Hnn : forall d0, d0 ∈ rest -> storage d0 = st -> 0 <= pixelCount d0).
    { intros d0 Hd0 Hs. apply (Hv d0); [right; exact Hd0|exact Hs]. }
    pose proof (texels_nonneg st rest Hnn) as Hrest.
    simpl in Hsum, Hlen. destruct (TexelStorage_eqb_spec (storage d) st) as [E|E].
    + destruct (Hv d) as [Hp0 Hp1]; [left|exact E|].
      destruct (memcpy_words_is_Some host (words_per_texel st * t0) (idata d) (pixelCount d))
        as [host1 Em]; [nia|lia|nia|].
      rewrite Em. simpl.
      apply memcpy_words_spec in Em as (_ & _ & _ & Hl1 & _).
      rewrite uint_small by lia.
      destruct (IH (t0 + pixelCount d) host1) as [r1 Er];
        [intros; apply Hv; [right|]; assumption|lia|lia|rewrite Hl1; nia|].
      rewrite Er. simpl. eauto.
    + destruct (IH t0 host) as [r1 Er];
        [intros; apply Hv; [right|]; assumption|lia|lia|lia|].
      rewrite Er. simpl. eauto.
Qed.

Lemma visited_textures_all t descs :
  texDescs t = Some descs -> textureCount t = Z.of_nat (length descs) ->
  visited_textures t = Some descs.
Proof.
  intros Hd Hc. unfold visited_textures. rewrite Hd, Hc. simpl.
  destruct (Z.leb_spec (Z.of_nat (length descs)) 0).
  - destruct descs; [reflexivity|simpl in *; lia].
  - destruct (Z.leb_spec (Z.of_nat (length descs)) (Z.of_nat (length descs))); [|lia].
    rewrite Nat2Z.id, firstn_all. reflexivity.
Qed.

Lemma SyncStorageType_inv st t t' descs :
  SyncStorageType st t = Some t' ->
  texDescs t = Some descs -> textureCount t = Z.of_nat (length descs) ->
  exists r,
    let size := Z.max 16 (count_texels st descs 0) in
    copy_texels st descs 0 (replicate (Z.to_nat (words_per_texel st * size)) None) = Some r /\
    texDescs t' = Some (fst r) /\
    textureCount t' = textureCount t /\
    buffer_of st t' = Some (mkTexelBuffer size (snd r)) /\
    texel_count_of st t' = size /\
    forall st', st' <> st ->
      buffer_of st' t' = buffer_of st' t /\ texel_count_of st' t' = texel_count_of st' t.
Proof.
  unfold SyncStorageType. intros H Hd Hc.
  rewrite (visited_textures_all t descs Hd Hc) in H. simpl in H.
  destruct (copy_texels st descs 0 _) as [r|] eqn:Er; [|discriminate].
  simpl in H. injection H as <-.
  exists r. simpl. split; [reflexivity|].
  assert (Hx : (fun l => fst r ++ drop (Z.to_nat (textureCount t)) l) <$> texDescs t
               = Some (fst r)).
  { rewrite Hd, Hc, Nat2Z.id. simpl. rewrite drop_all, app_nil_r. reflexivity. }
  destruct st; simpl; (repeat split; try reflexivity; try exact Hx);
    match goal with H : ?s <> _ |- _ => destruct s; simpl; congruence end.
Qed.

Lemma sync_step st t t' descs :
  SyncStorageType st t = Some t' ->
  texDescs t = Some descs -> textureCount t = Z.of_nat (length descs) ->
  exists descs',
    texDescs t' = Some descs' /\ textureCount t' = Z.of_nat (length descs') /\
    Forall2 same_texels descs descs' /\
    (forall (i : nat) d, descs !! i = Some d ->
       descs' !! i = Some (if TexelStorage_eqb (storage d) st
                           then set_firstPixel (uint (texels st (take i descs))) d
                           else d)) /\
    texel_count_of st t' = Z.max 16 (uint (texels st descs)) /\
    forall st', st' <> st -> texel_count_of st' t' = texel_count_of st' t.
Proof.
  intros H Hd Hn. apply (SyncStorageType_inv _ _ _ _ H Hd) in Hn as Hinv.
  destruct Hinv as (r & Hinv).
  cbv zeta in Hinv. destruct Hinv as (Er & Ed' & Hn' & _ & Hc & Ho).
  destruct (copy_texels_descs _ _ _ _ _ Er uint_0) as (Hl & Hf & Hi).
  exists (fst r). split; [exact Ed'|]. split; [rewrite Hn', Hn, Hl; reflexivity|].
  split; [exact Hf|]. split.
  - intros i d Hi'. rewrite (Hi i d Hi'), Z.add_0_l. reflexivity.
  - split.
    + rewrite Hc, count_texels_spec by reflexivity. rewrite Z.add_0_l. reflexivity.
    + intros st' Hst'. apply (Ho st' Hst').
Qed.

Lemma sync_is_Some st t descs :
  texDescs t = Some descs -> textureCount t = Z.of_nat (length descs) ->
  (forall d, d ∈ descs -> storage d = st -> texture_ok d) ->
  texels st descs < 2 ^ 32 ->
  is_Some (SyncStorageType st t).
Proof.
  intros Hd Hn Hv Hsum. unfold SyncStorageType.
  rewrite (visited_textures_all t descs Hd Hn). simpl.
  assert (H0 : 0 <= texels st descs).
  { apply texels_nonneg. intros d Hin Hs. apply (Hv d Hin Hs). }
  rewrite count_texels_spec by reflexivity. rewrite Z.add_0_l, uint_small by lia.
  pose proof (words_per_texel_pos st) as Hw.
  destruct (copy_texels_is_Some st descs 0
              (replicate (Z.to_nat (words_per_texel st * Z.max 16 (texels st descs))) None))
    as [r Er]; [exact Hv|lia|lia|rewrite length_replicate; nia|].
  rewrite Er. simpl. eauto.
Qed.

(** X11: on a core that holds [textureCount] descriptors, one pass of
    [SyncStorageType] replaces the buffer of its storage type by one of
    max(16, total) texels, the total being the 32-bit sum of
    the pixel counts of the textures of that type, and records that size in
    the statistics; every texture of the type is told to start at the sum of
    the textures of the type before it; the textures, buffers and counts of
    the other two types are left as they were. *)
Theorem SyncStorageType_offsets st t t' descs :
  SyncStorageType st t = Some t' ->
  texDescs t = Some descs -> textureCount t = Z.of_nat (length descs) ->
  exists descs' buf,
    texDescs t' = Some descs' /\ textureCount t' = Z.of_nat (length descs') /\
    buffer_of st t' = Some buf /\
    tb_size buf = Z.max 16 (uint (texels st descs)) /\
    texel_count_of st t' = tb_size buf /\
    (forall st', st' <> st ->
       buffer_of st' t' = buffer_of st' t /\ texel_count_of st' t' = texel_count_of st' t) /\
    forall (i : nat) d, descs !! i = Some d ->
      descs' !! i = Some (if TexelStorage_eqb (storage d) st
                          then set_firstPixel (uint (texels st (take i descs))) d
                          else d).
Proof.
  intros H Hd Hn. destruct (SyncStorageType_inv _ _ _ _ H Hd Hn) as (r & Hinv).
  cbv zeta in Hinv. destruct Hinv as (Er & Ed' & Hn' & Hb & Hc & Ho).
  destruct (copy_texels_descs _ _ _ _ _ Er uint_0) as (Hl & _ & Hi).
  exists (fst r), (mkTexelBuffer (Z.max 16 (count_texels st descs 0)) (snd r)).
  split; [exact Ed'|]. split; [rewrite Hn', Hn, Hl; reflexivity|].
  split; [exact Hb|]. split.
  { simpl. rewrite count_texels_spec by reflexivity. rewrite Z.add_0_l. reflexivity. }
  split; [exact Hc|]. split; [exact Ho|].
  intros i d Hd0. rewrite (Hi i d Hd0), Z.add_0_l. reflexivity.
Qed.

(** X12: with [textureCount] descriptors and a total below 2^32, a pass is defined
    exactly when every texture of its storage type has a pixel count that is
    not negative and not beyond its texel data: the buffer of max(16, total)
    texels always has room for what the pass copies. *)
Theorem SyncStorageType_returns_iff st t descs :
  texDescs t = Some descs -> textureCount t = Z.of_nat (length descs) ->
  texels st descs < 2 ^ 32 ->
  is_Some (SyncStorageType st t) <->
  forall d, d ∈ descs -> storage d = st -> texture_ok d.
Proof.
  intros Hd Hn Hsum. split.
  - intros [t' H]. destruct (SyncStorageType_inv _ _ _ _ H Hd Hn) as (r & Hinv).
    cbv zeta in Hinv. destruct Hinv as (Er & _).
    apply (copy_texels_valid _ _ _ _ _ Er).
  - intros Hv. apply (sync_is_Some st t descs Hd Hn Hv Hsum).
Qed.

(** X13: the host copy of the buffer after a pass.  The buffer has
    [words_per_texel] words per texel; texture [i] of the storage type has
    its first [pixelCount] words at the element it was told to start at, and
    every word outside these areas has never been written. *)
Theorem SyncStorageType_host st t t' descs :
  SyncStorageType st t = Some t' ->
  texDescs t = Some descs -> textureCount t = Z.of_nat (length descs) ->
  texels st descs < 2 ^ 32 ->
  exists buf,
    buffer_of st t' = Some buf /\
    Z.of_nat (length (tb_host buf)) = words_per_texel st * tb_size buf /\
    (forall (i : nat) d j, descs !! i = Some d -> storage d = st ->
       0 <= j < pixelCount d ->
       vec_at (tb_host buf) (words_per_texel st * texels st (take i descs) + j)
       = Some <$> vec_at (idata d) j) /\
    (forall k, 0 <= k < words_per_texel st * tb_size buf ->
       (forall (i : nat) d, descs !! i = Some d -> storage d = st ->
          ~ (words_per_texel st * texels st (take i descs) <= k
             < words_per_texel st * texels st (take i descs) + pixelCount d)) ->
       vec_at (tb_host buf) k = Some None).
Proof.
  intros H Hd Hn Hsum. destruct (SyncStorageType_inv _ _ _ _ H Hd Hn) as (r & Hinv).
  cbv zeta in Hinv. destruct Hinv as (Er & _ & _ & Hb & _).
  pose proof (words_per_texel_pos st) as Hw.
  destruct (copy_texels_host _ _ _ _ _ Er) as (Hl & HA & HB); [lia|lia|].
  eexists. split; [exact Hb|]. simpl.
  rewrite length_replicate in Hl. split; [rewrite Hl; lia|]. split.
  - intros i d j Hi Hs Hj. rewrite <- (HA i d j Hi Hs Hj). f_equal.
  - intros k Hk Hout. rewrite HB.
    + rewrite vec_at_lookup by lia. apply lookup_replicate_2. lia.
    + intros i d Hi Hs. rewrite Z.add_0_l. apply (Hout i d Hi Hs).
Qed.

(** X14: in the ARGB128 buffer a texel is four words, and the copy of line
    334 is [pixelCount] words long: of the 4 * [pixelCount] words of a
    texture's area, those from [pixelCount] on are never written. *)
Theorem SyncStorageType_ARGB128_quarter t t' descs (i : nat) d j :
  SyncStorageType ARGB128 t = Some t' ->
  texDescs t = Some descs -> textureCount t = Z.of_nat (length descs) ->
  texels ARGB128 descs < 2 ^ 32 ->
  descs !! i = Some d -> storage d = ARGB128 ->
  pixelCount d <= j < 4 * pixelCount d ->
  exists buf,
    buffer_of ARGB128 t' = Some buf /\
    vec_at (tb_host buf) (4 * texels ARGB128 (take i descs) + j) = Some None.
Proof.
  intros H Hd Hn Hsum Hi Hs Hj. destruct (SyncStorageType_inv _ _ _ _ H Hd Hn) as (r & Hinv).
  cbv zeta in Hinv. destruct Hinv as (Er & _ & _ & Hb & _).
  pose proof (copy_texels_valid _ _ _ _ _ Er) as Hv.
  assert (Hnn : forall d0, d0 ∈ descs -> storage d0 = ARGB128 -> 0 <= pixelCount d0).
  { intros d0 Hin Hs0. apply (Hv d0 Hin Hs0). }
  destruct (copy_texels_host _ _ _ _ _ Er) as (Hl & _ & HB); [lia|lia|].
  eexists. split; [exact Hb|]. simpl.
  pose proof (texels_take_le ARGB128 descs i Hnn) as Hle.
  pose proof (texels_take_lt ARGB128 descs i (length descs) d Hnn Hi Hs
                (lookup_lt_Some _ _ _ Hi)) as Hlast.
  rewrite firstn_all in Hlast.
  rewrite count_texels_spec in * by reflexivity.
  rewrite Z.add_0_l, uint_small in * by lia.
  change (words_per_texel ARGB128) with 4 in *.
  rewrite HB.
  - rewrite vec_at_lookup by lia. apply lookup_replicate_2. lia.
  - intros i2 d2 Hi2 Hs2. rewrite Z.add_0_l.
    destruct (Nat.lt_trichotomy i2 i) as [Hlt|[->|Hgt]].
    + pose proof (texels_take_lt ARGB128 descs i2 i d2 Hnn Hi2 Hs2 Hlt).
      pose proof (Hnn d2 (list_elem_of_lookup_2 _ _ _ Hi2) Hs2). lia.
    + rewrite Hi in Hi2. injection Hi2 as <-. lia.
    + pose proof (texels_take_lt ARGB128 descs i i2 d Hnn Hi Hs Hgt). lia.
Qed.

(** ** SetTextures *)

Lemma SetTextures_inv tex textures t t' :
  SetTextures tex textures t = Some t' -> textures <> 0 ->
  0 < textures <= Z.of_nat (length tex) /\
  exists t1 t2 t3,
    texDescs t1 = Some (take (Z.to_nat textures) tex) /\
    textureCount t1 = Z.of_nat (length (take (Z.to_nat textures) tex)) /\
    (forall st, texel_count_of st t1 = texel_count_of st t) /\
    SyncStorageType ARGB32 t1 = Some t2 /\
    SyncStorageType ARGB128 t2 = Some t3 /\
    SyncStorageType NRM32 t3 = Some t'.
Proof.
  unfold SetTextures. intros H Hn.
  destruct (Z.eqb_spec textures 0); [contradiction|].
  destruct (Z.leb_spec 0 textures); [|discriminate].
  destruct (Z.leb_spec textures (Z.of_nat (length tex))); [|discriminate].
  simpl in H. split; [lia|].
  match type of H with (SyncStorageType _ ?t1 ≫= _) = _ => set (t1' := t1) in * end.
  destruct (SyncStorageType ARGB32 t1') as [t2|] eqn:E1; [|discriminate]. simpl in H.
  destruct (SyncStorageType ARGB128 t2) as [t3|] eqn:E2; [|discriminate]. simpl in H.
  exists t1', t2, t3. split; [reflexivity|]. split; [simpl; rewrite length_take; lia|].
  repeat split; assumption.
Qed.

Lemma SetTextures_spec tex textures t t' :
  SetTextures tex textures t = Some t' -> textures <> 0 ->
  0 < textures <= Z.of_nat (length tex) /\
  exists descs',
    texDescs t' = Some descs' /\
    Z.of_nat (length descs') = textures /\
    (forall (i : nat) d, Z.of_nat i < textures -> tex !! i = Some d ->
       descs' !! i = Some (set_firstPixel (uint (texels (storage d) (take i tex))) d)) /\
    forall st, texel_count_of st t'
               = Z.max 16 (uint (texels st (take (Z.to_nat textures) tex))).
Proof.
  intros H Hn.
  destruct (SetTextures_inv _ _ _ _ H Hn) as (Hr & t1 & t2 & t3 & Hd & N0 & _ & E1 & E2 & E3).
  split; [exact Hr|].
  destruct (sync_step _ _ _ _ E1 Hd N0) as (descs1 & Hd1 & N1 & F1 & L1 & C1 & O1).
  destruct (sync_step _ _ _ _ E2 Hd1 N1) as (descs2 & Hd2 & N2 & F2 & L2 & C2 & O2).
  destruct (sync_step _ _ _ _ E3 Hd2 N2) as (descs3 & Hd3 & N3 & F3 & L3 & C3 & O3).
  exists descs3. split; [exact Hd3|]. split; [|split].
  - rewrite <- (Forall2_length _ _ _ F3), <- (Forall2_length _ _ _ F2),
            <- (Forall2_length _ _ _ F1), length_take. lia.
  - intros i d Hi Hd0.
    assert (Hd0' : take (Z.to_nat textures) tex !! i = Some d)
      by (rewrite lookup_take_lt by lia; exact Hd0).
    assert (T0 : take i (take (Z.to_nat textures) tex) = take i tex)
      by (rewrite take_take; f_equal; lia).
    assert (T1 : forall st, texels st (take i descs1) = texels st (take i tex)).
    { intros st. rewrite <- T0. symmetry. apply texels_same, Forall2_take, F1. }
    assert (T2 : forall st, texels st (take i descs2) = texels st (take i tex)).
    { intros st. rewrite <- T1. symmetry. apply texels_same, Forall2_take, F2. }
    pose proof (L1 i d Hd0') as S1. rewrite T0 in S1.
    destruct (storage d) eqn:Es; simpl in S1.
    + pose proof (L2 i _ S1) as S2. simpl in S2. rewrite Es in S2. simpl in S2.
      pose proof (L3 i _ S2) as S3. simpl in S3. rewrite Es in S3. simpl in S3.
      exact S3.
    + pose proof (L2 i _ S1) as S2. rewrite Es in S2. simpl in S2. rewrite T1 in S2.
      pose proof (L3 i _ S2) as S3. simpl in S3. rewrite Es in S3. simpl in S3.
      exact S3.
    + pose proof (L2 i _ S1) as S2. rewrite Es in S2. simpl in S2.
      pose proof (L3 i _ S2) as S3. rewrite Es in S3. simpl in S3. rewrite T2 in S3.
      exact S3.
  - intros st.
    assert (U1 : texels st descs1 = texels st (take (Z.to_nat textures) tex))
      by (symmetry; apply texels_same, F1).
    assert (U2 : texels st descs2 = texels st (take (Z.to_nat textures) tex))
      by (rewrite <- U1; symmetry; apply texels_same, F2).
    destruct st.
    + rewrite O3, O2 by discriminate. exact C1.
    + rewrite O3 by discriminate. rewrite C2, U1. reflexivity.
    + rewrite C3, U2. reflexivity.
Qed.

(** X15: after [SetTextures] with a texture count other than zero, the core
    holds one descriptor per texture, equal to the caller's except that
    [firstPixel] is the 32-bit sum of the pixel counts of the earlier
    textures of the same storage type: the three passes number the textures
    of each type independently, and each statistic is max(16, total) of its
    type. *)
Theorem SetTextures_offsets tex textures t t' :
  SetTextures tex textures t = Some t' -> textures <> 0 ->
  0 < textures <= Z.of_nat (length tex) /\
  exists descs',
    texDescs t' = Some descs' /\
    Z.of_nat (length descs') = textures /\
    (forall (i : nat) d, Z.of_nat i < textures -> tex !! i = Some d ->
       descs' !! i = Some (set_firstPixel (uint (texels (storage d) (take i tex))) d)) /\
    forall st, texel_count_of st t'
               = Z.max 16 (uint (texels st (take (Z.to_nat textures) tex))).
Proof. apply SetTextures_spec. Qed.

(** X16: [SetTextures] returns when the count is within the caller's array,
    every texture has a pixel count between zero and the length of its texel
    data, and the total of each storage type is below 2^32. *)
Theorem SetTextures_returns tex textures t :
  0 <= textures <= Z.of_nat (length tex) ->
  (forall d, d ∈ take (Z.to_nat textures) tex -> texture_ok d) ->
  (forall st, texels st (take (Z.to_nat textures) tex) < 2 ^ 32) ->
  is_Some (SetTextures tex textures t).
Proof.
  intros [H0 H1] Hv Hsum. unfold SetTextures.
  destruct (Z.eqb_spec textures 0); [eauto|].
  destruct (Z.leb_spec 0 textures); [|lia].
  destruct (Z.leb_spec textures (Z.of_nat (length tex))); [|lia].
  simpl.
  match goal with |- is_Some (SyncStorageType _ ?t1 ≫= _) => set (t1' := t1) end.
  assert (N0 : textureCount t1' = Z.of_nat (length (take (Z.to_nat textures) tex)))
    by (simpl; rewrite length_take; lia).
  destruct (sync_is_Some ARGB32 t1' _ eq_refl N0) as [t2 E1];
    [intros d Hd _; apply (Hv d Hd)|apply Hsum|].
  rewrite E1. simpl.
  destruct (sync_step _ _ _ _ E1 eq_refl N0) as (descs1 & Hd1 & N1 & F1 & _).
  destruct (sync_is_Some ARGB128 t2 _ Hd1 N1) as [t3 E2];
    [intros d Hd _; apply (same_texels_ok _ _ F1 Hv d Hd)
    |rewrite <- (texels_same _ _ _ F1); apply Hsum|].
  rewrite E2. simpl.
  destruct (sync_step _ _ _ _ E2 Hd1 N1) as (descs2 & Hd2 & N2 & F2 & _).
  apply (sync_is_Some NRM32 t3 _ Hd2 N2).
  - intros d Hd _. apply (same_texels_ok _ _ F2 (same_texels_ok _ _ F1 Hv) d Hd).
  - rewrite <- (texels_same _ _ _ F2), <- (texels_same _ _ _ F1). apply Hsum.
Qed.

(** ** SetMaterials *)

Lemma resolve_texture_address descs e k old new :
  resolve_texture descs e k old = Some new -> address_of descs e k old new.
Proof.
  unfold resolve_texture, address_of. intros H.
  destruct (texture e !! k) as [idx|]; [|discriminate]. simpl in H.
  exists idx. split; [reflexivity|].
  destruct (idx =? -1); [congruence|].
  destruct descs as [l|]; [|discriminate]. simpl in H.
  destruct (vec_at l idx) as [d|] eqn:E; [|discriminate]. simpl in H.
  exists l, d. repeat split; congruence.
Qed.

Lemma resolve_material_addresses descs m e m' :
  resolve_material descs m e = Some m' -> addresses_of descs e m m'.
Proof.
  unfold resolve_material. intros H.
  repeat match type of H with
  | (resolve_texture ?d ?e ?k ?f ≫= _) = Some _ =>
      let E := fresh "E" in
      destruct (resolve_texture d e k f) eqn:E; [|discriminate];
      apply resolve_texture_address in E; simpl in H
  end.
  injection H as <-. split; [|reflexivity].
  intros k Hk.
  do 11 (destruct k as [|k]; [first [exact E|exact E0|exact E1|exact E2|exact E3|exact E4
                                     |exact E5|exact E6|exact E7|exact E8|discriminate Hk]|]).
  discriminate Hk.
Qed.

Lemma resolve_materials_spec descs : forall mats matEx out,
  resolve_materials descs mats matEx = Some out ->
  length out = length mats /\
  forall i m e, mats !! i = Some m -> matEx !! i = Some e ->
    exists m', out !! i = Some m' /\ addresses_of descs e m m'.
Proof.
  induction mats as [|m mats IH]; intros matEx out H; simpl in H.
  - injection H as <-. split; [reflexivity|]. intros i m e Hm. discriminate.
  - destruct matEx as [|e matEx]; [discriminate|].
    destruct (resolve_material descs m e) as [m1|] eqn:E1; [|discriminate]. simpl in H.
    destruct (resolve_materials descs mats matEx) as [rest|] eqn:E2; [|discriminate].
    simpl in H. injection H as <-.
    destruct (IH _ _ E2) as [Hl Hi]. split; [simpl; lia|].
    intros [|i] m0 e0 Hm He; simpl in *.
    + injection Hm as <-. injection He as <-. exists m1. split; [reflexivity|].
      apply resolve_material_addresses, E1.
    + apply (Hi i m0 e0 Hm He).
Qed.

Lemma SetMaterials_spec descs mat matEx materialCount out :
  SetMaterials descs mat matEx materialCount = Some out ->
  Z.of_nat (length out) = materialCount /\
  forall (i : nat) m e,
    Z.of_nat i < materialCount -> mat !! i = Some m -> matEx !! i = Some e ->
    exists m', out !! i = Some m' /\ addresses_of descs e m m'.
Proof.
  unfold SetMaterials. intros H.
  destruct (Z.leb_spec 0 materialCount); [|discriminate].
  destruct (Z.leb_spec materialCount (Z.of_nat (length mat))); [|discriminate].
  simpl in H. apply resolve_materials_spec in H as [Hl Hi]. split.
  - rewrite Hl, length_take. lia.
  - intros i m e Hlt Hm He. apply (Hi i m e); [|exact He].
    rewrite lookup_take_lt by lia. exact Hm.
Qed.

(** X17: [SetMaterials] keeps [materialCount] materials; in each, the
    address of a texture slot is the [firstPixel] of the descriptor its
    index names, or the caller's value where the index is -1, and nothing
    else of the material changes. *)
Theorem SetMaterials_addresses descs mat matEx materialCount out :
  SetMaterials descs mat matEx materialCount = Some out ->
  Z.of_nat (length out) = materialCount /\
  forall (i : nat) m e,
    Z.of_nat i < materialCount -> mat !! i = Some m -> matEx !! i = Some e ->
    exists m', out !! i = Some m' /\ addresses_of descs e m m'.
Proof. apply SetMaterials_spec. Qed.

Lemma resolve_texture_set8 descs e v k f :
  k <> 8%nat -> resolve_texture descs (set_texture 8 v e) k f = resolve_texture descs e k f.
Proof.
  intros Hk. unfold resolve_texture, set_texture; simpl.
  rewrite list_lookup_insert_ne by congruence. reflexivity.
Qed.

Lemma resolve_material_set8 descs m e v :
  resolve_material descs m (set_texture 8 v e) = resolve_material descs m e.
Proof.
  unfold resolve_material.
  rewrite !resolve_texture_set8 by discriminate. reflexivity.
Qed.

Lemma resolve_materials_set8 descs v : forall mats matEx,
  resolve_materials descs mats (set_texture 8 v <$> matEx) = resolve_materials descs mats matEx.
Proof.
  induction mats as [|m mats IH]; intros [|e matEx]; simpl; try reflexivity.
  rewrite resolve_material_set8, IH. reflexivity.
Qed.

(** X18: texture slot 8, the second roughness map, is never read: whatever
    index the materials carry there, also one that names no texture, the
    result of [SetMaterials] is the same. *)
Theorem SetMaterials_ignores_texture8 descs mat matEx materialCount v :
  SetMaterials descs mat (set_texture 8 v <$> matEx) materialCount
  = SetMaterials descs mat matEx materialCount.
Proof.
  unfold SetMaterials. destruct (_ && _); [|reflexivity].
  apply resolve_materials_set8.
Qed.

Lemma resolve_texture_is_Some descs e k f :
  is_Some (resolve_texture descs e k f) <->
  match texture e !! k with Some idx => texture_index_ok descs idx = true | None => False end.
Proof.
  unfold resolve_texture, texture_index_ok.
  destruct (texture e !! k) as [idx|]; simpl; [|split; [intros [? ?]; discriminate|tauto]].
  destruct (Z.eqb_spec idx (-1)); simpl; [split; eauto|].
  destruct descs as [l|]; simpl; [|split; [intros [? ?]; discriminate|discriminate]].
  unfold vec_at.
  destruct (Z.leb_spec 0 idx); simpl.
  - destruct (Z.ltb_spec idx (Z.of_nat (length l))).
    + destruct (lookup_lt_is_Some_2 l (Z.to_nat idx)) as [d Hd]; [lia|].
      rewrite Hd. simpl. split; eauto.
    + rewrite lookup_ge_None_2 by lia. simpl. split; [intros [? ?]; discriminate|discriminate].
  - split; [intros [? ?]; discriminate|discriminate].
Qed.

Lemma resolve_material_is_Some descs m e :
  is_Some (resolve_material descs m e) <-> material_ok descs e = true.
Proof.
  unfold resolve_material, material_ok, forallb.
  rewrite !andb_true_iff.
  pose proof (fun k f => resolve_texture_is_Some descs e k f) as R.
  split.
  - intros [m' H].
    repeat match type of H with
    | (resolve_texture ?d ?e ?k ?f ≫= _) = Some _ =>
        let E := fresh "E" in
        destruct (resolve_texture d e k f) eqn:E; [|discriminate];
        apply mk_is_Some, R in E; simpl in H
    end.
    repeat match goal with
    | E : match texture e !! ?k with _ => _ end |- _ =>
        destruct (texture e !! k); [|destruct E]
    end.
    tauto.
  - intros H.
    repeat match goal with
    | |- is_Some (resolve_texture ?d ?e ?k ?f ≫= _) =>
        let x := fresh "x" in let E := fresh "E" in
        destruct (proj2 (R k f)) as [x E];
        [destruct (texture e !! k); [tauto|];
         repeat match goal with H : _ /\ _ |- _ => destruct H end; discriminate
        |rewrite E; simpl]
    end.
    eauto.
Qed.

Lemma resolve_materials_is_Some descs : forall mats matEx,
  is_Some (resolve_materials descs mats matEx) <->
  (length mats <= length matEx)%nat /\
  forall (i : nat) e, (i < length mats)%nat -> matEx !! i = Some e -> material_ok descs e = true.
Proof.
  induction mats as [|m mats IH]; intros matEx; simpl.
  - split; [intros _; split; [lia|intros; lia]|eauto].
  - destruct matEx as [|e matEx]; simpl.
    + split; [intros [? ?]; discriminate|intros [? _]; lia].
    + pose proof (resolve_material_is_Some descs m e) as Rm.
      specialize (IH matEx).
      destruct (resolve_material descs m e) as [m1|]; simpl.
      * destruct (resolve_materials descs mats matEx) as [rest|]; simpl.
        -- split; [intros _|eauto].
           destruct (proj1 IH) as [Hl Hi]; [eauto|]. split; [lia|].
           intros [|i] e0 Hlt He; simpl in *.
           ++ injection He as <-. apply Rm; eauto.
           ++ apply (Hi i); [lia|exact He].
        -- split; [intros [? ?]; discriminate|]. intros [Hl Hi].
           apply IH. split; [lia|]. intros i e0 Hlt He. apply (Hi (S i)); [lia|exact He].
      * split; [intros [? ?]; discriminate|]. intros [Hl Hi].
        exfalso. destruct (proj2 Rm) as [? ?]; [|discriminate].
        apply (Hi 0%nat); [lia|reflexivity].
Qed.

Lemma SetMaterials_is_Some descs mat matEx materialCount :
  0 <= materialCount <= Z.of_nat (length mat) ->
  materialCount <= Z.of_nat (length matEx) ->
  is_Some (SetMaterials descs mat matEx materialCount) <->
  forall (i : nat) e, Z.of_nat i < materialCount -> matEx !! i = Some e ->
    material_ok descs e = true.
Proof.
  intros [H0 H1] H2. unfold SetMaterials.
  destruct (Z.leb_spec 0 materialCount); [|lia].
  destruct (Z.leb_spec materialCount (Z.of_nat (length mat))); [|lia].
  simpl. rewrite resolve_materials_is_Some, length_take.
  split.
  - intros [_ Hi] i e Hlt He. apply (Hi i); [lia|exact He].
  - intros Hi. split; [lia|]. intros i e Hlt He. apply (Hi i); [lia|exact He].
Qed.

(** X19: with [materialCount] materials in both arrays, [SetMaterials] is
    defined exactly when, in each of them, every index of a slot it reads is
    -1 or the index of a texture descriptor the core holds; an index past
    the textures, a negative one other than -1, or any index while the core
    holds no descriptors, is an access outside [texDescs]. *)
Theorem SetMaterials_returns_iff descs mat matEx materialCount :
  0 <= materialCount <= Z.of_nat (length mat) ->
  materialCount <= Z.of_nat (length matEx) ->
  is_Some (SetMaterials descs mat matEx materialCount) <->
  forall (i : nat) e, Z.of_nat i < materialCount -> matEx !! i = Some e ->
    material_ok descs e = true.
Proof. apply SetMaterials_is_Some. Qed.

(** X20: materials after textures.  When [SetTextures] has returned for a
    texture count other than zero and [SetMaterials] returns, every slot
    with an index other than -1 names one of the textures, and the address
    stored is the number of texels of the earlier textures of the same
    storage type, independent of the textures of the other types. *)
Theorem SetMaterials_after_SetTextures tex textures t t' mat matEx materialCount out :
  SetTextures tex textures t = Some t' -> textures <> 0 ->
  SetMaterials (texDescs t') mat matEx materialCount = Some out ->
  forall (i : nat) m e (k : nat) idx,
    Z.of_nat i < materialCount -> mat !! i = Some m -> matEx !! i = Some e ->
    texture_used k = true -> texture e !! k = Some idx -> idx <> -1 ->
    exists m' d,
      out !! i = Some m' /\ 0 <= idx < textures /\ vec_at tex idx = Some d /\
      address k m' = uint (texels (storage d) (take (Z.to_nat idx) tex)).
Proof.
  intros H Hn HM i m e k idx Hi Hm He Hk Hidx Hne.
  destruct (SetTextures_spec _ _ _ _ H Hn) as (Hr & descs' & Hd' & Hlen & Hoff & _).
  destruct (SetMaterials_spec _ _ _ _ _ HM) as (_ & Hmat).
  destruct (Hmat i m e Hi Hm He) as (m' & Hout & Haddr & _).
  destruct (Haddr k Hk) as (idx' & Hidx' & Hcase).
  rewrite Hidx in Hidx'. injection Hidx' as <-.
  destruct (Z.eqb_spec idx (-1)); [contradiction|].
  destruct Hcase as (l & d' & Hl & Hv & Hnew).
  rewrite Hd' in Hl. injection Hl as <-.
  assert (Hrange : 0 <= idx < textures).
  { rewrite <- Hlen. apply vec_at_is_Some. rewrite Hv. eauto. }
  destruct (lookup_lt_is_Some_2 tex (Z.to_nat idx)) as [d Hd]; [lia|].
  pose proof (Hoff (Z.to_nat idx) d ltac:(lia) Hd) as Hd''.
  rewrite vec_at_lookup, Hd'' in Hv by lia. injection Hv as <-.
  exists m', d. split; [exact Hout|]. split; [exact Hrange|].
  split; [rewrite vec_at_lookup by lia; exact Hd|].
  rewrite Hnew. reflexivity.
Qed.

Lemma material_ok_None e :
  material_ok None e = true <->
  forall k, texture_used k = true -> texture e !! k = Some (-1).
Proof.
  unfold material_ok, forallb, texture_index_ok. rewrite !andb_true_iff. split.
  - intros H k Hk.
    do 11 (destruct k as [|k];
           [first [discriminate Hk
                  |match goal with
                   | |- texture e !! ?n = _ =>
                       destruct (texture e !! n) as [idx|];
                       [|repeat match goal with H : _ /\ _ |- _ => destruct H end;
                         discriminate];
                       destruct (Z.eqb_spec idx (-1)); [congruence|];
                       repeat match goal with H : _ /\ _ |- _ => destruct H end;
                       discriminate
                   end]|]).
    discriminate Hk.
  - intros H.
    rewrite !H by reflexivity. simpl. tauto.
Qed.

(** X21: no textures.  [SetTextures] with a count of zero returns at once:
    the core then holds no descriptors, while the texel buffers and their
    statistics stay those of the previous textures; a [SetMaterials] after it
    is defined exactly when every slot it reads holds -1. *)
Theorem SetMaterials_without_textures tex t mat matEx materialCount :
  0 <= materialCount <= Z.of_nat (length mat) ->
  materialCount <= Z.of_nat (length matEx) ->
  exists t',
    SetTextures tex 0 t = Some t' /\
    texDescs t' = None /\ textureCount t' = 0 /\
    (forall st, buffer_of st t' = buffer_of st t /\
                texel_count_of st t' = texel_count_of st t) /\
    (is_Some (SetMaterials (texDescs t') mat matEx materialCount) <->
     forall (i : nat) e k, Z.of_nat i < materialCount -> matEx !! i = Some e ->
       texture_used k = true -> texture e !! k = Some (-1)).
Proof.
  intros Hm He. eexists. split; [reflexivity|]. simpl.
  split; [reflexivity|]. split; [reflexivity|]. split.
  - intros []; split; reflexivity.
  - rewrite (SetMaterials_is_Some None mat matEx materialCount Hm He). split.
    + intros H i e k Hi Hl. apply material_ok_None, (H i e Hi Hl).
    + intros H i e Hi Hl. apply material_ok_None. intros k. apply (H i e k Hi Hl).
Qed.

(** ** Init *)

Ltac list_lengths :=
  repeat first [rewrite length_app | rewrite length_fmap | rewrite length_take
               | rewrite length_drop | rewrite length_replicate | rewrite length_insert].

Lemma convert_spec data8 off : forall count i data32,
  (i + count <= length data8)%nat -> (off + i + count <= length data32)%nat ->
  convert data8 off i count data32
  = Some (take (off + i) data32 ++ (Some <$> take count (drop i data8))
          ++ drop (off + i + count) data32).
Proof.
  induction count as [|count IH]; intros i data32 H8 H32; simpl.
  - rewrite Nat.add_0_r, take_drop. reflexivity.
  - destruct (lookup_lt_is_Some_2 data8 i) as [b Hb]; [lia|].
    rewrite Hb. simpl.
    destruct (Nat.ltb_spec (i + off) (length data32)); [|lia].
    rewrite IH by (rewrite ?length_insert; lia).
    f_equal.
    rewrite (drop_S data8 b i Hb). simpl.
    replace (off + S i)%nat with (S (i + off)) by lia.
    rewrite (take_S_r _ (i + off) (Some b)) by (apply list_lookup_insert_eq; lia).
    rewrite take_insert_ge by lia.
    rewrite drop_insert_lt by lia.
    rewrite <- app_assoc. simpl.
    replace (off + i)%nat with (i + off)%nat by lia.
    do 4 f_equal. lia.
Qed.

Lemma convert_reads data8 off : forall count i data32,
  is_Some (convert data8 off i count data32) ->
  (0 < count)%nat -> (i + count <= length data8)%nat.
Proof.
  induction count as [|count IH]; intros i data32 H Hc; [lia|].
  simpl in H. destruct (data8 !! i) as [b|] eqn:Hb; [|destruct H; discriminate].
  simpl in H. apply lookup_lt_Some in Hb.
  destruct (i + off <? length data32)%nat; [|destruct H; discriminate].
  destruct count as [|count]; [lia|].
  specialize (IH _ _ H). lia.
Qed.

Lemma three_tables (sob scr rnk : list Z) (n1 n2 n3 : nat) :
  (n1 <= length sob)%nat -> (n2 <= length scr)%nat -> (n3 <= length rnk)%nat ->
  (d1 ← convert sob 0 0 n1 (replicate (n1 + n2 + n3) None);
   d2 ← convert scr n1 0 n2 d1;
   convert rnk (n1 + n2) 0 n3 d2)
  = Some (Some <$> (take n1 sob ++ take n2 scr ++ take n3 rnk)).
Proof.
  intros Hs Hc Hr.
  rewrite convert_spec by (list_lengths; lia).
  cbn [mbind option_bind].
  rewrite convert_spec by (list_lengths; lia).
  cbn [mbind option_bind].
  rewrite convert_spec by (list_lengths; lia).
  f_equal. rewrite !drop_0, !Nat.add_0_r, !Nat.add_0_l.
  rewrite !fmap_app.
  generalize (Some <$> take n3 rnk). intros c.
  assert (La : length (Some <$> take n1 sob) = n1)
    by (rewrite length_fmap, length_take; lia).
  assert (Lb : length (Some <$> take n2 scr) = n2)
    by (rewrite length_fmap, length_take; lia).
  revert La Lb.
  generalize (Some <$> take n1 sob). intros a.
  generalize (Some <$> take n2 scr). intros b La Lb.
  rewrite take_0, drop_replicate, app_nil_l.
  assert (T1 : take n1 (a ++ replicate (n1 + n2 + n3 - n1) (@None Z)) = a)
    by (apply take_app_length'; lia).
  assert (D1 : drop (n1 + n2) (a ++ replicate (n1 + n2 + n3 - n1) (@None Z))
               = replicate n3 None).
  { rewrite drop_app_ge by lia. rewrite drop_replicate. f_equal. lia. }
  rewrite T1, D1.
  rewrite (app_assoc a b).
  rewrite (take_app_length' (a ++ b)) by (rewrite length_app; lia).
  rewrite drop_ge by (list_lengths; lia).
  rewrite app_nil_r, <- app_assoc. reflexivity.
Qed.

Lemma three_tables_read (sob scr rnk : list Z) (o2 o3 n1 n2 n3 : nat) data32 :
  (0 < n1)%nat -> (0 < n2)%nat -> (0 < n3)%nat ->
  is_Some (d1 ← convert sob 0 0 n1 data32;
           d2 ← convert scr o2 0 n2 d1;
           convert rnk o3 0 n3 d2) ->
  (n1 <= length sob)%nat /\ (n2 <= length scr)%nat /\ (n3 <= length rnk)%nat.
Proof.
  intros H1 H2 H3 H.
  destruct (convert sob 0 0 n1 data32) as [d1|] eqn:E1; [|destruct H; discriminate].
  cbn [mbind option_bind] in H.
  destruct (convert scr o2 0 n2 d1) as [d2|] eqn:E2; [|destruct H; discriminate].
  cbn [mbind option_bind] in H.
  pose proof (convert_reads _ _ _ _ _ (mk_is_Some _ _ E1) H1).
  pose proof (convert_reads _ _ _ _ _ (mk_is_Some _ _ E2) H2).
  pose proof (convert_reads _ _ _ _ _ H H3).
  lia.
Qed.

Lemma blueNoise_data_spec sob scr rnk :
  tables_fit sob scr rnk ->
  blueNoise_data sob scr rnk
  = Some (Some <$> (take (Z.to_nat 65536) sob ++ take (Z.to_nat (128 * 128 * 8)) scr
                    ++ take (Z.to_nat (128 * 128 * 8)) rnk)).
Proof.
  intros (Hs & Hc & Hr). unfold blueNoise_data. cbv zeta.
  replace (Z.to_nat (65536 * 5))
    with (Z.to_nat 65536 + Z.to_nat (128 * 128 * 8) + Z.to_nat (128 * 128 * 8))%nat by lia.
  replace (Z.to_nat (3 * 65536))
    with (Z.to_nat 65536 + Z.to_nat (128 * 128 * 8))%nat by lia.
  apply three_tables; lia.
Qed.

(** X22: the blue noise words.  The three loops of [Init] are defined
    exactly when the tables hold 65536, 128*128*8 and 128*128*8 entries at
    least, and they then tile the 5*65536 words without gap or overlap: the
    buffer is the first table, then the second, then the third, and no word
    of it is left unwritten. *)
Theorem blueNoise_layout sob scr rnk :
  (is_Some (blueNoise_data sob scr rnk) <-> tables_fit sob scr rnk) /\
  (tables_fit sob scr rnk ->
   blueNoise_data sob scr rnk
   = Some (Some <$> (take (Z.to_nat 65536) sob ++ take (Z.to_nat (128 * 128 * 8)) scr
                     ++ take (Z.to_nat (128 * 128 * 8)) rnk))).
Proof.
  split; [|apply blueNoise_data_spec].
  split.
  - unfold blueNoise_data. cbv zeta. intros H.
    assert (P1 : (0 < Z.to_nat 65536)%nat) by lia.
    assert (P2 : (0 < Z.to_nat (128 * 128 * 8))%nat) by lia.
    pose proof (three_tables_read sob scr rnk _ _ _ _ _ _ P1 P2 P2 H) as H'.
    unfold tables_fit. lia.
  - intros H. rewrite (blueNoise_data_spec _ _ _ H). apply mk_is_Some with (1 := eq_refl).
Qed.

(** X23: the compiled code.  For a device with a one-digit minor version,
    the file [Init] writes after compiling is the file it reads on a start
    that does not compile; only for major versions 5, 6 and 7 is there such
    a file: for any other, nothing is written and the read goes through a
    file pointer that was never set. *)
Theorem Init_ptx_round_trip ccMajor ccMinor :
  0 <= ccMajor -> 0 <= ccMinor < 10 ->
  ptx_written (computeCapability ccMajor ccMinor) = ptx_read ccMajor /\
  (is_Some (ptx_read ccMajor) <-> 5 <= ccMajor <= 7).
Proof.
  intros H0 H1. unfold ptx_written, ptx_read, computeCapability.
  replace ((ccMajor * 10 + ccMinor) ÷ 10) with ccMajor.
  - split; [reflexivity|].
    destruct (Z.eqb_spec ccMajor 7); [split; [lia|eauto]|].
    destruct (Z.eqb_spec ccMajor 6); [split; [lia|eauto]|].
    destruct (Z.eqb_spec ccMajor 5); [split; [lia|eauto]|].
    split; [intros [? ?]; discriminate|lia].
  - rewrite Z.quot_div_nonneg by lia.
    apply (Z.div_unique _ _ _ ccMinor); lia.
Qed.

(** ** The further properties at work *)

Lemma demoScene_rendered :
  Render demoKernels tt Restart f32_one f32_one demoScene = Done (tt, demoRendered, demo_log).
Proof. vm_compute. reflexivity. Defined.

Lemma Render_returns_iff_ready_witness :
  ready demoKernels demoScene /\
  exists s' l, Render demoKernels tt Restart f32_one f32_one demoScene = Done (tt, s', l).
Proof.
  split; [exact demoScene_ready|].
  apply (proj2 (Render_returns_iff_ready demoKernels tt Restart f32_one f32_one demoScene)).
  exact demoScene_ready.
Defined.

Lemma SetTarget_undefined_iff_witness :
  (target_reallocates demoCore (mkTexture 0 0) (currentSPP demoCore) = false /\
   accumulator demoCore = None) /\
  SetTarget demoKernels (mkTexture 0 0) (currentSPP demoCore) demoCore = Undefined.
Proof.
  assert (H : target_reallocates demoCore (mkTexture 0 0) (currentSPP demoCore) = false /\
              accumulator demoCore = None) by (split; reflexivity).
  split; [exact H|].
  apply (proj2 (proj1 (SetTarget_undefined_iff demoKernels (mkTexture 0 0)
                         (currentSPP demoCore) demoCore))).
  exact H.
Defined.

Lemma Render_leaves_configuration_witness :
  Render demoKernels tt Restart f32_one f32_one demoScene = Done (tt, demoRendered, demo_log) /\
  config demoRendered = config demoScene.
Proof.
  split; [exact demoScene_rendered|].
  apply (Render_leaves_configuration demoKernels tt Restart f32_one f32_one
           demoScene demoRendered demo_log demoScene_rendered).
Defined.

Lemma Render_random_numbers_witness :
  ready demoKernels demoScene /\
  exists s' l,
    Render demoKernels tt Restart f32_one f32_one demoScene = Done (tt, s', l) /\
    sa_pathLength <$> shade_dispatches l = [1; 2; 3].
Proof.
  split; [exact demoScene_ready|].
  pose proof (Render_random_numbers demoKernels tt Restart f32_one f32_one demoScene
                demoScene_ready) as H.
  cbv zeta in H. destruct H as (s' & l & E & _ & Hp & _).
  exists s', l. split; [exact E|exact Hp].
Defined.

Lemma Render_statistics_witness :
  ready demoKernels demoScene /\
  exists s' l,
    Render demoKernels tt Restart f32_one f32_one demoScene = Done (tt, s', l) /\
    st_primaryRayCount (coreStats s')
    = uint (scrwidth demoScene * scrheight demoScene * scrspp demoScene).
Proof.
  split; [exact demoScene_ready|].
  destruct (Render_statistics demoKernels tt Restart f32_one f32_one demoScene
              demoScene_ready) as (s' & l & c1 & c2 & c3 & E & _ & _ & Hp & _).
  exists s', l. split; [exact E|exact Hp].
Defined.

Lemma Render_descriptor_buffer_witness :
  Render demoKernels tt Restart f32_one f32_one demoScene = Done (tt, demoRendered, demo_log) /\
  instancesDirty demoScene = true /\
  exists arr,
    instDescArray demoKernels (meshes demoScene) (instances demoScene) = Some arr /\
    length arr = length (instances demoScene).
Proof.
  assert (Hd : instancesDirty demoScene = true) by reflexivity.
  split; [exact demoScene_rendered|]. split; [exact Hd|].
  pose proof (Render_descriptor_buffer demoKernels tt Restart f32_one f32_one
                demoScene demoRendered demo_log demoScene_rendered) as H.
  cbv zeta in H. rewrite Hd in H. destruct H as (arr & Ha & Hl & _).
  exists arr. split; [exact Ha|exact Hl].
Defined.

Lemma Setting_idempotent_witness :
  (exists s1 l1 l2,
     Setting "epsilon" f32_one demoScene = Done (tt, s1, l1) /\
     geometryEpsilon (vars s1) = f32_one /\
     Setting "epsilon" f32_one s1 = Done (tt, s1, l2)) /\
  (exists s1 l1 l2,
     Setting "clampValue" S754_nan demoScene = Done (tt, s1, l1) /\
     Setting "clampValue" S754_nan s1 = Done (tt, s1, l2) /\
     float_ne (clampValue (vars s1)) S754_nan = true).
Proof.
  split.
  - destruct (Setting_idempotent "epsilon" f32_one demoScene)
      as (s1 & l1 & l2 & E1 & E2 & _).
    exists s1, l1, l2. split; [exact E1|]. split; [|exact E2].
    vm_compute in E1. injection E1 as <- _. reflexivity.
  - destruct (Setting_idempotent "clampValue" S754_nan demoScene)
      as (s1 & l1 & l2 & E1 & E2 & _ & Hc).
    exists s1, l1, l2. split; [exact E1|]. split; [exact E2|].
    rewrite (Hc eq_refl). reflexivity.
Defined.

Lemma SetInstance_update_keeps_geometry_witness :
  (- 2 ^ 31 <= 0 < 2 ^ 31) /\
  exists i,
    vec_at (instances demoScene) 0 = Some i /\
    exists s' i',
      SetInstance demoKernels 0 0 mat4_Identity demoScene = Done (tt, s', []) /\
      vec_at (instances s') 0 = Some i' /\
      geometryInstance i' = geometryInstance i.
Proof.
  assert (Hi : - 2 ^ 31 <= 0 < 2 ^ 31) by (split; [discriminate|reflexivity]).
  split; [exact Hi|].
  destruct (vec_at (instances demoScene) 0) as [i|] eqn:Hv; [|vm_compute in Hv; discriminate].
  exists i. split; [reflexivity|].
  destruct (SetInstance_update_keeps_geometry demoKernels 0 0 mat4_Identity demoScene i Hi Hv)
    as (s' & i' & E & Hv' & _ & Hg & _).
  exists s', i'. split; [exact E|]. split; [exact Hv'|exact Hg].
Defined.

Lemma demoScene_ok : scene_ok demoScene.
Proof.
  apply (scene_ok_instDescArray demoKernels). vm_compute. eexists. reflexivity.
Defined.

Lemma scene_ok_preserved_witness :
  (- 2 ^ 31 <= 0 < 2 ^ 31) /\ scene_ok demoScene /\
  (allocated demoScene -> ready demoKernels demoScene).
Proof.
  assert (Hi : - 2 ^ 31 <= 0 < 2 ^ 31) by (split; [discriminate|reflexivity]).
  split; [exact Hi|]. split; [exact demoScene_ok|].
  apply (scene_ok_preserved demoKernels 0 tt 0 mat4_Identity demoScene demoScene []
           Hi demoScene_ok).
Defined.

Lemma demoLoaded_synced32 : SyncStorageType ARGB32 demoLoaded = Some demoSynced32.
Proof. vm_compute. reflexivity. Defined.

Lemma demoLoaded_synced128 : SyncStorageType ARGB128 demoLoaded = Some demoSynced128.
Proof. vm_compute. reflexivity. Defined.

Lemma demoTextures_set : SetTextures demoTextures 4 demoTextureState = Some demoTextured.
Proof. vm_compute. reflexivity. Defined.

Lemma demoMaterials_set :
  SetMaterials (texDescs demoTextured) demoMaterials demoMaterialsEx 1 = Some demoResolved.
Proof. vm_compute. reflexivity. Defined.

Lemma demoTextures_ok d : d ∈ demoTextures -> texture_ok d.
Proof.
  unfold demoTextures. intros Hd.
  repeat (apply elem_of_cons in Hd as [->|Hd]; [unfold texture_ok; simpl; lia|]).
  inversion Hd.
Defined.

Lemma SyncStorageType_offsets_witness :
  SyncStorageType ARGB32 demoLoaded = Some demoSynced32 /\
  texel_count_of ARGB32 demoSynced32 = Z.max 16 (uint (texels ARGB32 demoTextures)).
Proof.
  split; [exact demoLoaded_synced32|].
  destruct (SyncStorageType_offsets ARGB32 demoLoaded demoSynced32 demoTextures
              demoLoaded_synced32 eq_refl eq_refl)
    as (descs' & buf & _ & _ & _ & H4 & H5 & _).
  rewrite H5, H4. reflexivity.
Defined.

Lemma SyncStorageType_returns_iff_witness :
  (texDescs demoLoaded = Some demoTextures /\
   textureCount demoLoaded = Z.of_nat (length demoTextures) /\
   texels ARGB32 demoTextures < 2 ^ 32) /\
  is_Some (SyncStorageType ARGB32 demoLoaded).
Proof.
  assert (H1 : texDescs demoLoaded = Some demoTextures) by reflexivity.
  assert (H2 : texels ARGB32 demoTextures < 2 ^ 32) by reflexivity.
  assert (H3 : textureCount demoLoaded = Z.of_nat (length demoTextures)) by reflexivity.
  split; [repeat split; assumption|].
  apply (proj2 (SyncStorageType_returns_iff ARGB32 demoLoaded demoTextures H1 H3 H2)).
  intros d Hd _. exact (demoTextures_ok d Hd).
Defined.

Lemma SyncStorageType_host_witness :
  SyncStorageType ARGB32 demoLoaded = Some demoSynced32 /\
  exists buf,
    buffer_of ARGB32 demoSynced32 = Some buf /\
    vec_at (tb_host buf)
      (words_per_texel ARGB32 * texels ARGB32 (take 2 demoTextures) + 1)
    = Some <$> vec_at [3; 4; 5] 1.
Proof.
  split; [exact demoLoaded_synced32|].
  destruct (SyncStorageType_host ARGB32 demoLoaded demoSynced32 demoTextures
              demoLoaded_synced32 eq_refl eq_refl eq_refl) as (buf & Hb & _ & HA & _).
  exists buf. split; [exact Hb|].
  apply (HA 2%nat (mkTexDesc ARGB32 3 [3; 4; 5] 0) 1 eq_refl eq_refl).
  simpl. lia.
Defined.

Lemma SyncStorageType_ARGB128_quarter_witness :
  SyncStorageType ARGB128 demoLoaded = Some demoSynced128 /\
  exists buf,
    buffer_of ARGB128 demoSynced128 = Some buf /\
    vec_at (tb_host buf) (4 * texels ARGB128 (take 1 demoTextures) + 2) = Some None.
Proof.
  split; [exact demoLoaded_synced128|].
  apply (SyncStorageType_ARGB128_quarter demoLoaded demoSynced128 demoTextures 1
           (mkTexDesc ARGB128 1 [10; 11; 12; 13] 0) 2
           demoLoaded_synced128 eq_refl eq_refl eq_refl eq_refl eq_refl).
  simpl. lia.
Defined.

Lemma SetTextures_offsets_witness :
  SetTextures demoTextures 4 demoTextureState = Some demoTextured /\ 4 <> 0 /\
  exists descs', texDescs demoTextured = Some descs' /\ Z.of_nat (length descs') = 4.
Proof.
  assert (Hn : 4 <> 0) by discriminate.
  split; [exact demoTextures_set|]. split; [exact Hn|].
  destruct (SetTextures_offsets _ _ _ _ demoTextures_set Hn) as (_ & descs' & H1 & H2 & _).
  exists descs'. split; [exact H1|exact H2].
Defined.

Lemma SetTextures_returns_witness :
  (0 <= 4 <= Z.of_nat (length demoTextures)) /\
  is_Some (SetTextures demoTextures 4 demoTextureState).
Proof.
  assert (H : 0 <= 4 <= Z.of_nat (length demoTextures)) by (simpl; lia).
  split; [exact H|].
  apply (SetTextures_returns demoTextures 4 demoTextureState H).
  - intros d Hd. exact (demoTextures_ok d Hd).
  - intros []; reflexivity.
Defined.

Lemma SetMaterials_addresses_witness :
  SetMaterials (texDescs demoTextured) demoMaterials demoMaterialsEx 1 = Some demoResolved /\
  Z.of_nat (length demoResolved) = 1.
Proof.
  split; [exact demoMaterials_set|].
  apply (SetMaterials_addresses _ _ _ _ _ demoMaterials_set).
Defined.

Lemma SetMaterials_returns_iff_witness :
  (0 <= 1 <= Z.of_nat (length demoMaterials) /\ 1 <= Z.of_nat (length demoMaterialsEx)) /\
  is_Some (SetMaterials (texDescs demoTextured) demoMaterials demoMaterialsEx 1).
Proof.
  assert (H1 : 0 <= 1 <= Z.of_nat (length demoMaterials)) by (simpl; lia).
  assert (H2 : 1 <= Z.of_nat (length demoMaterialsEx)) by (simpl; lia).
  split; [split; assumption|].
  apply (proj2 (SetMaterials_returns_iff (texDescs demoTextured) demoMaterials
                  demoMaterialsEx 1 H1 H2)).
  intros [|i] e Hi He; [|lia].
  cbn in He. injection He as <-. reflexivity.
Defined.

Lemma SetMaterials_after_SetTextures_witness :
  SetTextures demoTextures 4 demoTextureState = Some demoTextured /\ 4 <> 0 /\
  SetMaterials (texDescs demoTextured) demoMaterials demoMaterialsEx 1 = Some demoResolved /\
  exists m' d,
    demoResolved !! 0%nat = Some m' /\ 0 <= 2 < 4 /\ vec_at demoTextures 2 = Some d /\
    address 0 m' = uint (texels (storage d) (take (Z.to_nat 2) demoTextures)).
Proof.
  assert (Hn : 4 <> 0) by discriminate.
  split; [exact demoTextures_set|]. split; [exact Hn|]. split; [exact demoMaterials_set|].
  apply (SetMaterials_after_SetTextures demoTextures 4 demoTextureState demoTextured
           demoMaterials demoMaterialsEx 1 demoResolved
           demoTextures_set Hn demoMaterials_set
           0%nat (mkMaterial 0 0 0 0 0 0 0 0 0 0 42)
           (mkMaterialEx [2; -1; -1; 3; -1; -1; -1; -1; 5; -1; 1]) 0%nat 2).
  - reflexivity.
  - reflexivity.
  - reflexivity.
  - reflexivity.
  - reflexivity.
  - discriminate.
Defined.

Lemma SetMaterials_without_textures_witness :
  (0 <= 1 <= Z.of_nat (length demoMaterials) /\ 1 <= Z.of_nat (length demoMaterialsEx)) /\
  exists t', SetTextures demoTextures 0 demoTextured = Some t' /\ texDescs t' = None.
Proof.
  assert (H1 : 0 <= 1 <= Z.of_nat (length demoMaterials)) by (simpl; lia).
  assert (H2 : 1 <= Z.of_nat (length demoMaterialsEx)) by (simpl; lia).
  split; [split; assumption|].
  destruct (SetMaterials_without_textures demoTextures demoTextured demoMaterials
              demoMaterialsEx 1 H1 H2) as (t' & E & Hd & _).
  exists t'. split; [exact E|exact Hd].
Defined.

Lemma demoTables_fit :
  tables_fit (demoTable 65536) (demoTable (128 * 128 * 8)) (demoTable (128 * 128 * 8)).
Proof. unfold tables_fit, demoTable. rewrite !length_replicate. lia. Defined.

Lemma blueNoise_layout_witness :
  tables_fit (demoTable 65536) (demoTable (128 * 128 * 8)) (demoTable (128 * 128 * 8)) /\
  is_Some (blueNoise_data (demoTable 65536) (demoTable (128 * 128 * 8))
             (demoTable (128 * 128 * 8))).
Proof.
  split; [exact demoTables_fit|].
  apply (proj2 (proj1 (blueNoise_layout _ _ _))). exact demoTables_fit.
Defined.

Lemma Init_ptx_round_trip_witness :
  (0 <= 7 /\ 0 <= 5 < 10) /\
  ptx_written (computeCapability 7 5) = ptx_read 7.
Proof.
  assert (H0 : 0 <= 7) by discriminate.
  assert (H1 : 0 <= 5 < 10) by (split; [discriminate|reflexivity]).
  split; [split; assumption|].
  apply (Init_ptx_round_trip 7 5 H0 H1).
Defined.
